(** * Matchmaking slots and scheduler of the lichess bot

    A shallow embedding of [lib/matchmaking.py]: the lane tracker
    [MatchmakingSlots], the rating-category classifier [game_category],
    the opponent weighting [get_weights] and the scheduler [Matchmaking]
    with its per-tick decision [challenge].

    Python [int] is [Z]; [str] is [string]; a [dict] with string keys is a
    [gmap string _]; a [set] of strings is a [gset string]. *)

From Stdlib Require Import ZArith Lia.
From stdpp Require Import base gmap strings list fin_maps fin_sets.

Local Open Scope string_scope.
Local Open Scope Z_scope.

(** ** Module-level constants and helpers *)

Definition BOT_SHORT_SPEEDS : gset string := {[ "ultraBullet"; "bullet"; "blitz" ]}.
Definition BOT_LONG_SPEEDS : gset string := {[ "rapid"; "classical" ]}.
Definition CORRESPONDENCE_SPEED : string := "correspondence".

(** [sum(1 for x in xs if p(x))] *)
Definition count_where {A} (p : A -> bool) (xs : list A) : Z :=
  Z.of_nat (length (List.filter p xs)).

(** [len(s)] for a set *)
Definition len_set (s : gset string) : Z := Z.of_nat (size s).

(** [x in s] for a set of strings *)
Definition in_set (x : string) (s : gset string) : bool := bool_decide (x ∈ s).

Definition bot_lane_for_speed (speed : string) : string :=
  if in_set speed BOT_SHORT_SPEEDS then "short" else "long".

Definition is_correspondence_speed (speed : string) : bool :=
  String.eqb speed CORRESPONDENCE_SPEED.

(** ** [game_category] *)

Definition game_category (variant : string) (base_time increment num_days : Z) : string :=
  let game_duration := base_time + increment * 40 in
  if negb (String.eqb variant "standard") then variant
  else if negb (num_days =? 0) then "correspondence"
  else if game_duration <? 179 then "bullet"
  else if game_duration <? 479 then "blitz"
  else if game_duration <? 1499 then "rapid"
  else "classical".

(** ** [MatchmakingSlots] *)

Record MatchmakingSlots := mkSlots {
  max_games : Z;
  enabled : bool;
  slot_by_game_id : gmap string string;
  pending_outgoing_challenges : gset string;
  pending_outgoing_correspondence : gset string;
}.

(** The dataclass constructor followed by [__post_init__]. *)
Definition new_slots (max_games : Z) : MatchmakingSlots :=
  {| max_games := max_games;
     enabled := max_games =? 3;
     slot_by_game_id := ∅;
     pending_outgoing_challenges := ∅;
     pending_outgoing_correspondence := ∅ |}.

Definition _slot_for_game (self : MatchmakingSlots) (is_bot_game : bool) (speed : string) : string :=
  if is_correspondence_speed speed then CORRESPONDENCE_SPEED
  else if negb (enabled self) then "any"
  else if negb is_bot_game then "human"
  else "bot_" +:+ bot_lane_for_speed speed.

Definition reserve_game (self : MatchmakingSlots) (game_id : string) (is_bot_game : bool)
    (speed : string) : MatchmakingSlots :=
  if negb (enabled self) then self
  else
    {| max_games := max_games self;
       enabled := enabled self;
       slot_by_game_id := <[game_id := _slot_for_game self is_bot_game speed]> (slot_by_game_id self);
       pending_outgoing_challenges := pending_outgoing_challenges self ∖ {[game_id]};
       pending_outgoing_correspondence := pending_outgoing_correspondence self ∖ {[game_id]} |}.

Definition reserve_outgoing_challenge (self : MatchmakingSlots) (challenge_id speed : string)
    : MatchmakingSlots :=
  if negb (enabled self) then self
  else
    let slots := <[challenge_id := _slot_for_game self true speed]> (slot_by_game_id self) in
    if is_correspondence_speed speed then
      {| max_games := max_games self;
         enabled := enabled self;
         slot_by_game_id := slots;
         pending_outgoing_challenges := pending_outgoing_challenges self;
         pending_outgoing_correspondence := {[challenge_id]} ∪ pending_outgoing_correspondence self |}
    else
      {| max_games := max_games self;
         enabled := enabled self;
         slot_by_game_id := slots;
         pending_outgoing_challenges := {[challenge_id]} ∪ pending_outgoing_challenges self;
         pending_outgoing_correspondence := pending_outgoing_correspondence self |}.

Definition confirm_game_start (self : MatchmakingSlots) (game_id : string) : MatchmakingSlots :=
  if negb (enabled self) then self
  else
    {| max_games := max_games self;
       enabled := enabled self;
       slot_by_game_id := slot_by_game_id self;
       pending_outgoing_challenges := pending_outgoing_challenges self ∖ {[game_id]};
       pending_outgoing_correspondence := pending_outgoing_correspondence self ∖ {[game_id]} |}.

Definition release (self : MatchmakingSlots) (game_or_challenge_id : string) : MatchmakingSlots :=
  if negb (enabled self) then self
  else
    {| max_games := max_games self;
       enabled := enabled self;
       slot_by_game_id := delete game_or_challenge_id (slot_by_game_id self);
       pending_outgoing_challenges := pending_outgoing_challenges self ∖ {[game_or_challenge_id]};
       pending_outgoing_correspondence :=
         pending_outgoing_correspondence self ∖ {[game_or_challenge_id]} |}.

Definition has_reservation (self : MatchmakingSlots) (game_id : string) : bool :=
  if negb (enabled self) then false
  else bool_decide (is_Some (slot_by_game_id self !! game_id)).

Definition used_slots (self : MatchmakingSlots) (active_games : gset string) : Z :=
  if negb (enabled self) then len_set active_games
  else
    let pending :=
      count_where (fun challenge_id => negb (in_set challenge_id active_games))
                  (elements (pending_outgoing_challenges self)) in
    len_set active_games + pending.

(** [self.slot_by_game_id.values()] *)
Definition slot_values (self : MatchmakingSlots) : list string :=
  (map_to_list (slot_by_game_id self)).*2.



Definition correspondence_reservation_count (self : MatchmakingSlots) : Z :=
  if negb (enabled self) then 0
  else count_where (fun slot => String.eqb slot CORRESPONDENCE_SPEED) (slot_values self).

Definition is_correspondence (self : MatchmakingSlots) (game_or_challenge_id : string) : bool :=
  if negb (enabled self) then false
  else bool_decide (slot_by_game_id self !! game_or_challenge_id = Some CORRESPONDENCE_SPEED).

Definition _bot_lane_counts (self : MatchmakingSlots) : Z * Z :=
  if negb (enabled self) then (0, 0)
  else
    let short_count := count_where (fun slot => String.eqb slot "bot_short") (slot_values self) in
    let long_count := count_where (fun slot => String.eqb slot "bot_long") (slot_values self) in
    (short_count, long_count).

Definition can_accept_human (self : MatchmakingSlots) (active_games : gset string) : bool :=
  used_slots self active_games <? max_games self.

Definition can_accept_correspondence (self : MatchmakingSlots) (active_games : gset string) : bool :=
  if negb (enabled self) then used_slots self active_games <? max_games self
  else true.

Definition can_accept_bot_speed (self : MatchmakingSlots) (speed : string)
    (active_games : gset string) : bool :=
  if is_correspondence_speed speed then can_accept_correspondence self active_games
  else if used_slots self active_games >=? max_games self then false
  else if negb (enabled self) then true
  else
    let '(short_count, long_count) := _bot_lane_counts self in
    if short_count + long_count >=? 2 then false
    else
      let lane := bot_lane_for_speed speed in
      (String.eqb lane "short" && (short_count =? 0))
      || (String.eqb lane "long" && (long_count =? 0)).

(** The two attributes of [model.Challenge] that the tracker reads:
    [challenge.speed] and [challenge.challenger.is_bot]. *)
Record Challenge := mkChallenge {
  challenge_speed : string;
  challenger_is_bot : bool;
}.

Definition can_accept_challenge (self : MatchmakingSlots) (challenge : Challenge)
    (active_games : gset string) : bool :=
  if is_correspondence_speed (challenge_speed challenge) then
    can_accept_correspondence self active_games
  else if challenger_is_bot challenge then
    can_accept_bot_speed self (challenge_speed challenge) active_games
  else can_accept_human self active_games.

Definition available_bot_lanes (self : MatchmakingSlots) (active_games : gset string)
    : gset string :=
  if used_slots self active_games >=? max_games self then ∅
  else if negb (enabled self) then {[ "short"; "long" ]}
  else
    let '(short_count, long_count) := _bot_lane_counts self in
    if short_count + long_count >=? 2 then ∅
    else
      let available_lanes : gset string := ∅ in
      let available_lanes :=
        if short_count =? 0 then {[ "short" ]} ∪ available_lanes else available_lanes in
      let available_lanes :=
        if long_count =? 0 then {[ "long" ]} ∪ available_lanes else available_lanes in
      available_lanes.

(** [bool(s)] for a set: non-empty *)
Definition truthy_set (s : gset string) : bool := negb (bool_decide (s = ∅)).

Definition can_start_correspondence_move (self : MatchmakingSlots) (active_games : gset string)
    : bool :=
  if used_slots self active_games >=? max_games self then false
  else if negb (enabled self) then true
  else truthy_set (available_bot_lanes self active_games).

(** ** Timers *)

(** Modelled from the spec: [lib.timer.Timer] is imported by
    [lib/matchmaking.py] but is not among the source files.  A timer is "a
    monotonic start instant + a duration" that exposes "expired?" and
    "remaining".  Instants and durations are counted in microseconds, the
    resolution of [datetime.timedelta]. *)
Record Timer := mkTimer {
  duration : Z;
  starting_time : Z;
}.

(** Modelled from the spec: the duration constructors of [lib.timer]. *)
Definition seconds (n : Z) : Z := n * 1000000.
Definition minutes (n : Z) : Z := seconds (60 * n).
Definition days (n : Z) : Z := seconds (86400 * n).
Definition years (n : Z) : Z := days (365 * n).

(** Modelled from the spec: [Timer(duration)], started at the instant [now]. *)
Definition new_timer (duration now : Z) : Timer :=
  {| duration := duration; starting_time := now |}.

(** Modelled from the spec: the time elapsed since the start instant. *)
Definition time_since_reset (t : Timer) (now : Z) : Z := now - starting_time t.

(** Modelled from the spec: "expired?".  A timer built with no duration is
    "already-expired", so a timer is expired from the instant its duration
    has elapsed, that instant included. *)
Definition is_expired (t : Timer) (now : Z) : bool :=
  duration t <=? time_since_reset t now.

(** Modelled from the spec: a timer "resets", keeping its duration. *)
Definition timer_reset (t : Timer) (now : Z) : Timer :=
  {| duration := duration t; starting_time := now |}.

(** Modelled from the spec: "remaining". *)
Definition time_until_expiration (t : Timer) (now : Z) : Z :=
  Z.max 0 (duration t - time_since_reset t now).

(** ** Profiles, configuration and the Lichess client *)

(** Modelled from the spec: [lib.lichess_types.PerfType], the value of a
    profile's "mapping category → {rating, games}".  Both keys are read with
    [.get(key, 0)], so each may be absent. *)
Record PerfType := mkPerf {
  perf_rating : option Z;
  perf_games : option Z;
}.

(** Modelled from the spec: [lib.lichess_types.UserProfileType], of shape
    "{username, perfs}".  A missing ["perfs"] key reads as the empty dict. *)
Record UserProfileType := mkProfile {
  p_username : string;
  p_perfs : gmap string PerfType;
}.

(** Modelled from the spec: [lib.lichess_types.FilterType], the values of
    [challengeFilter] ([none], [coarse], [fine]). *)
Inductive FilterType := FilterNONE | FilterCOARSE | FilterFINE.

(** Modelled from the spec: [lib.config.Configuration] is not among the
    source files; these are the keys of [match_config] that opponent selection
    reads.  A list-valued key that is unset or falsy is the empty list; [None]
    entries are kept. *)
Record MatchConfig := mkMatchConfig {
  challenge_initial_time : list (option Z);
  challenge_increment : list (option Z);
  challenge_days : list (option Z);
  challenge_variant : string;
  challenge_mode : string;
  rating_preference : string;
  opponent_min_rating : Z;
  opponent_max_rating : Z;
  opponent_rating_difference : option Z;
}.

(** Modelled from the spec: [self.matchmaking_cfg], a [Configuration].
    [cfg_defaults] is the configuration with no override; every entry of
    [cfg_overrides] is a named override "merged over the base matchmaking
    configuration", the result of [matchmaking_cfg | override]. *)
Record MatchmakingCfg := mkCfg {
  allow_matchmaking : bool;
  allow_during_games : bool;
  cfg_defaults : MatchConfig;
  cfg_overrides : list (string * MatchConfig);
}.

Record ChallengeParams := mkParams {
  param_rated : bool;
  param_variant : string;
  param_days : option Z;
  param_clock_limit : option Z;
  param_clock_increment : option Z;
}.

(** The keys of the response dict of [li.challenge] that are read:
    [resp_id] is [response.get("id", "")], the two flags are the truth values
    of ["bot_is_rate_limited"] and ["opponent_is_rate_limited"]. *)
Record ChallengeType := mkResponse {
  resp_id : string;
  resp_bot_is_rate_limited : bool;
  resp_opponent_is_rate_limited : bool;
  resp_rate_limit_timeout : option Z;
}.

Inductive ChallengeAnswer :=
| answer_response (response : ChallengeType)
| answer_rate_limited (timeout : Z)
| answer_error.

(** Modelled from the spec: the Game Service ([lib.lichess.Lichess]) and the
    online block list ([lib.blocklist.OnlineBlocklist]) are external
    collaborators; this is what they answer during one tick.  [None] and
    [answer_error] stand for a call that raises. *)
Record Lichess := mkLichess {
  li_online_bots : list UserProfileType;
  li_public_data_blocking : string -> option bool;
  li_profile : option UserProfileType;
  li_challenge_answer : string -> ChallengeParams -> ChallengeAnswer;
  online_block_listed : string -> bool;
}.

(** [int | float]: the background target is an integer or [math.inf]. *)
Inductive Target := target_int (n : Z) | target_inf.

Definition target_reached (current : Z) (target : Target) : bool :=
  match target with
  | target_int n => current >=? n
  | target_inf => false
  end.

(** ** [get_weights] and the opponent filter *)

Definition rating (game_type : string) (bot : UserProfileType) : Z :=
  default 0 (perf_rating (default (mkPerf None None) (p_perfs bot !! game_type))).

Definition games_played (game_type : string) (bot : UserProfileType) : Z :=
  default 0 (perf_games (default (mkPerf None None) (p_perfs bot !! game_type))).

Definition get_weights (online_bots : list UserProfileType) (rating_preference : string)
    (min_rating max_rating : Z) (game_type : string) : list Z :=
  if String.eqb rating_preference "high" then
    let reduce_ratings_by := Z.min (min_rating - (max_rating - min_rating)) (min_rating - 1) in
    List.map (fun bot => rating game_type bot - reduce_ratings_by) online_bots
  else if String.eqb rating_preference "low" then
    let reduce_ratings_by := Z.max (max_rating - (min_rating - max_rating)) (max_rating + 1) in
    List.map (fun bot => reduce_ratings_by - rating game_type bot) online_bots
  else List.repeat 1 (length online_bots).

(** The last conjunct of [is_suitable_opponent]. *)
Definition rating_in_window (game_type : string) (min_rating max_rating : Z)
    (bot : UserProfileType) : bool :=
  (min_rating <=? rating game_type bot) && (rating game_type bot <=? max_rating).

(** ** [configured_time_controls] *)

Definition int_or_0 (v : option Z) : Z := default 0 v.

Definition or_none (l : list (option Z)) : list (option Z) :=
  match l with [] => [None] | _ => l end.

Definition lane_allowed (allowed_bot_lanes : option (gset string)) (lane : string) : bool :=
  match allowed_bot_lanes with
  | None => true
  | Some lanes => in_set lane lanes
  end.

Definition configured_time_controls (match_config : MatchConfig)
    (allowed_bot_lanes : option (gset string)) (include_correspondence : bool)
    : list (Z * Z * Z) :=
  let challenge_initial_time := or_none (challenge_initial_time match_config) in
  let challenge_increment := or_none (challenge_increment match_config) in
  let challenge_days := challenge_days match_config in
  let realtime :=
    List.flat_map (fun base =>
      List.flat_map (fun increment =>
        let base_time := int_or_0 base in
        let inc_time := int_or_0 increment in
        if negb (negb (base_time =? 0) || negb (inc_time =? 0)) then []
        else
          let speed := game_category "standard" base_time inc_time 0 in
          if lane_allowed allowed_bot_lanes (bot_lane_for_speed speed)
          then [(base_time, inc_time, 0)] else [])
        challenge_increment)
      challenge_initial_time in
  let correspondence :=
    if include_correspondence then
      List.flat_map (fun num_days_cfg =>
        let num_days := int_or_0 num_days_cfg in
        if num_days =? 0 then []
        else if lane_allowed allowed_bot_lanes "long" then [(0, 0, num_days)] else [])
        challenge_days
    else [] in
  realtime ++ correspondence.

(** ** The scheduler state

    The attributes of a [Matchmaking] object after [__init__].  The online
    block list is folded into the answers of [li]. *)

Record Matchmaking := mkMatchmaking {
  li : Lichess;
  variants : list string;
  matchmaking_cfg : MatchmakingCfg;
  user_profile : UserProfileType;
  last_challenge_created_delay : Timer;
  last_game_ended_delay : Timer;
  last_user_profile_update_time : Timer;
  min_wait_time : Z;
  rate_limit_timer : Timer;
  max_wait_time : Z;
  challenge_id : string;
  force_immediate_challenge : bool;
  max_background_correspondence_games : Target;
  challenge_type_acceptable : gmap (string * string) Timer;
  challenge_filter : FilterType;
  slots : option MatchmakingSlots;
}.

(** Attribute assignment [self.<field> = v]. *)
Definition set_user_profile (v : UserProfileType) (m : Matchmaking) : Matchmaking :=
  {| li := li m;
     variants := variants m;
     matchmaking_cfg := matchmaking_cfg m;
     user_profile := v;
     last_challenge_created_delay := last_challenge_created_delay m;
     last_game_ended_delay := last_game_ended_delay m;
     last_user_profile_update_time := last_user_profile_update_time m;
     min_wait_time := min_wait_time m;
     rate_limit_timer := rate_limit_timer m;
     max_wait_time := max_wait_time m;
     challenge_id := challenge_id m;
     force_immediate_challenge := force_immediate_challenge m;
     max_background_correspondence_games := max_background_correspondence_games m;
     challenge_type_acceptable := challenge_type_acceptable m;
     challenge_filter := challenge_filter m;
     slots := slots m |}.

Definition set_last_challenge_created_delay (v : Timer) (m : Matchmaking) : Matchmaking :=
  {| li := li m;
     variants := variants m;
     matchmaking_cfg := matchmaking_cfg m;
     user_profile := user_profile m;
     last_challenge_created_delay := v;
     last_game_ended_delay := last_game_ended_delay m;
     last_user_profile_update_time := last_user_profile_update_time m;
     min_wait_time := min_wait_time m;
     rate_limit_timer := rate_limit_timer m;
     max_wait_time := max_wait_time m;
     challenge_id := challenge_id m;
     force_immediate_challenge := force_immediate_challenge m;
     max_background_correspondence_games := max_background_correspondence_games m;
     challenge_type_acceptable := challenge_type_acceptable m;
     challenge_filter := challenge_filter m;
     slots := slots m |}.

Definition set_last_game_ended_delay (v : Timer) (m : Matchmaking) : Matchmaking :=
  {| li := li m;
     variants := variants m;
     matchmaking_cfg := matchmaking_cfg m;
     user_profile := user_profile m;
     last_challenge_created_delay := last_challenge_created_delay m;
     last_game_ended_delay := v;
     last_user_profile_update_time := last_user_profile_update_time m;
     min_wait_time := min_wait_time m;
     rate_limit_timer := rate_limit_timer m;
     max_wait_time := max_wait_time m;
     challenge_id := challenge_id m;
     force_immediate_challenge := force_immediate_challenge m;
     max_background_correspondence_games := max_background_correspondence_games m;
     challenge_type_acceptable := challenge_type_acceptable m;
     challenge_filter := challenge_filter m;
     slots := slots m |}.

Definition set_last_user_profile_update_time (v : Timer) (m : Matchmaking) : Matchmaking :=
  {| li := li m;
     variants := variants m;
     matchmaking_cfg := matchmaking_cfg m;
     user_profile := user_profile m;
     last_challenge_created_delay := last_challenge_created_delay m;
     last_game_ended_delay := last_game_ended_delay m;
     last_user_profile_update_time := v;
     min_wait_time := min_wait_time m;
     rate_limit_timer := rate_limit_timer m;
     max_wait_time := max_wait_time m;
     challenge_id := challenge_id m;
     force_immediate_challenge := force_immediate_challenge m;
     max_background_correspondence_games := max_background_correspondence_games m;
     challenge_type_acceptable := challenge_type_acceptable m;
     challenge_filter := challenge_filter m;
     slots := slots m |}.

Definition set_rate_limit_timer (v : Timer) (m : Matchmaking) : Matchmaking :=
  {| li := li m;
     variants := variants m;
     matchmaking_cfg := matchmaking_cfg m;
     user_profile := user_profile m;
     last_challenge_created_delay := last_challenge_created_delay m;
     last_game_ended_delay := last_game_ended_delay m;
     last_user_profile_update_time := last_user_profile_update_time m;
     min_wait_time := min_wait_time m;
     rate_limit_timer := v;
     max_wait_time := max_wait_time m;
     challenge_id := challenge_id m;
     force_immediate_challenge := force_immediate_challenge m;
     max_background_correspondence_games := max_background_correspondence_games m;
     challenge_type_acceptable := challenge_type_acceptable m;
     challenge_filter := challenge_filter m;
     slots := slots m |}.

Definition set_challenge_id (v : string) (m : Matchmaking) : Matchmaking :=
  {| li := li m;
     variants := variants m;
     matchmaking_cfg := matchmaking_cfg m;
     user_profile := user_profile m;
     last_challenge_created_delay := last_challenge_created_delay m;
     last_game_ended_delay := last_game_ended_delay m;
     last_user_profile_update_time := last_user_profile_update_time m;
     min_wait_time := min_wait_time m;
     rate_limit_timer := rate_limit_timer m;
     max_wait_time := max_wait_time m;
     challenge_id := v;
     force_immediate_challenge := force_immediate_challenge m;
     max_background_correspondence_games := max_background_correspondence_games m;
     challenge_type_acceptable := challenge_type_acceptable m;
     challenge_filter := challenge_filter m;
     slots := slots m |}.

Definition set_force_immediate_challenge (v : bool) (m : Matchmaking) : Matchmaking :=
  {| li := li m;
     variants := variants m;
     matchmaking_cfg := matchmaking_cfg m;
     user_profile := user_profile m;
     last_challenge_created_delay := last_challenge_created_delay m;
     last_game_ended_delay := last_game_ended_delay m;
     last_user_profile_update_time := last_user_profile_update_time m;
     min_wait_time := min_wait_time m;
     rate_limit_timer := rate_limit_timer m;
     max_wait_time := max_wait_time m;
     challenge_id := challenge_id m;
     force_immediate_challenge := v;
     max_background_correspondence_games := max_background_correspondence_games m;
     challenge_type_acceptable := challenge_type_acceptable m;
     challenge_filter := challenge_filter m;
     slots := slots m |}.

Definition set_challenge_type_acceptable (v : gmap (string * string) Timer) (m : Matchmaking) : Matchmaking :=
  {| li := li m;
     variants := variants m;
     matchmaking_cfg := matchmaking_cfg m;
     user_profile := user_profile m;
     last_challenge_created_delay := last_challenge_created_delay m;
     last_game_ended_delay := last_game_ended_delay m;
     last_user_profile_update_time := last_user_profile_update_time m;
     min_wait_time := min_wait_time m;
     rate_limit_timer := rate_limit_timer m;
     max_wait_time := max_wait_time m;
     challenge_id := challenge_id m;
     force_immediate_challenge := force_immediate_challenge m;
     max_background_correspondence_games := max_background_correspondence_games m;
     challenge_type_acceptable := v;
     challenge_filter := challenge_filter m;
     slots := slots m |}.

Definition set_slots (v : option MatchmakingSlots) (m : Matchmaking) : Matchmaking :=
  {| li := li m;
     variants := variants m;
     matchmaking_cfg := matchmaking_cfg m;
     user_profile := user_profile m;
     last_challenge_created_delay := last_challenge_created_delay m;
     last_game_ended_delay := last_game_ended_delay m;
     last_user_profile_update_time := last_user_profile_update_time m;
     min_wait_time := min_wait_time m;
     rate_limit_timer := rate_limit_timer m;
     max_wait_time := max_wait_time m;
     challenge_id := challenge_id m;
     force_immediate_challenge := force_immediate_challenge m;
     max_background_correspondence_games := max_background_correspondence_games m;
     challenge_type_acceptable := challenge_type_acceptable m;
     challenge_filter := challenge_filter m;
     slots := v |}.

(** ** The world of one tick and its monad

    A method of [Matchmaking] runs in a world: the object itself, the reading
    of [time.perf_counter()] (one instant per tick), the outcomes of the
    random generator still to come, and a log of the calls made so far, as a
    mock would record them.  A run either returns a value or raises. *)

Inductive Call :=
| call_li_cancel (challenge_id : string)
| call_li_challenge (username : string) (params : ChallengeParams)
| call_li_get_online_bots
| call_li_get_public_data (username : string)
| call_li_get_profile
| call_should_create_challenge (ignore_postgame_timeout ignore_min_wait : bool)
| call_choose_opponent (allowed_bot_lanes : option (gset string)) (correspondence_only : bool)
| call_create_challenge (username : string) (base_time increment days : Z) (variant mode : string).

Record World := mkWorld {
  self : Matchmaking;
  now : Z;
  rng : list nat;
  calls : list Call;
}.

Inductive Exn :=
| RateLimitedError (timeout : Z)
| IndexError
| ValueError
| OtherException.

Inductive Outcome (A : Type) :=
| Returned (a : A) (w : World)
| Raised (e : Exn) (w : World).
Arguments Returned {A} a w.
Arguments Raised {A} e w.

Definition world_of {A} (o : Outcome A) : World :=
  match o with Returned _ w => w | Raised _ w => w end.

Definition result_of {A} (o : Outcome A) : option A :=
  match o with Returned a _ => Some a | Raised _ _ => None end.

Definition M (A : Type) : Type := World -> Outcome A.

Definition ret {A} (a : A) : M A := fun w => Returned a w.

Definition bind {A B} (c : M A) (k : A -> M B) : M B :=
  fun w => match c w with
           | Returned a w' => k a w'
           | Raised e w' => Raised e w'
           end.

Definition raise {A} (e : Exn) : M A := fun w => Raised e w.

(** [try: body except ... as e: handler(e)] *)
Definition try_except {A} (body : M A) (handler : Exn -> M A) : M A :=
  fun w => match body w with
           | Returned a w' => Returned a w'
           | Raised e w' => handler e w'
           end.

Declare Scope monad_scope.
Delimit Scope monad_scope with monad.
Notation "x ← y ; z" := (bind y (fun x => z))
  (at level 20, y at level 100, z at level 200, only parsing) : monad_scope.
Notation "' x ← y ; z" := (bind y (fun x => z))
  (at level 20, x pattern, y at level 100, z at level 200, only parsing) : monad_scope.
Notation "x ;; z" := (bind x (fun _ => z))
  (at level 100, z at level 200, only parsing, right associativity) : monad_scope.
Local Open Scope monad_scope.

Definition get_self : M Matchmaking := fun w => Returned (self w) w.

Definition modify_self (f : Matchmaking -> Matchmaking) : M unit :=
  fun w => Returned tt {| self := f (self w); now := now w; rng := rng w; calls := calls w |}.

Definition perf_counter : M Z := fun w => Returned (now w) w.

Definition record_call (c : Call) : M unit :=
  fun w => Returned tt {| self := self w; now := now w; rng := rng w; calls := calls w ++ [c] |}.

(** The next outcome of the random generator (0 once the supply is used up). *)
Definition next_random : M nat :=
  fun w => match rng w with
           | [] => Returned 0%nat w
           | r :: rest =>
               Returned r {| self := self w; now := now w; rng := rest; calls := calls w |}
           end.

(** [random.choice(seq)]: raises [IndexError] on an empty sequence. *)
Definition random_choice {A} (seq : list A) : M A :=
  match seq with
  | [] => raise IndexError
  | _ =>
      r ← next_random;
      match seq !! (r mod length seq)%nat with
      | Some x => ret x
      | None => raise IndexError
      end
  end.

Definition sum_list_Z (l : list Z) : Z := foldr Z.add 0 l.

(** The element whose cumulative weight first exceeds [x]; the last one if none does. *)
Fixpoint pick_by_weight {A} (population : list A) (weights : list Z) (x : Z) : option A :=
  match population, weights with
  | [], _ => None
  | [a], _ => Some a
  | a :: _, [] => Some a
  | a :: rest, wt :: weights' =>
      if x <? wt then Some a else pick_by_weight rest weights' (x - wt)
  end.

(** [random.choices(population, weights=weights)[0]], Python's weighted draw:
    it raises on an empty population, on a length mismatch and when the total
    weight is not positive; otherwise it draws a point below the total weight
    and returns the element whose cumulative weight first exceeds it. *)
Definition random_choices {A} (population : list A) (weights : list Z) : M A :=
  if negb (length weights =? length population)%nat then raise ValueError
  else
    match population with
    | [] => raise IndexError
    | _ =>
        let total := sum_list_Z weights in
        if total <=? 0 then raise ValueError
        else
          r ← next_random;
          match pick_by_weight population weights (Z.of_nat r mod total) with
          | Some x => ret x
          | None => raise IndexError
          end
    end.

Fixpoint filterM {A} (p : A -> M bool) (l : list A) : M (list A) :=
  match l with
  | [] => ret []
  | x :: rest =>
      keep ← p x;
      kept ← filterM p rest;
      ret (if keep then x :: kept else kept)
  end.

(** [all(p(x) for x in l)]: stops at the first falsy answer. *)
Fixpoint allM {A} (p : A -> M bool) (l : list A) : M bool :=
  match l with
  | [] => ret true
  | x :: rest =>
      ok ← p x;
      if ok then allM p rest else ret false
  end.

(** ** The Lichess client, as [Matchmaking] calls it *)

Definition li_cancel (id : string) : M unit := record_call (call_li_cancel id).

Definition li_challenge (username : string) (params : ChallengeParams) : M ChallengeType :=
  record_call (call_li_challenge username params);;
  m ← get_self;
  match li_challenge_answer (li m) username params with
  | answer_response response => ret response
  | answer_rate_limited timeout => raise (RateLimitedError timeout)
  | answer_error => raise OtherException
  end.

Definition li_get_online_bots : M (list UserProfileType) :=
  record_call call_li_get_online_bots;;
  m ← get_self;
  ret (li_online_bots (li m)).

(** The truth value of [bot_profile.get("blocking")]. *)
Definition li_get_public_data (username : string) : M bool :=
  record_call (call_li_get_public_data username);;
  m ← get_self;
  match li_public_data_blocking (li m) username with
  | Some blocking => ret blocking
  | None => raise OtherException
  end.

Definition li_get_profile : M UserProfileType :=
  record_call call_li_get_profile;;
  m ← get_self;
  match li_profile (li m) with
  | Some profile => ret profile
  | None => raise OtherException
  end.

(** [self.online_block_list.refresh()]: its effect is in [online_block_listed]. *)
Definition online_block_list_refresh : M unit := ret tt.

(** ** [Matchmaking] *)

(** [bool(s)] for a string *)
Definition truthy_str (s : string) : bool := negb (String.eqb s "").

(** [perf()] and [username()] *)
Definition perf (m : Matchmaking) : gmap string PerfType := p_perfs (user_profile m).
Definition username (m : Matchmaking) : string := p_username (user_profile m).

(** Only writes to the logger. *)
Definition show_earliest_challenge_time : M unit := ret tt.

Definition discard_challenge (id : string) : M unit :=
  m ← get_self;
  if String.eqb (challenge_id m) id then modify_self (set_challenge_id "") else ret tt.

(** [if self.slots: self.slots.<method>(...)] *)
Definition with_slots (f : MatchmakingSlots -> MatchmakingSlots) : M unit :=
  modify_self (fun m => match slots m with
                        | Some s => set_slots (Some (f s)) m
                        | None => m
                        end).

Definition add_challenge_filter (username game_aspect : string) (timeout : option Z) : M unit :=
  t ← perf_counter;
  let timeout_or_day :=
    match timeout with
    | Some d => if d =? 0 then days 1 else d
    | None => days 1
    end in
  modify_self (fun m =>
    set_challenge_type_acceptable
      (<[(username, game_aspect) := new_timer timeout_or_day t]> (challenge_type_acceptable m)) m).

Definition add_to_block_list (username : string) : M unit :=
  add_challenge_filter username "" (Some (years 10)).

(** Reading the [defaultdict(Timer)] at a missing key stores a fresh [Timer()]. *)
Definition should_accept_challenge (username game_aspect : string) : M bool :=
  m ← get_self;
  t ← perf_counter;
  match challenge_type_acceptable m !! (username, game_aspect) with
  | Some timer => ret (is_expired timer t)
  | None =>
      let timer := new_timer (seconds 0) t in
      modify_self (set_challenge_type_acceptable
                     (<[(username, game_aspect) := timer]> (challenge_type_acceptable m)));;
      ret (is_expired timer t)
  end.

Definition in_block_list (username : string) : M bool :=
  acceptable ← should_accept_challenge username "";
  if negb acceptable then ret true
  else m ← get_self; ret (online_block_listed (li m) username).

Definition should_create_challenge (ignore_postgame_timeout ignore_min_wait : bool) : M bool :=
  record_call (call_should_create_challenge ignore_postgame_timeout ignore_min_wait);;
  m ← get_self;
  t ← perf_counter;
  let matchmaking_enabled := allow_matchmaking (matchmaking_cfg m) in
  let postgame_ok := ignore_postgame_timeout || is_expired (last_game_ended_delay m) t in
  let time_has_passed := postgame_ok && is_expired (rate_limit_timer m) t in
  let challenge_expired :=
    is_expired (last_challenge_created_delay m) t && truthy_str (challenge_id m) in
  let min_wait_time_passed :=
    ignore_min_wait
    || (min_wait_time m <? time_since_reset (last_challenge_created_delay m) t) in
  (if challenge_expired then
     let id := challenge_id m in
     li_cancel id;;
     discard_challenge id;;
     with_slots (fun s => release s id);;
     show_earliest_challenge_time
   else ret tt);;
  ret (matchmaking_enabled && (time_has_passed || challenge_expired) && min_wait_time_passed).

Definition handle_challenge_error_response (response : ChallengeType) (username : string)
    : M unit :=
  (if resp_bot_is_rate_limited response then
     t ← perf_counter;
     modify_self (set_rate_limit_timer
                    (new_timer (default (seconds 0) (resp_rate_limit_timeout response)) t))
   else if resp_opponent_is_rate_limited response then
     add_challenge_filter username "" (resp_rate_limit_timeout response)
   else add_challenge_filter username "" None);;
  show_earliest_challenge_time.

Definition create_challenge (username : string) (base_time increment num_days : Z)
    (variant mode : string) : M string :=
  record_call (call_create_challenge username base_time increment num_days variant mode);;
  let rated := String.eqb mode "rated" in
  let params :=
    if negb (num_days =? 0) then Some (mkParams rated variant (Some num_days) None None)
    else if negb (base_time =? 0) || negb (increment =? 0)
         then Some (mkParams rated variant None (Some base_time) (Some increment))
    else None in
  match params with
  | None => ret ""
  | Some params =>
      try_except
        (t ← perf_counter;
         modify_self (fun m => set_last_challenge_created_delay
                                 (timer_reset (last_challenge_created_delay m) t) m);;
         response ← li_challenge username params;
         let id := resp_id response in
         (if negb (truthy_str id) then handle_challenge_error_response response username
          else ret tt);;
         ret id)
        (fun e =>
           (match e with
            | RateLimitedError timeout =>
                t ← perf_counter;
                modify_self (set_rate_limit_timer (new_timer timeout t))
            | _ => ret tt
            end);;
           show_earliest_challenge_time;;
           ret "")
  end.

Definition update_user_profile : M unit :=
  m ← get_self;
  t ← perf_counter;
  if is_expired (last_user_profile_update_time m) t then
    modify_self (set_last_user_profile_update_time
                   (timer_reset (last_user_profile_update_time m) t));;
    try_except (profile ← li_get_profile; modify_self (set_user_profile profile))
               (fun _ => ret tt)
  else ret tt.

Definition get_random_config_value (value : string) (choices : list string) : M string :=
  if negb (String.eqb value "random") then ret value else random_choice choices.

Definition is_suitable_opponent (game_type : string) (min_rating max_rating : Z)
    (bot : UserProfileType) : M bool :=
  m ← get_self;
  if String.eqb (p_username bot) (username m) then ret false
  else
    blocked ← in_block_list (p_username bot);
    if blocked then ret false
    else ret ((0 <? games_played game_type bot)
              && rating_in_window game_type min_rating max_rating bot).

Definition ready_for_challenge (variant game_type mode : string) (bot : UserProfileType)
    : M bool :=
  m ← get_self;
  let aspects :=
    match challenge_filter m with
    | FilterFINE => [variant; game_type; mode]
    | _ => []
    end in
  allM (fun aspect => should_accept_challenge (p_username bot) aspect) aspects.

Definition choose_opponent (allowed_bot_lanes : option (gset string))
    (correspondence_only : bool) : M (option string * Z * Z * Z * string * string) :=
  record_call (call_choose_opponent allowed_bot_lanes correspondence_only);;
  m ← get_self;
  override_choice ← random_choice ((Some <$> cfg_overrides (matchmaking_cfg m)) ++ [None]);
  let match_config :=
    match override_choice with
    | Some (_, merged) => merged
    | None => cfg_defaults (matchmaking_cfg m)
    end in
  variant ← get_random_config_value (challenge_variant match_config) (variants m);
  mode ← get_random_config_value (challenge_mode match_config) ["casual"; "rated"];
  let preference := rating_preference match_config in
  let candidate_time_controls :=
    configured_time_controls match_config allowed_bot_lanes correspondence_only in
  let candidate_time_controls :=
    if correspondence_only
    then List.filter (fun control => 0 <? control.2) candidate_time_controls
    else List.filter (fun control => control.2 =? 0) candidate_time_controls in
  match candidate_time_controls with
  | [] => ret (None, 0, 0, 0, variant, mode)
  | _ =>
      '(base_time, increment, num_days) ← random_choice candidate_time_controls;
      let game_type := game_category variant base_time increment num_days in
      let bot_rating := default 0 (perf_rating (default (mkPerf None None) (perf m !! game_type))) in
      let '(min_rating, max_rating) :=
        match opponent_rating_difference match_config with
        | Some rating_diff =>
            if 0 <? bot_rating
            then (bot_rating - rating_diff, bot_rating + rating_diff)
            else (opponent_min_rating match_config, opponent_max_rating match_config)
        | None => (opponent_min_rating match_config, opponent_max_rating match_config)
        end in
      online_block_list_refresh;;
      online_bots ← li_get_online_bots;
      online_bots ← filterM (is_suitable_opponent game_type min_rating max_rating) online_bots;
      ready_bots ← filterM (ready_for_challenge variant game_type mode) online_bots;
      let online_bots := match ready_bots with [] => online_bots | _ => ready_bots end in
      let weights := get_weights online_bots preference min_rating max_rating game_type in
      bot_username ←
        try_except
          (bot ← random_choices online_bots weights;
           blocking ← li_get_public_data (p_username bot);
           if blocking then add_to_block_list (p_username bot);; ret None
           else ret (Some (p_username bot)))
          (fun _ => ret None);
      ret (bot_username, base_time, increment, num_days, variant, mode)
  end.

Definition create_matchmaking_challenge (active_games : gset string)
    (allowed_bot_lanes : option (gset string)) (correspondence_only : bool) : M bool :=
  update_user_profile;;
  '(bot_username, base_time, increment, num_days, variant, mode) ←
    choose_opponent allowed_bot_lanes correspondence_only;
  match bot_username with
  | None => ret false
  | Some bot_username =>
      if negb (truthy_str bot_username) then ret false
      else
        let challenge_speed := game_category "standard" base_time increment num_days in
        m ← get_self;
        let refused :=
          match slots m with
          | Some s => negb (can_accept_bot_speed s challenge_speed active_games)
          | None => false
          end in
        if refused then ret false
        else
          id ← create_challenge bot_username base_time increment num_days variant mode;
          modify_self (set_challenge_id id);;
          (if truthy_str id
           then with_slots (fun s => reserve_outgoing_challenge s id challenge_speed)
           else ret tt);;
          ret (truthy_str id)
  end.

Definition _challenge_for_background_correspondence (active_games : gset string) : M bool :=
  m ← get_self;
  match slots m with
  | None => ret false
  | Some s =>
      if negb (enabled s) then ret false
      else
        let current_correspondence := correspondence_reservation_count s in
        if target_reached current_correspondence (max_background_correspondence_games m)
        then ret false
        else
          let ignore_min_wait := force_immediate_challenge m in
          modify_self (set_force_immediate_challenge false);;
          ok ← should_create_challenge true ignore_min_wait;
          if negb ok then ret false
          else create_matchmaking_challenge active_games None true
  end.

Definition challenge (active_games : gset string) (challenge_queue : list Challenge)
    (max_games : Z) : M unit :=
  match challenge_queue with
  | _ :: _ => ret tt
  | [] =>
      created ← _challenge_for_background_correspondence active_games;
      if created then ret tt
      else
        m ← get_self;
        t ← perf_counter;
        let max_games_for_matchmaking :=
          if allow_during_games (matchmaking_cfg m) then max_games else Z.min 1 max_games in
        let game_count := len_set active_games in
        if game_count >=? max_games_for_matchmaking then ret tt
        else
          let allowed_bot_lanes :=
            match slots m with
            | Some s => available_bot_lanes s active_games
            | None => {[ "short"; "long" ]}
            end in
          if negb (truthy_set allowed_bot_lanes) then ret tt
          else
            let cooldown_while_games_active :=
              match slots m with
              | Some s => if enabled s then min_wait_time m else max_wait_time m
              | None => max_wait_time m
              end in
            if (0 <? game_count)
               && (time_since_reset (last_challenge_created_delay m) t
                   <? cooldown_while_games_active)
            then ret tt
            else
              ok ← should_create_challenge false false;
              if negb ok then ret tt
              else
                create_matchmaking_challenge active_games (Some allowed_bot_lanes) false;;
                ret tt
  end.

Definition game_done : M unit :=
  t ← perf_counter;
  modify_self (fun m => set_last_game_ended_delay (timer_reset (last_game_ended_delay m) t) m);;
  show_earliest_challenge_time.

Definition correspondence_game_done : M unit :=
  modify_self (set_force_immediate_challenge true).

(** [game_id] is [event["game"]["id"]]. *)
Definition accepted_challenge (game_id : string) : M unit :=
  discard_challenge game_id;;
  with_slots (fun s => confirm_game_start s game_id).

(** ** Reachable tracker states

    The public operations that change a tracker, and the states they lead to
    from a freshly built tracker. *)

Inductive SlotOp :=
| op_reserve_game (game_id : string) (is_bot_game : bool) (speed : string)
| op_reserve_outgoing_challenge (challenge_id speed : string)
| op_confirm_game_start (game_id : string)
| op_release (game_or_challenge_id : string).

Definition apply_op (s : MatchmakingSlots) (op : SlotOp) : MatchmakingSlots :=
  match op with
  | op_reserve_game game_id is_bot_game speed => reserve_game s game_id is_bot_game speed
  | op_reserve_outgoing_challenge id speed => reserve_outgoing_challenge s id speed
  | op_confirm_game_start game_id => confirm_game_start s game_id
  | op_release id => release s id
  end.

Definition run_ops (s : MatchmakingSlots) (ops : list SlotOp) : MatchmakingSlots :=
  foldl apply_op s ops.

(** Every pending identifier has a reservation. *)
Definition pending_reserved (s : MatchmakingSlots) : Prop :=
  forall id : string,
    id ∈ pending_outgoing_challenges s ∨ id ∈ pending_outgoing_correspondence s ->
    is_Some (slot_by_game_id s !! id).

(** ** The conditions of [should_create_challenge]

    What the method reads on entry, by the names the specification uses. *)

Definition matchmaking_enabled (w : World) : bool :=
  allow_matchmaking (matchmaking_cfg (self w)).

Definition postgame_cooldown_over (w : World) : bool :=
  is_expired (last_game_ended_delay (self w)) (now w).

Definition rate_limit_over (w : World) : bool :=
  is_expired (rate_limit_timer (self w)) (now w).

Definition min_wait_elapsed (w : World) : bool :=
  min_wait_time (self w) <? time_since_reset (last_challenge_created_delay (self w)) (now w).

Definition outstanding_challenge_expired (w : World) : bool :=
  is_expired (last_challenge_created_delay (self w)) (now w)
  && truthy_str (challenge_id (self w)).

(** The answer of [should_create_challenge], grouped as its [return] does. *)
Definition eligible (ignore_postgame_timeout ignore_min_wait : bool) (w : World) : bool :=
  matchmaking_enabled w
  && (((ignore_postgame_timeout || postgame_cooldown_over w) && rate_limit_over w)
      || outstanding_challenge_expired w)
  && (ignore_min_wait || min_wait_elapsed w).

(** The same conditions, grouped as the specification's sentence groups them. *)
Definition eligible_as_specified (ignore_postgame_timeout ignore_min_wait : bool) (w : World)
    : bool :=
  matchmaking_enabled w
  && ((ignore_postgame_timeout || postgame_cooldown_over w) && rate_limit_over w)
  && ((ignore_min_wait || min_wait_elapsed w) || outstanding_challenge_expired w).

(** ** Observing a tick through the call log *)

Definition is_selection (c : Call) : bool :=
  match c with call_choose_opponent _ _ => true | _ => false end.

Definition is_correspondence_selection (c : Call) : bool :=
  match c with call_choose_opponent _ true => true | _ => false end.

Definition is_eligibility_check (c : Call) : bool :=
  match c with call_should_create_challenge _ _ => true | _ => false end.

(** A call of the eligibility check that ignores the minimum wait. *)
Definition ignores_min_wait (c : Call) : bool :=
  match c with call_should_create_challenge _ true => true | _ => false end.

(** The correspondence reservations of the attached tracker meet the target. *)
Definition background_target_met (m : Matchmaking) : Prop :=
  forall s : MatchmakingSlots,
    slots m = Some s ->
    target_reached (correspondence_reservation_count s)
                   (max_background_correspondence_games m) = true.

(** Background replenishment is due: an enabled tracker below the target. *)
Definition background_due (m : Matchmaking) : Prop :=
  exists s : MatchmakingSlots,
    slots m = Some s ∧ enabled s = true
    ∧ target_reached (correspondence_reservation_count s)
                     (max_background_correspondence_games m) = false.

(** A later tick: the same object and log, a new clock reading and random supply. *)
Definition next_tick (t : Z) (r : list nat) (w : World) : World :=
  {| self := self w; now := t; rng := r; calls := calls w |}.

(** [w'] continues [w]: the log grew by calls satisfying [P] and the
    force-immediate flag kept its value. *)
Definition continues (P : Call -> Prop) (w w' : World) : Prop :=
  (exists new : list Call, calls w' = (calls w ++ new)%list ∧ Forall P new)
  ∧ force_immediate_challenge (self w') = force_immediate_challenge (self w).

Definition respects (P : Call -> Prop) {A} (c : M A) : Prop :=
  forall w : World, continues P w (world_of (c w)).

(** ** Scenarios

    The scheduler of the test suite: capacity 3, a configured 1+0 and 10+0
    clock and one-day correspondence, one suitable bot online. *)

Definition scenario_config : MatchConfig :=
  mkMatchConfig [Some 60; Some 600] [Some 0] [Some 1] "standard" "rated" "none" 600 4000 None.

Definition scenario_lichess : Lichess :=
  mkLichess [mkProfile "other_bot" {[ "bullet" := mkPerf (Some 1500) (Some 10) ]}]
            (fun _ => Some false) None
            (fun _ _ => answer_response (mkResponse "new_short_lane" false false None))
            (fun _ => false).

(** A scheduler whose timers started at instant 0, with no outstanding challenge. *)
Definition scenario_matchmaking (tracker : option MatchmakingSlots) : Matchmaking :=
  mkMatchmaking scenario_lichess ["standard"] (mkCfg true true scenario_config [])
    (mkProfile "test_bot" ∅)
    (mkTimer (seconds 25) 0) (mkTimer (minutes 1) 0) (mkTimer (minutes 5) 0)
    (seconds 60) (mkTimer (seconds 0) 0) (minutes 10) "" false (target_int 1) ∅ FilterFINE
    tracker.

(** One active long-lane bot game and one correspondence game, two minutes
    after the last challenge and the last game: every cooldown is over, and
    the correspondence count 1 meets the target 1. *)
Definition scenario_open_short_lane : World :=
  mkWorld
    (scenario_matchmaking
       (Some (reserve_game (reserve_game (new_slots 3) "long_game" true "rapid")
                "corr_game" true "correspondence")))
    (seconds 120) [] [].

(** The tick after a correspondence game ended in that world. *)
Definition scenario_after_correspondence_game : World :=
  next_tick (seconds 120) [] (world_of (correspondence_game_done scenario_open_short_lane)).

(** A tracker with one outgoing real-time challenge ["g"] pending. *)
Definition scenario_pending_challenge : MatchmakingSlots :=
  reserve_outgoing_challenge (new_slots 3) "g" "blitz".

(** A challenge ["abc"] is outstanding since instant 0 and a game has just
    ended (post-game cooldown of 30 minutes). *)
Definition scenario_outstanding (cooldown : Z) (t : Z) : World :=
  mkWorld
    (set_last_game_ended_delay (mkTimer cooldown 0)
       (set_challenge_id "abc" (scenario_matchmaking None)))
    t [] [].

(** The same scheduler two minutes in, when the only bot online has blocked
    the bot: its public data say [blocking]. *)
Definition scenario_blocking_bot : World :=
  mkWorld
    (mkMatchmaking
       (mkLichess (li_online_bots scenario_lichess) (fun _ => Some true) None
          (li_challenge_answer scenario_lichess) (fun _ => false))
       ["standard"] (mkCfg true true scenario_config [])
       (mkProfile "test_bot" ∅)
       (mkTimer (seconds 25) 0) (mkTimer (minutes 1) 0) (mkTimer (minutes 5) 0)
       (seconds 60) (mkTimer (seconds 0) 0) (minutes 10) "" false (target_int 1) ∅ FilterFINE
       None)
    (seconds 120) [] [].

(** The same scheduler two minutes in, when Lichess answers every challenge
    with a [RateLimitedError] of one minute. *)
Definition scenario_rate_limited : World :=
  mkWorld
    (mkMatchmaking
       (mkLichess (li_online_bots scenario_lichess) (fun _ => Some false) None
          (fun _ _ => answer_rate_limited (seconds 60)) (fun _ => false))
       ["standard"] (mkCfg true true scenario_config [])
       (mkProfile "test_bot" ∅)
       (mkTimer (seconds 25) 0) (mkTimer (minutes 1) 0) (mkTimer (minutes 5) 0)
       (seconds 60) (mkTimer (seconds 0) 0) (minutes 10) "" false (target_int 1) ∅ FilterFINE
       None)
    (seconds 120) [] [].

(** ** [declined_challenge] *)

(** What [declined_challenge] reads of its event: the attributes of the
    [model.Challenge] built from [event["challenge"]] ([id], [from_self],
    [challenge_target.name], [rated], [speed], [variant]) and the lower-cased
    [event["challenge"]["declineReasonKey"]]. *)
Record DeclinedChallenge := mkDeclined {
  declined_id : string;
  declined_from_self : bool;
  declined_target : string;
  declined_rated : bool;
  declined_speed : string;
  declined_variant : string;
  declined_reason_key : string;
}.

Definition decline_details (mode speed variant : string) : list (string * string) :=
  [ ("generic", ""); ("later", ""); ("nobot", "");
    ("toofast", speed); ("tooslow", speed); ("timecontrol", speed);
    ("rated", mode); ("casual", mode);
    ("standard", variant); ("variant", variant) ].

(** [d.get(key, default)] on a dict given by its items *)
Fixpoint dict_get (d : list (string * string)) (key default_value : string) : string :=
  match d with
  | [] => default_value
  | (k, v) :: rest => if String.eqb k key then v else dict_get rest key default_value
  end.

Definition declined_challenge (event : DeclinedChallenge) : M unit :=
  discard_challenge (declined_id event);;
  (if declined_from_self event
   then with_slots (fun s => release s (declined_id event))
   else ret tt);;
  m ← get_self;
  if negb (declined_from_self event)
     || match challenge_filter m with FilterNONE => true | _ => false end
  then ret tt
  else
    let mode := if declined_rated event then "rated" else "casual" in
    let details := decline_details mode (declined_speed event) (declined_variant event) in
    let game_problem :=
      match challenge_filter m with
      | FilterFINE => dict_get details (declined_reason_key event) ""
      | _ => ""
      end in
    add_challenge_filter (declined_target event) game_problem None;;
    show_earliest_challenge_time.

(** ** Frames: what a run leaves alone *)

Definition is_challenge_sent (c : Call) : bool :=
  match c with call_li_challenge _ _ => true | _ => false end.

Definition is_create_challenge (c : Call) : bool :=
  match c with call_create_challenge _ _ _ _ _ _ => true | _ => false end.

(** From [w] to [w'] only the acceptance memory and the random supply moved,
    and the log grew by calls that neither create nor send a challenge. *)
Definition selection_frame (w w' : World) : Prop :=
  self w' = set_challenge_type_acceptable (challenge_type_acceptable (self w')) (self w)
  ∧ now w' = now w
  ∧ exists new : list Call,
      calls w' = (calls w ++ new)%list
      ∧ Forall (fun c => is_challenge_sent c = false ∧ is_create_challenge c = false) new.

(** From [w] to [w'] only the acceptance memory and the random supply moved. *)
Definition memory_frame (w w' : World) : Prop :=
  self w' = set_challenge_type_acceptable (challenge_type_acceptable (self w')) (self w)
  ∧ now w' = now w
  ∧ calls w' = calls w.

(** The rating window that [choose_opponent] derives from a configuration and
    the bot's own rating in the chosen category. *)
Definition rating_window (m : Matchmaking) (match_config : MatchConfig) (game_type : string)
    : Z * Z :=
  let bot_rating := default 0 (perf_rating (default (mkPerf None None) (perf m !! game_type))) in
  match opponent_rating_difference match_config with
  | Some rating_diff =>
      if 0 <? bot_rating
      then (bot_rating - rating_diff, bot_rating + rating_diff)
      else (opponent_min_rating match_config, opponent_max_rating match_config)
  | None => (opponent_min_rating match_config, opponent_max_rating match_config)
  end.

(** A memory frame in which every stored timer is still stored: reading the
    acceptance memory only adds entries for pairs that had none. *)
Definition memory_grows (w w' : World) : Prop :=
  memory_frame w w'
  ∧ forall (key : string * string) (timer : Timer),
      challenge_type_acceptable (self w) !! key = Some timer ->
      challenge_type_acceptable (self w') !! key = Some timer.


(** ** What the filters of [choose_opponent] compute *)

(** The answer of [should_accept_challenge] for a pair in a given memory. *)
Definition acceptable (m : Matchmaking) (t : Z) (key : string * string) : bool :=
  match challenge_type_acceptable m !! key with
  | Some timer => is_expired timer t
  | None => true
  end.

(** A memory frame that changes no answer of [should_accept_challenge]. *)
Definition memory_settled (w w' : World) : Prop :=
  memory_frame w w'
  ∧ forall key : string * string,
      acceptable (self w') (now w') key = acceptable (self w) (now w) key.

(** The answer of the filter [is_suitable_opponent] in the world [w]. *)
Definition suitable_at (w : World) (game_type : string) (min_rating max_rating : Z)
    (bot : UserProfileType) : bool :=
  negb (String.eqb (p_username bot) (username (self w)))
  && negb (negb (acceptable (self w) (now w) (p_username bot, ""))
           || online_block_listed (li (self w)) (p_username bot))
  && (0 <? games_played game_type bot)
  && rating_in_window game_type min_rating max_rating bot.

(** The answer of the filter [ready_for_challenge] in the world [w]. *)
Definition ready_at (w : World) (variant game_type mode : string) (bot : UserProfileType)
    : bool :=
  forallb (fun aspect => acceptable (self w) (now w) (p_username bot, aspect))
    match challenge_filter (self w) with
    | FilterFINE => [variant; game_type; mode]
    | _ => []
    end.

(** ** The lanes of the attached tracker *)



(** * Properties *)

Example game_category_960 : game_category "chess960" 0 0 14 = "chess960".
Proof. reflexivity. Qed.

Example lanes_full :
  available_bot_lanes
    (reserve_outgoing_challenge (reserve_outgoing_challenge (new_slots 3) "a" "blitz") "b" "rapid")
    ∅ = ∅.
Proof. vm_compute. reflexivity. Qed.

Example configured_time_controls_all :
  configured_time_controls
    (mkMatchConfig [Some 180; Some 300] [Some 2; Some 0] [Some 1] "standard" "rated" "none" 600 4000 None)
    None true
  = [(180, 2, 0); (180, 0, 0); (300, 2, 0); (300, 0, 0); (0, 0, 1)].
Proof. vm_compute. reflexivity. Qed.

Example configured_time_controls_short :
  configured_time_controls
    (mkMatchConfig [Some 60; Some 600] [Some 0] [Some 1] "standard" "rated" "none" 600 4000 None)
    (Some {[ "short" ]}) true
  = [(60, 0, 0)].
Proof. vm_compute. reflexivity. Qed.

(** ** [game_category] *)

Lemma game_category_standard_realtime (base_time increment : Z) :
  game_category "standard" base_time increment 0 =
    let duration := base_time + 40 * increment in
    if duration <? 179 then "bullet"
    else if duration <? 479 then "blitz"
    else if duration <? 1499 then "rapid"
    else "classical".
Proof.
  unfold game_category. cbn [negb String.eqb]. simpl.
  replace (base_time + increment * 40) with (base_time + 40 * increment) by lia.
  reflexivity.
Qed.

Lemma game_category_variant (variant : string) (base_time increment num_days : Z) :
  variant ≠ "standard" -> game_category variant base_time increment num_days = variant.
Proof.
  intros Hv. unfold game_category.
  destruct (String.eqb_spec variant "standard") as [->|_]; [congruence | reflexivity].
Qed.

(** C4: for the standard variant with no days the category is decided by
    [base_time + 40 * increment] with lower-exclusive boundaries: 178, 478 and
    1498 are bullet, blitz and rapid, while 179, 479 and 1499 are blitz, rapid
    and classical; a standard game with [days > 0] is correspondence whatever
    the clock; any other variant is returned verbatim whatever the clock and
    the days. *)
Theorem game_category_boundaries :
  (forall base_time increment : Z,
      let duration := base_time + 40 * increment in
      (duration = 178 -> game_category "standard" base_time increment 0 = "bullet")
      ∧ (duration = 179 -> game_category "standard" base_time increment 0 = "blitz")
      ∧ (duration = 478 -> game_category "standard" base_time increment 0 = "blitz")
      ∧ (duration = 479 -> game_category "standard" base_time increment 0 = "rapid")
      ∧ (duration = 1498 -> game_category "standard" base_time increment 0 = "rapid")
      ∧ (duration = 1499 -> game_category "standard" base_time increment 0 = "classical"))
  ∧ (forall base_time increment num_days : Z,
        0 < num_days ->
        game_category "standard" base_time increment num_days = "correspondence")
  ∧ (forall (variant : string) (base_time increment num_days : Z),
        variant ≠ "standard" ->
        game_category variant base_time increment num_days = variant)
  ∧ game_category "chess960" 0 0 14 = "chess960".
Proof.
  split; [|split; [|split]].
  - intros base_time increment duration.
    repeat split; intros Hd; rewrite game_category_standard_realtime;
      fold duration; rewrite Hd; reflexivity.
  - intros base_time increment num_days Hdays. unfold game_category.
    cbn [negb String.eqb]. simpl.
    destruct (Z.eqb_spec num_days 0) as [->|_]; [lia | reflexivity].
  - apply game_category_variant.
  - reflexivity.
Qed.

Lemma game_category_boundaries_witness :
  game_category "standard" 178 0 0 = "bullet"
  ∧ game_category "standard" 19 4 0 = "blitz"
  ∧ game_category "standard" 478 0 0 = "blitz"
  ∧ game_category "standard" 479 0 0 = "rapid"
  ∧ game_category "standard" 1498 0 0 = "rapid"
  ∧ game_category "standard" 1499 0 0 = "classical"
  ∧ game_category "standard" 1800 20 1 = "correspondence"
  ∧ game_category "atomic" 1800 20 0 = "atomic".
Proof.
  destruct game_category_boundaries as (Hb & Hc & Hv & _).
  refine (conj _ (conj _ (conj _ (conj _ (conj _ (conj _ (conj _ _))))))).
  - exact (proj1 (Hb 178 0) eq_refl).
  - exact (proj1 (proj2 (Hb 19 4)) eq_refl).
  - exact (proj1 (proj2 (proj2 (Hb 478 0))) eq_refl).
  - exact (proj1 (proj2 (proj2 (proj2 (Hb 479 0)))) eq_refl).
  - exact (proj1 (proj2 (proj2 (proj2 (proj2 (Hb 1498 0))))) eq_refl).
  - exact (proj2 (proj2 (proj2 (proj2 (proj2 (Hb 1499 0))))) eq_refl).
  - apply (Hc 1800 20 1). lia.
  - apply (Hv "atomic" 1800 20 0). discriminate.
Defined.

(** ** [MatchmakingSlots]: counting *)

Lemma count_where_perm {A} (p : A -> bool) (l k : list A) :
  l ≡ₚ k -> count_where p l = count_where p k.
Proof.
  intros Hperm. unfold count_where. f_equal.
  induction Hperm as [|x l k _ IH|x y l|l k m _ IH1 _ IH2]; simpl.
  - reflexivity.
  - destruct (p x); simpl; congruence.
  - destruct (p x), (p y); reflexivity.
  - congruence.
Qed.

Lemma count_pending_not_active (pending active : gset string) :
  count_where (fun challenge_id => negb (in_set challenge_id active)) (elements pending)
  = Z.of_nat (size (pending ∖ active)).
Proof.
  unfold count_where. f_equal. unfold size, set_size. simpl.
  apply Permutation_length, NoDup_Permutation.
  - apply NoDup_ListNoDup, List.NoDup_filter, NoDup_ListNoDup, NoDup_elements.
  - apply NoDup_elements.
  - intros x. rewrite elem_of_elements, elem_of_difference.
    rewrite list_elem_of_In, List.filter_In, <- list_elem_of_In, elem_of_elements.
    unfold in_set. rewrite negb_true_iff, bool_decide_eq_false. reflexivity.
Qed.

(** C6: with accounting enabled [used_slots] is the number of active games
    plus the number of pending real-time challenges that are not active, so an
    identifier that is both pending and active is counted once (the total is
    the size of the union); the pending correspondence set plays no part; with
    accounting disabled it is the number of active games. *)
Theorem used_slots_counts_each_id_once (s : MatchmakingSlots) (active_games : gset string) :
  (enabled s = true ->
     used_slots s active_games
       = Z.of_nat (size active_games)
         + Z.of_nat (size (pending_outgoing_challenges s ∖ active_games))
     ∧ used_slots s active_games
       = Z.of_nat (size (active_games ∪ pending_outgoing_challenges s)))
  ∧ (enabled s = false -> used_slots s active_games = Z.of_nat (size active_games))
  ∧ (forall correspondence : gset string,
       used_slots (mkSlots (max_games s) (enabled s) (slot_by_game_id s)
                           (pending_outgoing_challenges s) correspondence) active_games
       = used_slots s active_games).
Proof.
  split; [|split].
  - intros Hen. unfold used_slots. rewrite Hen. cbn [negb].
    rewrite count_pending_not_active. unfold len_set. split; [reflexivity|].
    rewrite (size_union_alt (C:=gset string) active_games). lia.
  - intros Hen. unfold used_slots. rewrite Hen. reflexivity.
  - intros correspondence. reflexivity.
Qed.

Lemma used_slots_counts_each_id_once_witness :
  used_slots (reserve_outgoing_challenge (new_slots 3) "a" "blitz") {[ "a"; "g" ]} = 2
  ∧ used_slots (reserve_outgoing_challenge (new_slots 3) "a" "blitz") {[ "g" ]} = 2
  ∧ used_slots (reserve_outgoing_challenge (new_slots 4) "a" "blitz") {[ "g" ]} = 1.
Proof.
  refine (conj _ (conj _ _)).
  - rewrite (proj2 (proj1 (used_slots_counts_each_id_once
              (reserve_outgoing_challenge (new_slots 3) "a" "blitz") {[ "a"; "g" ]}) eq_refl)).
    vm_compute. reflexivity.
  - rewrite (proj1 (proj1 (used_slots_counts_each_id_once
              (reserve_outgoing_challenge (new_slots 3) "a" "blitz") {[ "g" ]}) eq_refl)).
    vm_compute. reflexivity.
  - rewrite (proj1 (proj2 (used_slots_counts_each_id_once
              (reserve_outgoing_challenge (new_slots 4) "a" "blitz") {[ "g" ]})) eq_refl).
    vm_compute. reflexivity.
Defined.

(** ** [MatchmakingSlots]: the pending sets stay inside the reservations *)

Lemma elem_of_discard (X : gset string) (id removed : string) :
  id ∈ X ∖ {[removed]} -> id ∈ X ∧ id ≠ removed.
Proof. rewrite elem_of_difference, elem_of_singleton. tauto. Qed.

Lemma elem_of_add (X : gset string) (id added : string) :
  id ∈ {[added]} ∪ X -> id = added ∨ id ∈ X.
Proof. rewrite elem_of_union, elem_of_singleton. tauto. Qed.

Lemma pending_reserved_new (capacity : Z) : pending_reserved (new_slots capacity).
Proof. intros id [H|H]; simpl in H; apply not_elem_of_empty in H; contradiction. Qed.

Lemma pending_reserved_apply (s : MatchmakingSlots) (op : SlotOp) :
  pending_reserved s -> pending_reserved (apply_op s op).
Proof.
  intros Hinv. destruct op as [g b sp|c sp|g|g]; simpl.
  - unfold reserve_game. destruct (enabled s); [|exact Hinv]. simpl.
    intros id Hid. simpl in *. rewrite lookup_insert_is_Some.
    destruct (decide (g = id)) as [->|Hne]; [left; reflexivity|right].
    split; [exact Hne|]. apply Hinv.
    destruct Hid as [Hid|Hid]; apply elem_of_discard in Hid; tauto.
  - unfold reserve_outgoing_challenge. destruct (enabled s); [|exact Hinv]. simpl.
    destruct (is_correspondence_speed sp); intros id Hid; simpl in *;
      rewrite lookup_insert_is_Some;
      (destruct (decide (c = id)) as [->|Hne]; [left; reflexivity|right]);
      (split; [exact Hne|]); apply Hinv.
    + destruct Hid as [Hid|Hid]; [tauto|]. apply elem_of_add in Hid.
      destruct Hid as [->|Hid]; [contradiction | tauto].
    + destruct Hid as [Hid|Hid]; [|tauto]. apply elem_of_add in Hid.
      destruct Hid as [->|Hid]; [contradiction | tauto].
  - unfold confirm_game_start. destruct (enabled s); [|exact Hinv]. simpl.
    intros id Hid. simpl in *. apply Hinv.
    destruct Hid as [Hid|Hid]; apply elem_of_discard in Hid; tauto.
  - unfold release. destruct (enabled s); [|exact Hinv]. simpl.
    intros id Hid. simpl in *.
    assert (id ∈ pending_outgoing_challenges s ∨ id ∈ pending_outgoing_correspondence s)
      as Hin by (destruct Hid as [Hid|Hid]; apply elem_of_discard in Hid; tauto).
    assert (id ≠ g) as Hne by (destruct Hid as [Hid|Hid]; apply elem_of_discard in Hid; tauto).
    rewrite lookup_delete_ne by congruence. apply Hinv, Hin.
Qed.

Lemma pending_reserved_run (s : MatchmakingSlots) (ops : list SlotOp) :
  pending_reserved s -> pending_reserved (run_ops s ops).
Proof.
  revert s. induction ops as [|op ops IH]; intros s Hinv; simpl.
  - exact Hinv.
  - apply IH, pending_reserved_apply, Hinv.
Qed.

(** C3: in every state reached from a fresh tracker by [reserve_game],
    [reserve_outgoing_challenge], [confirm_game_start] and [release], an
    identifier in either pending set is a key of [slot_by_game_id]. *)
Theorem pending_ids_have_reservations (capacity : Z) (ops : list SlotOp) (id : string) :
  id ∈ pending_outgoing_challenges (run_ops (new_slots capacity) ops)
  ∨ id ∈ pending_outgoing_correspondence (run_ops (new_slots capacity) ops) ->
  is_Some (slot_by_game_id (run_ops (new_slots capacity) ops) !! id).
Proof. apply pending_reserved_run, pending_reserved_new. Qed.

Lemma pending_ids_have_reservations_witness :
  is_Some (slot_by_game_id
             (run_ops (new_slots 3)
                [op_reserve_outgoing_challenge "a" "blitz";
                 op_reserve_outgoing_challenge "c" "correspondence";
                 op_confirm_game_start "a"]) !! "c").
Proof.
  apply (pending_ids_have_reservations 3
           [op_reserve_outgoing_challenge "a" "blitz";
            op_reserve_outgoing_challenge "c" "correspondence";
            op_confirm_game_start "a"] "c").
  right. apply (bool_decide_unpack _). vm_compute. exact I.
Defined.

(** ** [MatchmakingSlots]: a capacity other than three *)

Lemma apply_op_disabled (s : MatchmakingSlots) (op : SlotOp) :
  enabled s = false -> apply_op s op = s.
Proof.
  intros Hen. destruct op; simpl;
    unfold reserve_game, reserve_outgoing_challenge, confirm_game_start, release;
    rewrite Hen; reflexivity.
Qed.

Lemma run_ops_disabled (s : MatchmakingSlots) (ops : list SlotOp) :
  enabled s = false -> run_ops s ops = s.
Proof.
  intros Hen. induction ops as [|op ops IH]; simpl.
  - reflexivity.
  - rewrite apply_op_disabled by exact Hen. exact IH.
Qed.

Lemma apply_op_static (s : MatchmakingSlots) (op : SlotOp) :
  max_games (apply_op s op) = max_games s ∧ enabled (apply_op s op) = enabled s.
Proof.
  destruct op; simpl;
    unfold reserve_game, reserve_outgoing_challenge, confirm_game_start, release;
    destruct (enabled s) eqn:Hen; simpl; auto;
    destruct (is_correspondence_speed _); simpl; auto.
Qed.

Lemma run_ops_static (s : MatchmakingSlots) (ops : list SlotOp) :
  max_games (run_ops s ops) = max_games s ∧ enabled (run_ops s ops) = enabled s.
Proof.
  revert s. induction ops as [|op ops IH]; intros s; simpl.
  - auto.
  - destruct (IH (apply_op s op)) as [-> ->]. apply apply_op_static.
Qed.

(** C5: a tracker built with a capacity other than 3 has accounting off, in
    every state its operations lead to, and then each query compares the
    number of active games with the capacity and nothing else: [used_slots] is
    that number, the four acceptance checks and [can_start_correspondence_move]
    hold exactly when it is below the capacity, and [available_bot_lanes] is
    both lanes in that case and empty otherwise. *)
Theorem single_pool_when_capacity_is_not_three
    (capacity : Z) (ops : list SlotOp) (active_games : gset string) :
  capacity ≠ 3 ->
  let s := run_ops (new_slots capacity) ops in
  let below := Z.of_nat (size active_games) <? capacity in
  enabled s = false
  ∧ used_slots s active_games = Z.of_nat (size active_games)
  ∧ can_accept_human s active_games = below
  ∧ can_accept_correspondence s active_games = below
  ∧ (forall speed : string, can_accept_bot_speed s speed active_games = below)
  ∧ (forall c : Challenge, can_accept_challenge s c active_games = below)
  ∧ available_bot_lanes s active_games = (if below then {[ "short"; "long" ]} else ∅)
  ∧ can_start_correspondence_move s active_games = below.
Proof.
  intros Hcap s below.
  assert (enabled (new_slots capacity) = false) as Hnew.
  { simpl. apply Z.eqb_neq, Hcap. }
  assert (s = new_slots capacity) as Hs by (apply run_ops_disabled, Hnew).
  clearbody s. subst s. set (s := new_slots capacity) in *.
  assert (max_games s = capacity) as Hmax by reflexivity.
  assert (forall x : Z, (x >=? capacity) = negb (x <? capacity)) as Hge.
  { intros x. rewrite Z.geb_leb. apply Z.leb_antisym. }
  assert (used_slots s active_games = Z.of_nat (size active_games)) as Hused.
  { unfold used_slots. rewrite Hnew. reflexivity. }
  assert (can_accept_human s active_games = below) as Hhuman.
  { unfold can_accept_human. rewrite Hused, Hmax. reflexivity. }
  assert (can_accept_correspondence s active_games = below) as Hcorr.
  { unfold can_accept_correspondence. rewrite Hused, Hmax, Hnew. reflexivity. }
  assert (forall speed, can_accept_bot_speed s speed active_games = below) as Hbot.
  { intros speed. unfold can_accept_bot_speed.
    destruct (is_correspondence_speed speed); [exact Hcorr|].
    rewrite Hused, Hmax, Hnew, Hge. fold below. destruct below; reflexivity. }
  refine (conj Hnew (conj Hused (conj Hhuman (conj Hcorr (conj Hbot (conj _ (conj _ _))))))).
  - intros c. unfold can_accept_challenge.
    destruct (is_correspondence_speed _); [exact Hcorr|].
    destruct (challenger_is_bot c); [apply Hbot | exact Hhuman].
  - unfold available_bot_lanes. rewrite Hused, Hmax, Hnew, Hge. fold below.
    destruct below; reflexivity.
  - unfold can_start_correspondence_move. rewrite Hused, Hmax, Hnew, Hge. fold below.
    destruct below; reflexivity.
Qed.

Lemma single_pool_when_capacity_is_not_three_witness :
  enabled (run_ops (new_slots 2) [op_reserve_game "g" true "blitz"]) = false
  ∧ can_accept_bot_speed (run_ops (new_slots 2) [op_reserve_game "g" true "blitz"])
      "bullet" {[ "g" ]} = true
  ∧ available_bot_lanes (run_ops (new_slots 2) [op_reserve_game "g" true "blitz"])
      {[ "g" ]} = {[ "short"; "long" ]}.
Proof.
  pose proof (single_pool_when_capacity_is_not_three 2 [op_reserve_game "g" true "blitz"]
                {[ "g" ]} ltac:(lia)) as H.
  cbv zeta in H. destruct H as (Hen & _ & _ & _ & Hbot & _ & Hlanes & _).
  refine (conj Hen (conj _ _)).
  - rewrite Hbot. vm_compute. reflexivity.
  - rewrite Hlanes. vm_compute. reflexivity.
Defined.

(** ** [MatchmakingSlots]: both bot lanes taken *)

Lemma short_speed_is_not_correspondence (speed : string) :
  bot_lane_for_speed speed = "short" -> is_correspondence_speed speed = false.
Proof.
  intros Hlane. unfold is_correspondence_speed.
  destruct (String.eqb_spec speed CORRESPONDENCE_SPEED) as [->|_]; [|reflexivity].
  vm_compute in Hlane. discriminate.
Qed.

Lemma two_lane_values (a b : string) (m : gmap string string) :
  a ≠ b ->
  m = <[b := "bot_long"]> (<[a := "bot_short"]> ∅) ->
  (map_to_list m).*2 ≡ₚ ["bot_long"; "bot_short"].
Proof.
  intros Hne ->.
  rewrite map_to_list_insert by (rewrite lookup_insert_ne by exact Hne; apply lookup_empty).
  rewrite map_to_list_insert by apply lookup_empty.
  rewrite map_to_list_empty. reflexivity.
Qed.

Lemma reserve_short_then_long (a b short_speed long_speed : string) :
  bot_lane_for_speed short_speed = "short" ->
  is_correspondence_speed long_speed = false ->
  bot_lane_for_speed long_speed = "long" ->
  reserve_outgoing_challenge (reserve_outgoing_challenge (new_slots 3) a short_speed) b long_speed
  = mkSlots 3 true (<[b := "bot_long"]> (<[a := "bot_short"]> ∅)) ({[b]} ∪ ({[a]} ∪ ∅)) ∅.
Proof.
  intros Hshort Hreal Hlong.
  pose proof (short_speed_is_not_correspondence _ Hshort) as Hreal'.
  unfold reserve_outgoing_challenge, _slot_for_game. simpl.
  rewrite Hreal'. simpl. rewrite Hreal. simpl. rewrite Hshort, Hlong. reflexivity.
Qed.

Lemma reserve_long_then_short (a b short_speed long_speed : string) :
  a ≠ b ->
  bot_lane_for_speed short_speed = "short" ->
  is_correspondence_speed long_speed = false ->
  bot_lane_for_speed long_speed = "long" ->
  reserve_outgoing_challenge (reserve_outgoing_challenge (new_slots 3) b long_speed) a short_speed
  = reserve_outgoing_challenge (reserve_outgoing_challenge (new_slots 3) a short_speed) b long_speed.
Proof.
  intros Hne Hshort Hreal Hlong.
  rewrite (reserve_short_then_long a b short_speed long_speed) by assumption.
  pose proof (short_speed_is_not_correspondence _ Hshort) as Hreal'.
  unfold reserve_outgoing_challenge, _slot_for_game. simpl.
  rewrite Hreal. simpl. rewrite Hreal'. simpl. rewrite Hshort, Hlong.
  f_equal.
  - apply insert_insert_ne. exact Hne.
  - apply set_eq. intros x. rewrite !elem_of_union. tauto.
Qed.

(** C2: with capacity 3, once one short-speed and one long-speed outgoing bot
    challenge are reserved (two distinct challenges, in either order, nothing
    else), no bot lane is available for the empty active set, a bot challenge
    of any real-time speed is refused, and a correspondence one is accepted. *)
Theorem both_bot_lanes_taken (a b short_speed long_speed : string) :
  a ≠ b ->
  bot_lane_for_speed short_speed = "short" ->
  is_correspondence_speed long_speed = false ->
  bot_lane_for_speed long_speed = "long" ->
  forall s : MatchmakingSlots,
    s = reserve_outgoing_challenge (reserve_outgoing_challenge (new_slots 3) a short_speed)
          b long_speed
    ∨ s = reserve_outgoing_challenge (reserve_outgoing_challenge (new_slots 3) b long_speed)
            a short_speed ->
    available_bot_lanes s ∅ = ∅
    ∧ (forall speed : string,
         is_correspondence_speed speed = false -> can_accept_bot_speed s speed ∅ = false)
    ∧ can_accept_bot_speed s "correspondence" ∅ = true.
Proof.
  intros Hne Hshort Hreal Hlong s Hs.
  assert (s = mkSlots 3 true (<[b := "bot_long"]> (<[a := "bot_short"]> ∅))
                ({[b]} ∪ ({[a]} ∪ ∅)) ∅) as ->.
  { destruct Hs as [->| ->].
    - apply reserve_short_then_long; assumption.
    - rewrite reserve_long_then_short by assumption.
      apply reserve_short_then_long; assumption. }
  set (s := mkSlots _ _ _ _ _).
  assert (_bot_lane_counts s = (1, 1)) as Hcounts.
  { unfold _bot_lane_counts, slot_values. simpl.
    rewrite !(count_where_perm _ _ _ (two_lane_values a b _ Hne eq_refl)).
    reflexivity. }
  split; [|split].
  - unfold available_bot_lanes. rewrite Hcounts. simpl.
    destruct (_ >=? _); reflexivity.
  - intros speed Hspeed. unfold can_accept_bot_speed. rewrite Hspeed, Hcounts. simpl.
    destruct (_ >=? _); reflexivity.
  - reflexivity.
Qed.

Lemma both_bot_lanes_taken_witness :
  available_bot_lanes
    (reserve_outgoing_challenge (reserve_outgoing_challenge (new_slots 3) "short_pending" "blitz")
       "long_pending" "rapid") ∅ = ∅
  ∧ can_accept_bot_speed
      (reserve_outgoing_challenge (reserve_outgoing_challenge (new_slots 3) "short_pending" "blitz")
         "long_pending" "rapid") "bullet" ∅ = false
  ∧ can_accept_bot_speed
      (reserve_outgoing_challenge (reserve_outgoing_challenge (new_slots 3) "short_pending" "blitz")
         "long_pending" "rapid") "classical" ∅ = false.
Proof.
  destruct (both_bot_lanes_taken "short_pending" "long_pending" "blitz" "rapid"
              ltac:(discriminate) ltac:(vm_compute; reflexivity) ltac:(reflexivity)
              ltac:(vm_compute; reflexivity) _ (or_introl eq_refl)) as (Hlanes & Hbot & _).
  refine (conj Hlanes (conj _ _)).
  - apply Hbot. reflexivity.
  - apply Hbot. reflexivity.
Defined.

(** ** [MatchmakingSlots]: [release] *)

Lemma release_unreserved (s : MatchmakingSlots) (id : string) :
  pending_reserved s -> slot_by_game_id s !! id = None -> release s id = s.
Proof.
  intros Hinv Hnone.
  assert (id ∉ pending_outgoing_challenges s) as Hp.
  { intros Hin. destruct (Hinv id (or_introl Hin)) as [x Hx]. congruence. }
  assert (id ∉ pending_outgoing_correspondence s) as Hc.
  { intros Hin. destruct (Hinv id (or_intror Hin)) as [x Hx]. congruence. }
  unfold release. destruct s as [mg en slots pend corr]; simpl in *.
  destruct en; simpl; [|reflexivity].
  f_equal.
  - apply delete_id, Hnone.
  - apply set_eq. intros x. rewrite elem_of_difference, elem_of_singleton.
    split; [tauto|]. intros Hx. split; [exact Hx|]. intros ->. contradiction.
  - apply set_eq. intros x. rewrite elem_of_difference, elem_of_singleton.
    split; [tauto|]. intros Hx. split; [exact Hx|]. intros ->. contradiction.
Qed.

Lemma release_idempotent (s : MatchmakingSlots) (id : string) :
  release (release s id) id = release s id.
Proof.
  destruct s as [mg en slots pend corr]. unfold release. simpl.
  destruct en; simpl; [|reflexivity].
  f_equal.
  - apply delete_id, lookup_delete_eq.
  - apply set_eq. intros x. rewrite !elem_of_difference. tauto.
  - apply set_eq. intros x. rewrite !elem_of_difference. tauto.
Qed.

Lemma difference_singleton_fresh (X : gset string) (id : string) :
  id ∉ X -> X ∖ {[id]} = X.
Proof.
  intros Hid. apply set_eq. intros x. rewrite elem_of_difference, elem_of_singleton.
  split; [tauto|]. intros Hx. split; [exact Hx|]. intros ->. contradiction.
Qed.

Lemma add_remove_fresh (X : gset string) (id : string) :
  id ∉ X -> ({[id]} ∪ X) ∖ {[id]} = X.
Proof.
  intros Hid. apply set_eq. intros x.
  rewrite elem_of_difference, elem_of_union, elem_of_singleton.
  split; [tauto|]. intros Hx. split; [tauto|]. intros ->. contradiction.
Qed.

Lemma reserve_then_release (s : MatchmakingSlots) (id : string) :
  pending_reserved s -> slot_by_game_id s !! id = None ->
  (forall (is_bot_game : bool) (speed : string),
      release (reserve_game s id is_bot_game speed) id = s)
  ∧ (forall speed : string, release (reserve_outgoing_challenge s id speed) id = s).
Proof.
  intros Hinv Hnone.
  assert (id ∉ pending_outgoing_challenges s) as Hp.
  { intros Hin. destruct (Hinv id (or_introl Hin)) as [x Hx]. congruence. }
  assert (id ∉ pending_outgoing_correspondence s) as Hc.
  { intros Hin. destruct (Hinv id (or_intror Hin)) as [x Hx]. congruence. }
  destruct s as [mg en slots pend corr]; simpl in *.
  split.
  - intros is_bot_game speed. unfold release, reserve_game. simpl.
    destruct en; simpl; [|reflexivity]. f_equal.
    + rewrite delete_insert_eq. apply delete_id, Hnone.
    + rewrite (difference_singleton_fresh pend) by assumption.
      apply difference_singleton_fresh. assumption.
    + rewrite (difference_singleton_fresh corr) by assumption.
      apply difference_singleton_fresh. assumption.
  - intros speed. unfold release, reserve_outgoing_challenge. simpl.
    destruct en; simpl; [|reflexivity].
    destruct (is_correspondence_speed speed); simpl; f_equal;
      try (rewrite delete_insert_eq; apply delete_id, Hnone);
      try (apply add_remove_fresh; assumption);
      try (apply difference_singleton_fresh; assumption).
Qed.

(** C9, as the code has it: in a state reached from a fresh tracker,
    releasing an identifier that has no reservation changes nothing; releasing
    twice is releasing once; and for an identifier that has no reservation yet,
    reserving it (as a game or as an outgoing challenge) and then releasing it
    gives back the state before, so the lanes on offer are those from before. *)
Theorem release_undoes_fresh_reservation (capacity : Z) (ops : list SlotOp) (id : string) :
  let s := run_ops (new_slots capacity) ops in
  (slot_by_game_id s !! id = None -> release s id = s)
  ∧ release (release s id) id = release s id
  ∧ (slot_by_game_id s !! id = None ->
       (forall (is_bot_game : bool) (speed : string),
           release (reserve_game s id is_bot_game speed) id = s)
       ∧ (forall speed : string, release (reserve_outgoing_challenge s id speed) id = s)
       ∧ (forall (speed : string) (active_games : gset string),
             available_bot_lanes (release (reserve_outgoing_challenge s id speed) id)
               active_games
             = available_bot_lanes s active_games)).
Proof.
  intros s.
  assert (pending_reserved s) as Hinv by apply pending_reserved_run, pending_reserved_new.
  split; [|split].
  - apply release_unreserved, Hinv.
  - apply release_idempotent.
  - intros Hnone. destruct (reserve_then_release s id Hinv Hnone) as [Hgame Hout].
    split; [exact Hgame|]. split; [exact Hout|].
    intros speed active_games. rewrite Hout. reflexivity.
Qed.

Lemma release_undoes_fresh_reservation_witness :
  release (run_ops (new_slots 3) [op_reserve_game "g" true "rapid"]) "x"
  = run_ops (new_slots 3) [op_reserve_game "g" true "rapid"]
  ∧ release (reserve_outgoing_challenge
               (run_ops (new_slots 3) [op_reserve_game "g" true "rapid"]) "x" "blitz") "x"
    = run_ops (new_slots 3) [op_reserve_game "g" true "rapid"].
Proof.
  destruct (release_undoes_fresh_reservation 3 [op_reserve_game "g" true "rapid"] "x")
    as (Hrel & _ & Hres).
  split.
  - apply Hrel. vm_compute. reflexivity.
  - apply Hres. vm_compute. reflexivity.
Defined.

(** C9 as stated fails for an identifier that is already reserved: after an
    outgoing challenge ["g"] is reserved, [reserve_game] for the started game
    ["g"] followed by [release] leaves no trace of ["g"], while before the
    [reserve_game] it was reserved and pending. *)
Lemma release_does_not_restore_prior_reservation :
  slot_by_game_id scenario_pending_challenge !! "g" = Some "bot_short"
  ∧ slot_by_game_id (release (reserve_game scenario_pending_challenge "g" true "blitz") "g")
    ≠ slot_by_game_id scenario_pending_challenge
  ∧ pending_outgoing_challenges
      (release (reserve_game scenario_pending_challenge "g" true "blitz") "g")
    ≠ pending_outgoing_challenges scenario_pending_challenge.
Proof.
  set (s := scenario_pending_challenge). split; [|split].
  - vm_compute. reflexivity.
  - intros Heq. assert (slot_by_game_id s !! "g" = Some "bot_short") as Hs
      by (vm_compute; reflexivity).
    rewrite <- Heq in Hs. vm_compute in Hs. discriminate.
  - intros Heq. assert ("g" ∈ pending_outgoing_challenges s) as Hs
      by (apply (bool_decide_unpack _); vm_compute; exact I).
    rewrite <- Heq in Hs. apply (bool_decide_pack _) in Hs. vm_compute in Hs. exact Hs.
Qed.

(** ** [get_weights] *)

Lemma pick_by_weight_some {A} (population : list A) (weights : list Z) (x : Z) :
  population ≠ [] -> is_Some (pick_by_weight population weights x).
Proof.
  revert weights x. induction population as [|a rest IH]; intros weights x Hne.
  - contradiction.
  - destruct rest as [|a' rest'].
    + simpl. eauto.
    + destruct weights as [|wt weights']; simpl; [eauto|].
      destruct (x <? wt); [eauto|]. apply IH. discriminate.
Qed.

Lemma sum_list_Z_positive (weights : list Z) :
  Forall (fun wt => 1 <= wt) weights -> weights ≠ [] -> 0 < sum_list_Z weights.
Proof.
  intros Hall Hne. destruct Hall as [|wt rest Hwt Hrest]; [contradiction|].
  simpl. assert (0 <= sum_list_Z rest); [|lia].
  clear Hne. induction Hrest as [|wt' rest' Hwt' _ IH]; simpl; lia.
Qed.

Lemma get_weights_length (online_bots : list UserProfileType) (preference : string)
    (min_rating max_rating : Z) (game_type : string) :
  length (get_weights online_bots preference min_rating max_rating game_type)
  = length online_bots.
Proof.
  unfold get_weights.
  destruct (String.eqb preference "high"); [apply List.length_map|].
  destruct (String.eqb preference "low"); [apply List.length_map|].
  apply List.repeat_length.
Qed.

(** C10: for preference "high" or "low", when [min_rating <= max_rating] and
    every candidate's rating in the chosen category lies in
    [[min_rating, max_rating]], every weight of [get_weights] is at least 1;
    hence for a non-empty candidate list the weighted draw finds a positive
    total weight and returns a candidate instead of raising. *)
Theorem get_weights_positive (online_bots : list UserProfileType) (preference : string)
    (min_rating max_rating : Z) (game_type : string) :
  preference = "high" ∨ preference = "low" ->
  min_rating <= max_rating ->
  Forall (fun bot => min_rating <= rating game_type bot <= max_rating) online_bots ->
  Forall (fun weight => 1 <= weight)
         (get_weights online_bots preference min_rating max_rating game_type)
  ∧ (online_bots ≠ [] ->
     forall w : World,
       is_Some (result_of
                  (random_choices online_bots
                     (get_weights online_bots preference min_rating max_rating game_type) w))).
Proof.
  intros Hpref Hwindow Hbots.
  assert (Forall (fun weight => 1 <= weight)
            (get_weights online_bots preference min_rating max_rating game_type)) as Hweights.
  { unfold get_weights. destruct Hpref as [-> | ->]; simpl.
    - induction Hbots as [|bot bots Hbot _ IH]; simpl; constructor; [lia | exact IH].
    - induction Hbots as [|bot bots Hbot _ IH]; simpl; constructor; [lia | exact IH]. }
  split; [exact Hweights|].
  intros Hne w. unfold random_choices.
  rewrite get_weights_length, Nat.eqb_refl. simpl.
  destruct online_bots as [|bot bots] eqn:Hbots_eq; [contradiction|]. rewrite <- Hbots_eq in *.
  assert (0 < sum_list_Z (get_weights online_bots preference min_rating max_rating game_type))
    as Htotal.
  { apply sum_list_Z_positive; [exact Hweights|].
    intros Hnil. apply (f_equal length) in Hnil. rewrite get_weights_length in Hnil.
    rewrite Hbots_eq in Hnil. discriminate. }
  destruct (Z.leb_spec (sum_list_Z
              (get_weights online_bots preference min_rating max_rating game_type)) 0)
    as [Hle|_]; [lia|].
  unfold bind, next_random.
  destruct (rng w) as [|r rest];
    match goal with
    | |- context [pick_by_weight ?p ?ws ?x] =>
        destruct (pick_by_weight_some p ws x Hne) as [chosen ->]
    end; simpl; eauto.
Qed.

Lemma get_weights_positive_witness :
  Forall (fun weight => 1 <= weight)
    (get_weights [mkProfile "b1" {[ "blitz" := mkPerf (Some 1500) (Some 3) ]};
                  mkProfile "b2" {[ "blitz" := mkPerf (Some 2000) (Some 7) ]}]
       "high" 1500 2000 "blitz").
Proof.
  apply (get_weights_positive
           [mkProfile "b1" {[ "blitz" := mkPerf (Some 1500) (Some 3) ]};
            mkProfile "b2" {[ "blitz" := mkPerf (Some 2000) (Some 7) ]}]
           "high" 1500 2000 "blitz").
  - left. reflexivity.
  - lia.
  - repeat constructor; vm_compute; discriminate.
Defined.

(** ** The opponent filter establishes the window of [get_weights] *)

Lemma filterM_keeps {A} (p : A -> M bool) (Q : A -> Prop) (l : list A) :
  (forall x w w', p x w = Returned true w' -> Q x) ->
  forall (w : World) (kept : list A) (w' : World),
    filterM p l w = Returned kept w' -> Forall Q kept.
Proof.
  intros Hp. induction l as [|x rest IH]; intros w kept w' Hrun; simpl in Hrun.
  - injection Hrun as <- _. constructor.
  - unfold bind in Hrun.
    destruct (p x w) as [keep w1|e w1] eqn:Hx; [|discriminate].
    destruct (filterM p rest w1) as [kept' w2|e w2] eqn:Hrest; [|discriminate].
    injection Hrun as <- _.
    destruct keep; [constructor|]; eauto.
Qed.

Lemma suitable_opponent_in_window (game_type : string) (min_rating max_rating : Z)
    (bot : UserProfileType) (w w' : World) :
  is_suitable_opponent game_type min_rating max_rating bot w = Returned true w' ->
  min_rating <= rating game_type bot <= max_rating.
Proof.
  unfold is_suitable_opponent, bind, get_self. intros Hrun.
  destruct (String.eqb (p_username bot) (username (self w))); [discriminate|].
  destruct (in_block_list (p_username bot) w) as [blocked w1|e w1]; [|discriminate].
  destruct blocked; [discriminate|].
  injection Hrun as Hkeep _.
  apply andb_true_iff in Hkeep as [_ Hwindow].
  unfold rating_in_window in Hwindow.
  apply andb_true_iff in Hwindow as [Hlo Hhi]. lia.
Qed.

(** The weights that [choose_opponent] hands to the weighted draw: whatever
    the preference and the window, the bots that pass [is_suitable_opponent]
    all get a weight of at least 1. *)
Lemma weights_of_suitable_opponents (game_type preference : string) (min_rating max_rating : Z)
    (online_bots suitable : list UserProfileType) (w w' : World) :
  filterM (is_suitable_opponent game_type min_rating max_rating) online_bots w
  = Returned suitable w' ->
  Forall (fun weight => 1 <= weight)
         (get_weights suitable preference min_rating max_rating game_type).
Proof.
  intros Hrun.
  assert (Forall (fun bot => min_rating <= rating game_type bot <= max_rating) suitable)
    as Hwindow.
  { eapply filterM_keeps; [|exact Hrun].
    intros bot w1 w2. apply suitable_opponent_in_window. }
  unfold get_weights.
  destruct (String.eqb preference "high"); [|destruct (String.eqb preference "low")].
  - clear Hrun.
    induction Hwindow as [|bot bots Hbot _ IH]; simpl; [constructor|].
    constructor; [lia | exact IH].
  - clear Hrun.
    induction Hwindow as [|bot bots Hbot _ IH]; simpl; [constructor|].
    constructor; [lia | exact IH].
  - clear Hwindow Hrun. induction suitable as [|bot bots IH]; simpl; [constructor|].
    constructor; [lia | exact IH].
Qed.

(** ** The monad: how a run extends the log *)

Lemma continues_refl (P : Call -> Prop) (w : World) : continues P w w.
Proof.
  split; [|reflexivity]. exists []. split; [|constructor]. symmetry. apply app_nil_r.
Qed.

Lemma continues_trans (P : Call -> Prop) (w1 w2 w3 : World) :
  continues P w1 w2 -> continues P w2 w3 -> continues P w1 w3.
Proof.
  intros [(n1 & H1 & F1) G1] [(n2 & H2 & F2) G2]. split; [|congruence].
  exists (n1 ++ n2)%list. split.
  - rewrite H2, H1. symmetry. apply app_assoc.
  - apply Forall_app. split; assumption.
Qed.

Section Respects.
Variable P : Call -> Prop.

Lemma respects_ret {A} (a : A) : respects P (ret a).
Proof. intros w. apply continues_refl. Qed.

Lemma respects_raise {A} (e : Exn) : respects P (@raise A e).
Proof. intros w. apply continues_refl. Qed.

Lemma respects_get_self : respects P get_self.
Proof. intros w. apply continues_refl. Qed.

Lemma respects_perf_counter : respects P perf_counter.
Proof. intros w. apply continues_refl. Qed.

Lemma respects_next_random : respects P next_random.
Proof.
  intros w. unfold next_random. destruct (rng w); simpl; [apply continues_refl|].
  split; [|reflexivity]. exists []. simpl. split; [|constructor].
  symmetry. apply app_nil_r.
Qed.

Lemma respects_record_call (c : Call) : P c -> respects P (record_call c).
Proof.
  intros Hc w. split; [|reflexivity]. exists [c]. simpl. split; [reflexivity|].
  constructor; [exact Hc | constructor].
Qed.

Lemma respects_modify_self (f : Matchmaking -> Matchmaking) :
  (forall m, force_immediate_challenge (f m) = force_immediate_challenge m) ->
  respects P (modify_self f).
Proof.
  intros Hf w. split; [|apply Hf]. exists []. simpl. split; [|constructor].
  symmetry. apply app_nil_r.
Qed.

Lemma respects_bind {A B} (c : M A) (k : A -> M B) :
  respects P c -> (forall a, respects P (k a)) -> respects P (bind c k).
Proof.
  intros Hc Hk w. unfold bind. specialize (Hc w).
  destruct (c w) as [a w'|e w']; simpl in *; [|exact Hc].
  eapply continues_trans; [exact Hc | apply Hk].
Qed.

Lemma respects_try_except {A} (body : M A) (handler : Exn -> M A) :
  respects P body -> (forall e, respects P (handler e)) ->
  respects P (try_except body handler).
Proof.
  intros Hb Hh w. unfold try_except. specialize (Hb w).
  destruct (body w) as [a w'|e w']; simpl in *; [exact Hb|].
  eapply continues_trans; [exact Hb | apply Hh].
Qed.

Lemma respects_filterM {A} (p : A -> M bool) (l : list A) :
  (forall x, respects P (p x)) -> respects P (filterM p l).
Proof.
  intros Hp. induction l as [|x rest IH]; simpl.
  - apply respects_ret.
  - apply respects_bind; [apply Hp|]. intros keep.
    apply respects_bind; [exact IH|]. intros kept. apply respects_ret.
Qed.

Lemma respects_allM {A} (p : A -> M bool) (l : list A) :
  (forall x, respects P (p x)) -> respects P (allM p l).
Proof.
  intros Hp. induction l as [|x rest IH]; simpl.
  - apply respects_ret.
  - apply respects_bind; [apply Hp|]. intros [|]; [exact IH | apply respects_ret].
Qed.
End Respects.

(** One step of a proof that a method only logs calls satisfying [P] and
    leaves the force-immediate flag alone. *)
Ltac respects_step :=
  lazymatch goal with
  | |- respects _ (ret _) => apply respects_ret
  | |- respects _ (raise _) => apply respects_raise
  | |- respects _ get_self => apply respects_get_self
  | |- respects _ perf_counter => apply respects_perf_counter
  | |- respects _ next_random => apply respects_next_random
  | |- respects _ (modify_self _) =>
      apply respects_modify_self;
      let m := fresh "m" in intros m; try reflexivity; destruct (slots m); reflexivity
  | |- respects _ (bind _ _) => apply respects_bind; [|intros ?]
  | |- respects _ (try_except _ _) => apply respects_try_except; [|intros ?]
  | |- respects _ (filterM _ _) => apply respects_filterM; intros ?
  | |- respects _ (allM _ _) => apply respects_allM; intros ?
  | |- respects _ (match ?x with _ => _ end) => destruct x
  | |- respects _ (let _ := _ in _) => cbv zeta
  end.

Section Methods.
Variable P : Call -> Prop.
Hypothesis P_other :
  forall c, is_selection c = false -> is_eligibility_check c = false -> P c.

Local Ltac logged := apply respects_record_call, P_other; reflexivity.
Local Ltac walk := repeat first [respects_step | logged | assumption].

Lemma respects_random_choice {A} (seq : list A) : respects P (random_choice seq).
Proof. unfold random_choice. walk. Qed.

Lemma respects_random_choices {A} (population : list A) (weights : list Z) :
  respects P (random_choices population weights).
Proof. unfold random_choices. walk. Qed.

Lemma respects_li_cancel (id : string) : respects P (li_cancel id).
Proof. unfold li_cancel. walk. Qed.

Lemma respects_li_challenge (name : string) (params : ChallengeParams) :
  respects P (li_challenge name params).
Proof. unfold li_challenge. walk. Qed.

Lemma respects_li_get_online_bots : respects P li_get_online_bots.
Proof. unfold li_get_online_bots. walk. Qed.

Lemma respects_li_get_public_data (name : string) : respects P (li_get_public_data name).
Proof. unfold li_get_public_data. walk. Qed.

Lemma respects_li_get_profile : respects P li_get_profile.
Proof. unfold li_get_profile. walk. Qed.

Lemma respects_discard_challenge (id : string) : respects P (discard_challenge id).
Proof. unfold discard_challenge. walk. Qed.

Lemma respects_with_slots (f : MatchmakingSlots -> MatchmakingSlots) :
  respects P (with_slots f).
Proof. unfold with_slots. walk. Qed.

Lemma respects_add_challenge_filter (name aspect : string) (timeout : option Z) :
  respects P (add_challenge_filter name aspect timeout).
Proof. unfold add_challenge_filter. walk. Qed.

Lemma respects_should_accept_challenge (name aspect : string) :
  respects P (should_accept_challenge name aspect).
Proof. unfold should_accept_challenge. walk. Qed.

Lemma respects_in_block_list (name : string) : respects P (in_block_list name).
Proof.
  unfold in_block_list.
  apply respects_bind; [apply respects_should_accept_challenge|]. intros ?. walk.
Qed.

(** What [should_create_challenge] does after logging its own call. *)
Lemma should_create_challenge_first (ignore_postgame_timeout ignore_min_wait : bool) :
  exists rest : M bool,
    should_create_challenge ignore_postgame_timeout ignore_min_wait
    = bind (record_call
              (call_should_create_challenge ignore_postgame_timeout ignore_min_wait))
           (fun _ => rest)
    ∧ respects P rest.
Proof.
  unfold should_create_challenge, show_earliest_challenge_time.
  eexists. split; [reflexivity|].
  repeat first
    [ apply respects_li_cancel | apply respects_discard_challenge
    | apply respects_with_slots | respects_step | logged ].
Qed.

Lemma respects_should_create_challenge (ignore_postgame_timeout ignore_min_wait : bool) :
  P (call_should_create_challenge ignore_postgame_timeout ignore_min_wait) ->
  respects P (should_create_challenge ignore_postgame_timeout ignore_min_wait).
Proof.
  intros Hcall.
  destruct (should_create_challenge_first ignore_postgame_timeout ignore_min_wait)
    as (rest & -> & Hrest).
  apply respects_bind; [apply respects_record_call, Hcall | intros _; exact Hrest].
Qed.

Lemma respects_handle_challenge_error_response (response : ChallengeType) (name : string) :
  respects P (handle_challenge_error_response response name).
Proof.
  unfold handle_challenge_error_response, show_earliest_challenge_time.
  repeat first [ apply respects_add_challenge_filter | respects_step ].
Qed.

Lemma respects_create_challenge (name : string) (base_time increment num_days : Z)
    (variant mode : string) :
  respects P (create_challenge name base_time increment num_days variant mode).
Proof.
  unfold create_challenge, show_earliest_challenge_time.
  repeat first
    [ apply respects_li_challenge | apply respects_handle_challenge_error_response
    | respects_step | logged ].
Qed.

Lemma respects_update_user_profile : respects P update_user_profile.
Proof.
  unfold update_user_profile.
  repeat first [ apply respects_li_get_profile | respects_step ].
Qed.

Lemma respects_get_random_config_value (value : string) (choices : list string) :
  respects P (get_random_config_value value choices).
Proof.
  unfold get_random_config_value.
  repeat first [ apply respects_random_choice | respects_step ].
Qed.

Lemma respects_is_suitable_opponent (game_type : string) (min_rating max_rating : Z)
    (bot : UserProfileType) :
  respects P (is_suitable_opponent game_type min_rating max_rating bot).
Proof.
  unfold is_suitable_opponent.
  repeat first [ apply respects_in_block_list | respects_step ].
Qed.

Lemma respects_ready_for_challenge (variant game_type mode : string) (bot : UserProfileType) :
  respects P (ready_for_challenge variant game_type mode bot).
Proof.
  unfold ready_for_challenge.
  repeat first [ apply respects_should_accept_challenge | respects_step ].
Qed.

Lemma respects_choose_opponent (allowed_bot_lanes : option (gset string))
    (correspondence_only : bool) :
  P (call_choose_opponent allowed_bot_lanes correspondence_only) ->
  respects P (choose_opponent allowed_bot_lanes correspondence_only).
Proof.
  intros Hcall. unfold choose_opponent, online_block_list_refresh, add_to_block_list.
  apply respects_bind; [apply respects_record_call, Hcall|]. intros _.
  repeat first
    [ apply respects_random_choice | apply respects_random_choices
    | apply respects_get_random_config_value | apply respects_li_get_online_bots
    | apply respects_is_suitable_opponent | apply respects_ready_for_challenge
    | apply respects_li_get_public_data | apply respects_add_challenge_filter
    | respects_step ].
Qed.

Lemma respects_create_matchmaking_challenge (active_games : gset string)
    (allowed_bot_lanes : option (gset string)) (correspondence_only : bool) :
  P (call_choose_opponent allowed_bot_lanes correspondence_only) ->
  respects P (create_matchmaking_challenge active_games allowed_bot_lanes correspondence_only).
Proof.
  intros Hcall. unfold create_matchmaking_challenge.
  apply respects_bind; [apply respects_update_user_profile|]. intros _.
  apply respects_bind; [apply respects_choose_opponent, Hcall|]. intros ?.
  repeat first
    [ apply respects_create_challenge | apply respects_with_slots | respects_step ].
Qed.
End Methods.

(** ** [should_create_challenge] *)

Lemma should_create_challenge_returns (ignore_postgame_timeout ignore_min_wait : bool)
    (w : World) :
  exists w' : World,
    should_create_challenge ignore_postgame_timeout ignore_min_wait w
    = Returned (eligible ignore_postgame_timeout ignore_min_wait w) w'.
Proof.
  unfold eligible, matchmaking_enabled, postgame_cooldown_over, rate_limit_over,
    min_wait_elapsed, outstanding_challenge_expired.
  unfold should_create_challenge, bind, record_call, get_self, perf_counter. simpl.
  destruct (is_expired (last_challenge_created_delay (self w)) (now w)
            && truthy_str (challenge_id (self w))).
  - unfold li_cancel, discard_challenge, with_slots, show_earliest_challenge_time,
      bind, record_call, get_self, modify_self, ret. simpl.
    rewrite String.eqb_refl. simpl. eexists. reflexivity.
  - unfold ret. eexists. reflexivity.
Qed.

(** C1, as the code has it: [should_create_challenge] always returns, and its
    answer is true exactly when matchmaking is enabled AND (the post-game
    cooldown is over or ignored and the rate-limit timer has run out, OR the
    outstanding challenge had expired on entry) AND the minimum wait since the
    last challenge has elapsed or is ignored. *)
Theorem should_create_challenge_answer (ignore_postgame_timeout ignore_min_wait : bool)
    (w : World) :
  result_of (should_create_challenge ignore_postgame_timeout ignore_min_wait w)
  = Some (matchmaking_enabled w
          && (((ignore_postgame_timeout || postgame_cooldown_over w) && rate_limit_over w)
              || outstanding_challenge_expired w)
          && (ignore_min_wait || min_wait_elapsed w)).
Proof.
  destruct (should_create_challenge_returns ignore_postgame_timeout ignore_min_wait w)
    as [w' ->].
  reflexivity.
Qed.

(** C1 as stated fails in both directions.  Seventy seconds after a challenge
    was sent and while the post-game cooldown still runs, the code answers true
    (the outstanding challenge has expired and the minimum wait is over) where
    the sentence requires the cooldown.  Thirty seconds after a challenge was
    sent, with every cooldown over, the code answers false (the minimum wait is
    not over) where the sentence accepts the expired challenge instead. *)
Lemma should_create_challenge_not_as_specified :
  (result_of (should_create_challenge false false
                (scenario_outstanding (minutes 30) (seconds 70))) = Some true
   ∧ eligible_as_specified false false (scenario_outstanding (minutes 30) (seconds 70))
     = false)
  ∧ (result_of (should_create_challenge false false
                  (scenario_outstanding (seconds 0) (seconds 30))) = Some false
     ∧ eligible_as_specified false false (scenario_outstanding (seconds 0) (seconds 30))
       = true).
Proof. vm_compute. auto. Qed.

Lemma should_create_challenge_step (P : Call -> Prop)
    (ignore_postgame_timeout ignore_min_wait : bool) (w : World) :
  (forall c, is_selection c = false -> is_eligibility_check c = false -> P c) ->
  exists w' : World,
    should_create_challenge ignore_postgame_timeout ignore_min_wait w
    = Returned (eligible ignore_postgame_timeout ignore_min_wait w) w'
    ∧ (exists rest : list Call,
          calls w'
          = (calls w
             ++ call_should_create_challenge ignore_postgame_timeout ignore_min_wait :: rest)%list
          ∧ Forall P rest)
    ∧ force_immediate_challenge (self w') = force_immediate_challenge (self w).
Proof.
  intros P_other.
  destruct (should_create_challenge_returns ignore_postgame_timeout ignore_min_wait w)
    as [w' Hret].
  exists w'. split; [exact Hret|].
  destruct (should_create_challenge_first P P_other ignore_postgame_timeout ignore_min_wait)
    as (rest & Heq & Hrest).
  assert (w' = world_of (should_create_challenge ignore_postgame_timeout ignore_min_wait w))
    as Hw' by (rewrite Hret; reflexivity).
  rewrite Heq in Hw'. unfold bind, record_call in Hw'. simpl in Hw'.
  match type of Hw' with _ = world_of (rest ?w1) => destruct (Hrest w1) as [(new & Hc & Hnew) Hf] end.
  rewrite <- Hw' in Hc, Hf. simpl in Hc, Hf. split; [|exact Hf].
  exists new. split; [|exact Hnew]. rewrite Hc, <- app_assoc. reflexivity.
Qed.

(** ** The per-tick decision [challenge] *)

Lemma continues_after_bind (P : Call -> Prop) {A B} (c : M A) (k : A -> M B) (w : World) :
  (forall a, respects P (k a)) -> continues P (world_of (c w)) (world_of (bind c k w)).
Proof.
  intros Hk. unfold bind. destruct (c w) as [a w'|e w']; simpl.
  - apply Hk.
  - apply continues_refl.
Qed.

(** After the background step, [challenge] only checks eligibility with both
    flags off and only selects a real-time opponent. *)
Lemma challenge_after_background (P : Call -> Prop) (active_games : gset string)
    (max_games : Z) (w : World) :
  (forall c, is_selection c = false -> is_eligibility_check c = false -> P c) ->
  P (call_should_create_challenge false false) ->
  (forall lanes, P (call_choose_opponent (Some lanes) false)) ->
  continues P (world_of (_challenge_for_background_correspondence active_games w))
              (world_of (challenge active_games [] max_games w)).
Proof.
  intros P_other Hcheck Hselect. unfold challenge.
  apply continues_after_bind. intros created.
  repeat first
    [ apply respects_should_create_challenge; assumption
    | apply respects_create_matchmaking_challenge; [assumption | apply Hselect]
    | respects_step ].
Qed.

Lemma background_step_skipped (active_games : gset string) (w : World) :
  background_target_met (self w) ->
  _challenge_for_background_correspondence active_games w = Returned false w.
Proof.
  intros Hmet. unfold _challenge_for_background_correspondence, bind, get_self.
  destruct (slots (self w)) as [s|] eqn:Hs; [|reflexivity].
  destruct (enabled s); [|reflexivity]. simpl.
  rewrite (Hmet s Hs). reflexivity.
Qed.

(** C7, as the code has it: when the correspondence reservations already
    meet the background target, the background step of [challenge] stops
    before doing anything, and the whole tick never selects an opponent in
    correspondence-only mode; the real-time steps that follow may still select
    one, unless the number of active games has reached the number allowed for
    matchmaking, in which case the tick does nothing at all. *)
Theorem no_correspondence_selection_when_target_met (w : World)
    (active_games : gset string) (challenge_queue : list Challenge) (max_games : Z) :
  background_target_met (self w) ->
  _challenge_for_background_correspondence active_games w = Returned false w
  ∧ (exists new : list Call,
        calls (world_of (challenge active_games challenge_queue max_games w))
        = (calls w ++ new)%list
        ∧ Forall (fun c => is_correspondence_selection c = false) new)
  ∧ (Z.of_nat (size active_games)
       >=? (if allow_during_games (matchmaking_cfg (self w))
            then max_games else Z.min 1 max_games) = true ->
     challenge active_games challenge_queue max_games w = Returned tt w).
Proof.
  intros Hmet. split; [apply background_step_skipped, Hmet|]. split; cycle 1.
  { intros Hfull. destruct challenge_queue as [|c queue]; [|reflexivity].
    unfold challenge. unfold bind at 1.
    rewrite (background_step_skipped active_games w Hmet). cbv beta iota.
    unfold bind, get_self, perf_counter. unfold len_set. rewrite Hfull. reflexivity. }
  destruct challenge_queue as [|c queue].
  - pose proof (challenge_after_background
                  (fun c => is_correspondence_selection c = false)
                  active_games max_games w) as Hrest.
    rewrite (background_step_skipped active_games w Hmet) in Hrest. simpl in Hrest.
    apply Hrest.
    + intros [] Hsel Hchk; try reflexivity; discriminate.
    + reflexivity.
    + reflexivity.
  - exists []. simpl. split; [symmetry; apply app_nil_r | constructor].
Qed.

Lemma no_correspondence_selection_when_target_met_witness :
  (exists new : list Call,
      calls (world_of (challenge {[ "long_game" ]} [] 3 scenario_open_short_lane))
      = (calls scenario_open_short_lane ++ new)%list
      ∧ Forall (fun c => is_correspondence_selection c = false) new)
  ∧ challenge {[ "long_game"; "short_game"; "human_game" ]} [] 3 scenario_open_short_lane
    = Returned tt scenario_open_short_lane.
Proof.
  split.
  - apply (no_correspondence_selection_when_target_met scenario_open_short_lane
             {[ "long_game" ]} [] 3).
    intros s Hs. injection Hs as <-. vm_compute. reflexivity.
  - apply (no_correspondence_selection_when_target_met scenario_open_short_lane
             {[ "long_game"; "short_game"; "human_game" ]} [] 3).
    + intros s Hs. injection Hs as <-. vm_compute. reflexivity.
    + vm_compute. reflexivity.
Defined.

(** C7 as stated fails: with one active long-lane bot game and one
    correspondence game, the target of one correspondence game is met, and the
    tick still selects an opponent, for the open short lane. *)
Lemma selection_happens_when_target_met :
  background_target_met (self scenario_open_short_lane)
  ∧ calls (world_of (challenge {[ "long_game" ]} [] 3 scenario_open_short_lane))
    = [ call_should_create_challenge false false;
        call_choose_opponent (Some {[ "short" ]}) false;
        call_li_get_online_bots;
        call_li_get_public_data "other_bot";
        call_create_challenge "other_bot" 60 0 0 "standard" "rated";
        call_li_challenge "other_bot" (mkParams true "standard" None (Some 60) (Some 0)) ].
Proof.
  split.
  - intros s Hs. injection Hs as <-. vm_compute. reflexivity.
  - vm_compute. reflexivity.
Qed.

(** ** The force-immediate flag *)

Lemma background_cases (w : World) :
  background_due (self w)
  ∨ (forall active_games,
        _challenge_for_background_correspondence active_games w = Returned false w).
Proof.
  destruct (slots (self w)) as [s|] eqn:Hs.
  - destruct (enabled s) eqn:Hen.
    + destruct (target_reached (correspondence_reservation_count s)
                  (max_background_correspondence_games (self w))) eqn:Htarget.
      * right. intros active_games.
        unfold _challenge_for_background_correspondence, bind, get_self.
        rewrite Hs, Hen. simpl. rewrite Htarget. reflexivity.
      * left. exists s. auto.
    + right. intros active_games.
      unfold _challenge_for_background_correspondence, bind, get_self.
      rewrite Hs, Hen. reflexivity.
  - right. intros active_games.
    unfold _challenge_for_background_correspondence, bind, get_self.
    rewrite Hs. reflexivity.
Qed.

(** When replenishment is due, the background step first checks eligibility,
    passing the flag as [ignore_min_wait], and leaves the flag off. *)
Lemma background_due_step (P : Call -> Prop) (active_games : gset string) (w : World) :
  (forall c, is_selection c = false -> is_eligibility_check c = false -> P c) ->
  P (call_choose_opponent None true) ->
  background_due (self w) ->
  (exists rest : list Call,
      calls (world_of (_challenge_for_background_correspondence active_games w))
      = (calls w
         ++ call_should_create_challenge true (force_immediate_challenge (self w)) :: rest)%list
      ∧ Forall P rest)
  ∧ force_immediate_challenge
      (self (world_of (_challenge_for_background_correspondence active_games w))) = false.
Proof.
  intros P_other Hselect (s & Hs & Hen & Htarget).
  remember (world_of (_challenge_for_background_correspondence active_games w))
    as final eqn:Hfinal.
  unfold _challenge_for_background_correspondence in Hfinal.
  unfold bind at 1 in Hfinal. unfold get_self at 1 in Hfinal.
  rewrite Hs, Hen in Hfinal. simpl in Hfinal. rewrite Htarget in Hfinal.
  unfold bind at 1 in Hfinal. unfold modify_self at 1 in Hfinal.
  set (w0 := mkWorld _ _ _ _) in Hfinal.
  destruct (should_create_challenge_step P true (force_immediate_challenge (self w)) w0 P_other)
    as (w1 & Hret & (rest & Hcalls & Hrest) & Hflag).
  unfold bind at 1 in Hfinal. rewrite Hret in Hfinal. cbv beta iota in Hfinal.
  assert (respects P (if negb (eligible true (force_immediate_challenge (self w)) w0)
                      then ret false
                      else create_matchmaking_challenge active_games None true)) as Hnext.
  { destruct (negb _); [apply respects_ret|].
    apply respects_create_matchmaking_challenge; assumption. }
  destruct (Hnext w1) as [(new & Hcalls' & Hnew) Hflag'].
  rewrite <- Hfinal in Hcalls', Hflag'.
  split.
  - exists (rest ++ new)%list. split.
    + rewrite Hcalls', Hcalls. subst w0. simpl. rewrite <- app_assoc. reflexivity.
    + apply Forall_app. split; assumption.
  - rewrite Hflag', Hflag. reflexivity.
Qed.

(** A tick that starts with the flag off never checks eligibility with the
    minimum wait ignored. *)
Lemma tick_without_flag (w : World) (active_games : gset string)
    (challenge_queue : list Challenge) (max_games : Z) :
  force_immediate_challenge (self w) = false ->
  exists new : list Call,
    calls (world_of (challenge active_games challenge_queue max_games w))
    = (calls w ++ new)%list
    ∧ Forall (fun c => ignores_min_wait c = false) new.
Proof.
  intros Hoff.
  destruct challenge_queue as [|c queue];
    [|exists []; simpl; split; [symmetry; apply app_nil_r | constructor]].
  set (P := fun c : Call => ignores_min_wait c = false).
  assert (forall c, is_selection c = false -> is_eligibility_check c = false -> P c)
    as P_other by (intros [] Hsel Hchk; try reflexivity; discriminate).
  pose proof (challenge_after_background P active_games max_games w P_other
                eq_refl (fun _ => eq_refl)) as [(new & Hcalls & Hnew) _].
  destruct (background_cases w) as [Hdue|Hskip].
  - destruct (background_due_step P active_games w P_other eq_refl Hdue)
      as [(rest & Hcalls' & Hrest) _].
    rewrite Hoff in Hcalls'.
    exists (call_should_create_challenge true false :: rest ++ new)%list. split.
    + rewrite Hcalls, Hcalls', <- app_assoc. reflexivity.
    + constructor; [reflexivity|]. apply Forall_app. split; assumption.
  - rewrite Hskip in Hcalls. simpl in Hcalls. exists new. split; assumption.
Qed.

(** C8, as the code has it: after [correspondence_game_done], a tick with an
    empty challenge queue in which background replenishment is due (an enabled
    tracker whose correspondence count is below the target) first calls
    [should_create_challenge] with [ignore_postgame_timeout] and
    [ignore_min_wait] both true, and ends with the flag off whether or not a
    challenge is created; so no call of the following tick ignores the minimum
    wait. *)
Theorem forced_replacement_is_one_shot (w0 : World) (t : Z) (r : list nat)
    (active_games : gset string) (max_games : Z) :
  let w := next_tick t r (world_of (correspondence_game_done w0)) in
  let w' := world_of (challenge active_games [] max_games w) in
  background_due (self w) ->
  (exists rest : list Call,
      calls w' = (calls w0 ++ call_should_create_challenge true true :: rest)%list)
  ∧ force_immediate_challenge (self w') = false
  ∧ (forall (t' : Z) (r' : list nat) (active_games' : gset string)
            (challenge_queue' : list Challenge) (max_games' : Z),
        exists new : list Call,
          calls (world_of (challenge active_games' challenge_queue' max_games'
                             (next_tick t' r' w')))
          = (calls w' ++ new)%list
          ∧ Forall (fun c => ignores_min_wait c = false) new).
Proof.
  intros w w' Hdue.
  set (P := fun _ : Call => True).
  assert (forall c, is_selection c = false -> is_eligibility_check c = false -> P c)
    as P_other by (intros; exact I).
  destruct (background_due_step P active_games w P_other I Hdue)
    as [(rest & Hcalls & _) Hflag].
  destruct (challenge_after_background P active_games max_games w P_other I (fun _ => I))
    as [(new & Hcalls' & _) Hflag'].
  fold w' in Hcalls', Hflag'.
  assert (force_immediate_challenge (self w') = false) as Hoff by congruence.
  split; [|split].
  - exists (rest ++ new)%list. rewrite Hcalls', Hcalls. simpl. rewrite <- app_assoc. reflexivity.
  - exact Hoff.
  - intros t' r' active_games' challenge_queue' max_games'.
    apply (tick_without_flag (next_tick t' r' w')). exact Hoff.
Qed.

Lemma forced_replacement_is_one_shot_witness :
  force_immediate_challenge
    (self (world_of (challenge ∅ [] 3
                       (next_tick (seconds 120) []
                          (world_of (correspondence_game_done
                                       (mkWorld (scenario_matchmaking (Some (new_slots 3)))
                                                (seconds 100) [] [])))))))
  = false.
Proof.
  apply (forced_replacement_is_one_shot
           (mkWorld (scenario_matchmaking (Some (new_slots 3))) (seconds 100) [] [])
           (seconds 120) [] ∅ 3).
  exists (new_slots 3). vm_compute. auto.
Defined.

(** C8 as stated fails when replenishment is not due.  With the target met
    (one correspondence game is still running), the tick after
    [correspondence_game_done] checks eligibility without ignoring the minimum
    wait and ends with the flag still on; with a challenge waiting in the
    queue, the tick calls nothing and the flag stays on as well. *)
Lemma forced_replacement_not_consumed :
  (head (calls (world_of (challenge {[ "long_game" ]} [] 3
                            scenario_after_correspondence_game)))
   = Some (call_should_create_challenge false false)
   ∧ Forall (fun c => ignores_min_wait c = false)
            (calls (world_of (challenge {[ "long_game" ]} [] 3
                                scenario_after_correspondence_game)))
   ∧ force_immediate_challenge
       (self (world_of (challenge {[ "long_game" ]} [] 3
                          scenario_after_correspondence_game))) = true)
  ∧ (calls (world_of (challenge {[ "long_game" ]} [mkChallenge "blitz" false] 3
                        scenario_after_correspondence_game)) = []
     ∧ force_immediate_challenge
         (self (world_of (challenge {[ "long_game" ]} [mkChallenge "blitz" false] 3
                            scenario_after_correspondence_game)))
       = true).
Proof.
  split; [split; [|split]|split].
  - vm_compute. reflexivity.
  - apply Forall_forall. intros c Hc. apply list_elem_of_In in Hc.
    vm_compute in Hc. intuition (subst; reflexivity).
  - vm_compute. reflexivity.
  - reflexivity.
  - reflexivity.
Qed.

(** * Further properties of the tracker *)

Lemma short_or_long (speed : string) :
  bot_lane_for_speed speed = "short" ∨ bot_lane_for_speed speed = "long".
Proof. unfold bot_lane_for_speed. destruct (in_set speed BOT_SHORT_SPEEDS); auto. Qed.

(** X1: the real-time answers of a tracker agree with one another, in every
    state: a bot challenge of a real-time speed is accepted exactly when the
    lane of that speed is in [available_bot_lanes]; a correspondence move may
    start exactly when some lane is available; and whenever a lane is
    available a human challenge is accepted as well. *)
Theorem lane_answers_agree (s : MatchmakingSlots) (active_games : gset string) :
  (forall speed : string,
      is_correspondence_speed speed = false ->
      can_accept_bot_speed s speed active_games
      = in_set (bot_lane_for_speed speed) (available_bot_lanes s active_games))
  ∧ can_start_correspondence_move s active_games
    = truthy_set (available_bot_lanes s active_games)
  ∧ (truthy_set (available_bot_lanes s active_games) = true ->
     can_accept_human s active_games = true).
Proof.
  split; [|split].
  - intros speed Hreal. unfold can_accept_bot_speed, available_bot_lanes. rewrite Hreal.
    destruct (used_slots s active_games >=? max_games s); [reflexivity|].
    destruct (enabled s); simpl.
    + destruct (_bot_lane_counts s) as [short_count long_count].
      destruct (short_count + long_count >=? 2); [reflexivity|].
      destruct (short_or_long speed) as [-> | ->];
        destruct (short_count =? 0), (long_count =? 0); vm_compute; reflexivity.
    + destruct (short_or_long speed) as [-> | ->]; vm_compute; reflexivity.
  - unfold can_start_correspondence_move, available_bot_lanes.
    destruct (used_slots s active_games >=? max_games s); [reflexivity|].
    destruct (enabled s); reflexivity.
  - unfold available_bot_lanes, can_accept_human. rewrite Z.geb_leb.
    destruct (Z.leb_spec (max_games s) (used_slots s active_games)) as [Hfull|Hfree].
    + intros Habsurd. vm_compute in Habsurd. discriminate.
    + intros _. apply Z.ltb_lt, Hfree.
Qed.

Lemma lane_answers_agree_witness :
  can_accept_bot_speed (reserve_game (new_slots 3) "g" true "rapid") "bullet" {[ "g" ]}
  = in_set "short" (available_bot_lanes (reserve_game (new_slots 3) "g" true "rapid") {[ "g" ]})
  ∧ can_accept_human (reserve_game (new_slots 3) "g" true "rapid") {[ "g" ]} = true.
Proof.
  destruct (lane_answers_agree (reserve_game (new_slots 3) "g" true "rapid") {[ "g" ]})
    as (Hbot & _ & Hhuman).
  split.
  - apply (Hbot "bullet"). reflexivity.
  - apply Hhuman. vm_compute. reflexivity.
Defined.

(** ** Reservations as a lookup table *)

Lemma slot_for_game_enabled (s : MatchmakingSlots) (is_bot_game : bool) (speed : string) :
  enabled s = true ->
  _slot_for_game s is_bot_game speed
  = if is_correspondence_speed speed then "correspondence"
    else if is_bot_game then "bot_" +:+ bot_lane_for_speed speed else "human".
Proof.
  intros Hen. unfold _slot_for_game. rewrite Hen.
  destruct (is_correspondence_speed speed); [reflexivity|]. destruct is_bot_game; reflexivity.
Qed.

Lemma slot_for_game_is_correspondence (s : MatchmakingSlots) (is_bot_game : bool)
    (speed : string) :
  enabled s = true ->
  bool_decide (_slot_for_game s is_bot_game speed = CORRESPONDENCE_SPEED)
  = is_correspondence_speed speed.
Proof.
  intros Hen. rewrite slot_for_game_enabled by exact Hen.
  destruct (is_correspondence_speed speed); [reflexivity|].
  destruct is_bot_game; [|reflexivity].
  destruct (short_or_long speed) as [-> | ->]; reflexivity.
Qed.

(** X2: reservations read back.  With accounting on, an identifier has a
    reservation right after [reserve_game] or [reserve_outgoing_challenge],
    [is_correspondence] then tells whether the reserved speed was
    correspondence, and [release] removes the reservation; none of these
    touches the reservation of another identifier, and [confirm_game_start]
    touches none at all.  With accounting off nothing is ever reserved. *)
Theorem reservations_read_back (s : MatchmakingSlots) (id other : string)
    (is_bot_game : bool) (speed : string) :
  (enabled s = true ->
     has_reservation (reserve_game s id is_bot_game speed) id = true
     ∧ has_reservation (reserve_outgoing_challenge s id speed) id = true
     ∧ is_correspondence (reserve_game s id is_bot_game speed) id
       = is_correspondence_speed speed
     ∧ is_correspondence (reserve_outgoing_challenge s id speed) id
       = is_correspondence_speed speed
     ∧ has_reservation (release s id) id = false
     ∧ is_correspondence (release s id) id = false)
  ∧ (other ≠ id ->
     has_reservation (reserve_game s id is_bot_game speed) other = has_reservation s other
     ∧ has_reservation (reserve_outgoing_challenge s id speed) other = has_reservation s other
     ∧ has_reservation (release s id) other = has_reservation s other)
  ∧ has_reservation (confirm_game_start s id) other = has_reservation s other
  ∧ (enabled s = false ->
     has_reservation (reserve_game s id is_bot_game speed) id = false
     ∧ has_reservation (reserve_outgoing_challenge s id speed) id = false).
Proof.
  split; [|split; [|split]].
  - intros Hen.
    pose proof (slot_for_game_is_correspondence s is_bot_game speed Hen) as Hgame.
    pose proof (slot_for_game_is_correspondence s true speed Hen) as Hout.
    unfold has_reservation, is_correspondence, reserve_game, reserve_outgoing_challenge,
      release. rewrite Hen. simpl.
    refine (conj _ (conj _ (conj _ (conj _ (conj _ _))))).
    + rewrite lookup_insert_eq. apply bool_decide_eq_true. eauto.
    + destruct (is_correspondence_speed speed); simpl;
        rewrite lookup_insert_eq; apply bool_decide_eq_true; eauto.
    + rewrite lookup_insert_eq. rewrite <- Hgame.
      apply bool_decide_ext. split; [intros [= ->]; reflexivity | intros ->; reflexivity].
    + destruct (is_correspondence_speed speed) eqn:Hsp; simpl; rewrite lookup_insert_eq.
      * apply bool_decide_eq_true. apply bool_decide_eq_true in Hout. congruence.
      * apply bool_decide_eq_false. apply bool_decide_eq_false in Hout. congruence.
    + rewrite lookup_delete_eq. apply bool_decide_eq_false. intros [x Hx]. discriminate.
    + rewrite lookup_delete_eq. apply bool_decide_eq_false. discriminate.
  - intros Hne. unfold has_reservation, reserve_game, reserve_outgoing_challenge, release.
    destruct s as [mg en slots pend corr]. simpl. destruct en; simpl; [|auto].
    refine (conj _ (conj _ _)).
    + rewrite lookup_insert_ne by congruence. reflexivity.
    + destruct (is_correspondence_speed speed); simpl;
        rewrite lookup_insert_ne by congruence; reflexivity.
    + rewrite lookup_delete_ne by congruence. reflexivity.
  - unfold has_reservation, confirm_game_start.
    destruct s as [mg en slots pend corr]. simpl. destruct en; reflexivity.
  - intros Hen. unfold has_reservation, reserve_game, reserve_outgoing_challenge.
    rewrite Hen. simpl. rewrite Hen. auto.
Qed.

Lemma reservations_read_back_witness :
  has_reservation (reserve_outgoing_challenge (new_slots 3) "c" "correspondence") "c" = true
  ∧ is_correspondence (reserve_outgoing_challenge (new_slots 3) "c" "correspondence") "c" = true
  ∧ has_reservation (release (new_slots 3) "c") "g" = has_reservation (new_slots 3) "g"
  ∧ has_reservation (reserve_game (new_slots 2) "g" true "blitz") "g" = false.
Proof.
  destruct (reservations_read_back (new_slots 3) "c" "g" true "correspondence")
    as (Hon & Hother & _ & _).
  destruct (reservations_read_back (new_slots 2) "g" "c" true "blitz") as (_ & _ & _ & Hoff).
  refine (conj _ (conj _ (conj _ _))).
  - apply Hon. reflexivity.
  - exact (proj1 (proj2 (proj2 (proj2 (Hon eq_refl))))).
  - apply Hother. discriminate.
  - apply Hoff. reflexivity.
Defined.

(** ** Counting lanes across an update of the reservations *)

Lemma count_values_insert (p : string -> bool) (m : gmap string string) (k v : string) :
  count_where p (map_to_list (<[k := v]> m)).*2
  = count_where p (map_to_list (delete k m)).*2 + (if p v then 1 else 0).
Proof.
  rewrite <- (insert_delete_eq m k v).
  rewrite (count_where_perm p (map_to_list (<[k := v]> (delete k m))).*2
             (v :: (map_to_list (delete k m)).*2)).
  - unfold count_where. simpl. destruct (p v); simpl; lia.
  - rewrite map_to_list_insert by apply lookup_delete_eq. reflexivity.
Qed.

Lemma count_values_delete (p : string -> bool) (m : gmap string string) (k : string) :
  count_where p (map_to_list m).*2
  = count_where p (map_to_list (delete k m)).*2
    + match m !! k with Some old => if p old then 1 else 0 | None => 0 end.
Proof.
  destruct (m !! k) as [old|] eqn:Hk.
  - rewrite (count_where_perm p (map_to_list m).*2 (old :: (map_to_list (delete k m)).*2)).
    + unfold count_where. simpl. destruct (p old); simpl; lia.
    + rewrite <- (map_to_list_delete m k old Hk). reflexivity.
  - rewrite delete_id by exact Hk. lia.
Qed.

Lemma count_values_delete_le (p : string -> bool) (m : gmap string string) (k : string) :
  0 <= count_where p (map_to_list (delete k m)).*2 <= count_where p (map_to_list m).*2.
Proof.
  rewrite (count_values_delete p m k). split; [unfold count_where; lia|].
  destruct (m !! k) as [old|]; [destruct (p old)|]; lia.
Qed.

Lemma bot_lane_counts_enabled (s : MatchmakingSlots) :
  enabled s = true ->
  _bot_lane_counts s
  = (count_where (fun slot => String.eqb slot "bot_short") (map_to_list (slot_by_game_id s)).*2,
     count_where (fun slot => String.eqb slot "bot_long") (map_to_list (slot_by_game_id s)).*2).
Proof. intros Hen. unfold _bot_lane_counts, slot_values. rewrite Hen. reflexivity. Qed.

(** X3: a reservation made after [can_accept_bot_speed] said yes keeps the
    bot lanes single.  With accounting on, if a bot challenge of a real-time
    speed is accepted and is then reserved under any identifier (as a game or
    as an outgoing challenge), the tracker holds at most one short and at most
    one long bot reservation, and a further bot challenge of that speed is
    refused whatever the active games. *)
Theorem accepted_bot_reservation_keeps_lanes_single (s s' : MatchmakingSlots)
    (id speed : string) (active_games : gset string) :
  enabled s = true ->
  is_correspondence_speed speed = false ->
  can_accept_bot_speed s speed active_games = true ->
  s' = reserve_game s id true speed ∨ s' = reserve_outgoing_challenge s id speed ->
  fst (_bot_lane_counts s') <= 1
  ∧ snd (_bot_lane_counts s') <= 1
  ∧ (forall active_games' : gset string, can_accept_bot_speed s' speed active_games' = false).
Proof.
  intros Hen Hreal Hacc Hs'.
  assert (enabled s' = true
          ∧ slot_by_game_id s' = <[id := "bot_" +:+ bot_lane_for_speed speed]> (slot_by_game_id s))
    as [Hen' Hslots].
  { destruct Hs' as [-> | ->]; unfold reserve_game, reserve_outgoing_challenge;
      rewrite Hen; simpl; try rewrite Hreal; simpl;
      rewrite slot_for_game_enabled by exact Hen; rewrite Hreal; auto. }
  unfold can_accept_bot_speed in Hacc. rewrite Hreal, Hen in Hacc. simpl in Hacc.
  destruct (used_slots s active_games >=? max_games s); [discriminate|].
  rewrite (bot_lane_counts_enabled s Hen) in Hacc.
  set (short_count := count_where (fun slot => String.eqb slot "bot_short")
                        (map_to_list (slot_by_game_id s)).*2) in *.
  set (long_count := count_where (fun slot => String.eqb slot "bot_long")
                       (map_to_list (slot_by_game_id s)).*2) in *.
  destruct (Z.geb_spec (short_count + long_count) 2) as [|Hsum]; [discriminate|].
  pose proof (count_values_delete_le (fun slot => String.eqb slot "bot_short")
                (slot_by_game_id s) id) as Hshort.
  pose proof (count_values_delete_le (fun slot => String.eqb slot "bot_long")
                (slot_by_game_id s) id) as Hlong.
  fold short_count in Hshort. fold long_count in Hlong.
  assert (forall active_games', can_accept_bot_speed s' speed active_games' = false
            <-> (used_slots s' active_games' >=? max_games s' = true
                 ∨ fst (_bot_lane_counts s') + snd (_bot_lane_counts s') >= 2
                 ∨ (bot_lane_for_speed speed = "short" ∧ fst (_bot_lane_counts s') ≠ 0)
                 ∨ (bot_lane_for_speed speed = "long" ∧ snd (_bot_lane_counts s') ≠ 0)))
    as Hrefused.
  { intros active_games'. unfold can_accept_bot_speed. rewrite Hreal, Hen'. simpl.
    destruct (used_slots s' active_games' >=? max_games s'); [tauto|].
    destruct (_bot_lane_counts s') as [sc lc]. simpl.
    destruct (Z.geb_spec (sc + lc) 2); [split; [intros _; right; left; lia | reflexivity]|].
    destruct (short_or_long speed) as [Hl | Hl]; rewrite Hl; simpl;
      [destruct (Z.eqb_spec sc 0) | destruct (Z.eqb_spec lc 0)]; simpl;
      split; intros; try tauto; try discriminate;
      repeat match goal with
             | H : _ ∨ _ |- _ => destruct H
             | H : _ ∧ _ |- _ => destruct H
             end; try discriminate; try lia; try congruence. }
  rewrite (bot_lane_counts_enabled s' Hen') in *. rewrite Hslots in *. simpl in *.
  rewrite !count_values_insert in *.
  destruct (short_or_long speed) as [Hl | Hl]; rewrite Hl in *; simpl in *.
  - destruct (Z.eqb_spec short_count 0) as [Hzero|]; [|discriminate].
    split; [lia|]. split; [lia|].
    intros active_games'. apply Hrefused. right. right. left. split; [reflexivity | lia].
  - destruct (Z.eqb_spec long_count 0) as [Hzero|]; [|discriminate].
    split; [lia|]. split; [lia|].
    intros active_games'. apply Hrefused. right. right. right. split; [reflexivity | lia].
Qed.

Lemma accepted_bot_reservation_keeps_lanes_single_witness :
  fst (_bot_lane_counts
         (reserve_outgoing_challenge (reserve_game (new_slots 3) "g" true "rapid")
            "c" "blitz")) <= 1
  ∧ can_accept_bot_speed
      (reserve_outgoing_challenge (reserve_game (new_slots 3) "g" true "rapid") "c" "blitz")
      "blitz" ∅ = false.
Proof.
  assert (can_accept_bot_speed (reserve_game (new_slots 3) "g" true "rapid") "blitz"
            {[ "g" ]} = true) as Haccepted by (vm_compute; reflexivity).
  destruct (accepted_bot_reservation_keeps_lanes_single
              (reserve_game (new_slots 3) "g" true "rapid")
              (reserve_outgoing_challenge (reserve_game (new_slots 3) "g" true "rapid")
                 "c" "blitz")
              "c" "blitz" {[ "g" ]} eq_refl eq_refl Haccepted (or_intror eq_refl))
    as (Hshort & _ & Hrefused).
  split; [exact Hshort | apply Hrefused].
Defined.

(** ** [used_slots] across the operations *)

Lemma used_slots_enabled (s : MatchmakingSlots) (active_games : gset string) :
  enabled s = true ->
  used_slots s active_games
  = Z.of_nat (size active_games)
    + Z.of_nat (size (pending_outgoing_challenges s ∖ active_games)).
Proof.
  intros Hen. unfold used_slots. rewrite Hen. simpl.
  rewrite count_pending_not_active. reflexivity.
Qed.

Lemma size_discard_le (X active : gset string) (id : string) :
  (size ((X ∖ {[id]}) ∖ active) <= size (X ∖ active))%nat.
Proof.
  apply subseteq_size. intros x. rewrite !elem_of_difference. tauto.
Qed.

Lemma size_discard_active (X active : gset string) (id : string) :
  id ∈ active -> (X ∖ {[id]}) ∖ active = X ∖ active.
Proof.
  intros Hid. apply set_eq. intros x. rewrite !elem_of_difference, elem_of_singleton.
  split; [tauto|]. intros [Hx Hna]. split; [|exact Hna]. split; [exact Hx|].
  intros ->. contradiction.
Qed.

Lemma size_add_le (X active : gset string) (id : string) :
  (size (X ∖ active) <= size (({[id]} ∪ X) ∖ active) <= S (size (X ∖ active)))%nat.
Proof.
  split.
  - apply subseteq_size. intros x. rewrite !elem_of_difference, elem_of_union. tauto.
  - transitivity (size ({[id]} ∪ (X ∖ active) : gset string)).
    + apply subseteq_size. intros x.
      rewrite elem_of_difference, !elem_of_union, elem_of_difference. tauto.
    + rewrite size_union_alt, size_singleton.
      assert (size ((X ∖ active) ∖ {[id]}) <= size (X ∖ active))%nat; [|lia].
      apply subseteq_size. intros x. rewrite !elem_of_difference. tauto.
Qed.

Lemma size_add_active (X active : gset string) (id : string) :
  id ∈ active -> ({[id]} ∪ X) ∖ active = X ∖ active.
Proof.
  intros Hid. apply set_eq. intros x.
  rewrite !elem_of_difference, elem_of_union, elem_of_singleton.
  split; [|tauto]. intros [[-> | Hx] Hna]; [contradiction | tauto].
Qed.

(** X4: how the operations move [used_slots], for any set of active games.
    It is never below the number of active games.  [release],
    [confirm_game_start] and [reserve_game] never raise it, and
    [confirm_game_start] leaves it as it is when the confirmed game is among
    the active games.  [reserve_outgoing_challenge] raises it by at most one,
    and not at all for a correspondence challenge or for an identifier that is
    already an active game. *)
Theorem used_slots_across_operations (s : MatchmakingSlots) (id speed : string)
    (is_bot_game : bool) (active_games : gset string) :
  Z.of_nat (size active_games) <= used_slots s active_games
  ∧ used_slots (release s id) active_games <= used_slots s active_games
  ∧ used_slots (confirm_game_start s id) active_games <= used_slots s active_games
  ∧ used_slots (reserve_game s id is_bot_game speed) active_games <= used_slots s active_games
  ∧ used_slots s active_games
    <= used_slots (reserve_outgoing_challenge s id speed) active_games
    <= used_slots s active_games + 1
  ∧ (id ∈ active_games ->
     used_slots (confirm_game_start s id) active_games = used_slots s active_games
     ∧ used_slots (reserve_outgoing_challenge s id speed) active_games
       = used_slots s active_games)
  ∧ (is_correspondence_speed speed = true ->
     used_slots (reserve_outgoing_challenge s id speed) active_games
     = used_slots s active_games).
Proof.
  destruct (enabled s) eqn:Hen.
  - assert (enabled (release s id) = true) as Hrel
      by (unfold release; rewrite Hen; reflexivity).
    assert (enabled (confirm_game_start s id) = true) as Hconf
      by (unfold confirm_game_start; rewrite Hen; reflexivity).
    assert (enabled (reserve_game s id is_bot_game speed) = true) as Hgame
      by (unfold reserve_game; rewrite Hen; reflexivity).
    assert (enabled (reserve_outgoing_challenge s id speed) = true) as Hout
      by (unfold reserve_outgoing_challenge; rewrite Hen; simpl;
          destruct (is_correspondence_speed speed); reflexivity).
    rewrite (used_slots_enabled _ _ Hrel), (used_slots_enabled _ _ Hconf),
      (used_slots_enabled _ _ Hgame), (used_slots_enabled _ _ Hout),
      (used_slots_enabled _ _ Hen).
    unfold release, confirm_game_start, reserve_game, reserve_outgoing_challenge.
    rewrite Hen. simpl.
    pose proof (size_discard_le (pending_outgoing_challenges s) active_games id) as Hle.
    pose proof (size_add_le (pending_outgoing_challenges s) active_games id) as Hadd.
    refine (conj _ (conj _ (conj _ (conj _ (conj _ (conj _ _)))))); try lia.
    + destruct (is_correspondence_speed speed); simpl; lia.
    + intros Hid. rewrite (size_discard_active _ _ _ Hid). split; [reflexivity|].
      destruct (is_correspondence_speed speed); simpl; [reflexivity|].
      rewrite (size_add_active _ _ _ Hid). reflexivity.
    + intros ->. reflexivity.
  - unfold release, confirm_game_start, reserve_game, reserve_outgoing_challenge, used_slots.
    rewrite Hen. simpl. rewrite Hen. simpl. unfold len_set.
    refine (conj _ (conj _ (conj _ (conj _ (conj _ (conj _ _)))))); try lia; auto.
Qed.

Lemma used_slots_across_operations_witness :
  used_slots (confirm_game_start (reserve_outgoing_challenge (new_slots 3) "g" "blitz") "g")
    {[ "g" ]}
  = used_slots (reserve_outgoing_challenge (new_slots 3) "g" "blitz") {[ "g" ]}
  ∧ used_slots (reserve_outgoing_challenge (new_slots 3) "c" "correspondence") ∅
    = used_slots (new_slots 3) ∅.
Proof.
  split.
  - apply (used_slots_across_operations (reserve_outgoing_challenge (new_slots 3) "g" "blitz")
             "g" "blitz" true {[ "g" ]}).
    apply elem_of_singleton. reflexivity.
  - apply (used_slots_across_operations (new_slots 3) "c" "correspondence" true ∅).
    reflexivity.
Defined.

(** ** The correspondence lane *)




(** X6: a correspondence reservation under a fresh identifier rides along.
    With accounting on, reserving a correspondence game or outgoing challenge
    under an identifier that has no reservation (in a state where pending
    identifiers are reserved) adds one to the correspondence count and changes
    no real-time answer: the bot lane counts, [used_slots],
    [available_bot_lanes], [can_accept_human] and [can_accept_bot_speed] are
    as before. *)
Theorem fresh_correspondence_reservation_rides_along (s s' : MatchmakingSlots)
    (id speed : string) (is_bot_game : bool) :
  enabled s = true ->
  pending_reserved s ->
  slot_by_game_id s !! id = None ->
  is_correspondence_speed speed = true ->
  s' = reserve_game s id is_bot_game speed ∨ s' = reserve_outgoing_challenge s id speed ->
  correspondence_reservation_count s' = correspondence_reservation_count s + 1
  ∧ _bot_lane_counts s' = _bot_lane_counts s
  ∧ (forall active_games : gset string,
        used_slots s' active_games = used_slots s active_games
        ∧ available_bot_lanes s' active_games = available_bot_lanes s active_games
        ∧ can_accept_human s' active_games = can_accept_human s active_games
        ∧ (forall bot_speed : string,
              can_accept_bot_speed s' bot_speed active_games
              = can_accept_bot_speed s bot_speed active_games)).
Proof.
  intros Hen Hinv Hfresh Hcorr Hs'.
  assert (id ∉ pending_outgoing_challenges s) as Hnp.
  { intros Hin. destruct (Hinv id (or_introl Hin)) as [x Hx]. congruence. }
  assert (enabled s' = true ∧ max_games s' = max_games s
          ∧ slot_by_game_id s' = <[id := "correspondence"]> (slot_by_game_id s)
          ∧ pending_outgoing_challenges s' = pending_outgoing_challenges s)
    as (Hen' & Hmax & Hslots & Hpend).
  { destruct Hs' as [-> | ->]; unfold reserve_game, reserve_outgoing_challenge;
      rewrite Hen; simpl; try rewrite Hcorr; simpl;
      rewrite slot_for_game_enabled by exact Hen; rewrite Hcorr;
      repeat split; try reflexivity.
    apply difference_singleton_fresh, Hnp. }
  assert (correspondence_reservation_count s' = correspondence_reservation_count s + 1)
    as Hcount.
  { unfold correspondence_reservation_count, slot_values. rewrite Hen, Hen', Hslots. simpl.
    rewrite count_values_insert, delete_id by exact Hfresh. reflexivity. }
  assert (_bot_lane_counts s' = _bot_lane_counts s) as Hlanes.
  { rewrite (bot_lane_counts_enabled s Hen), (bot_lane_counts_enabled s' Hen'), Hslots.
    rewrite !count_values_insert, delete_id by exact Hfresh. simpl.
    rewrite !Z.add_0_r. reflexivity. }
  split; [exact Hcount|]. split; [exact Hlanes|].
  intros active_games.
  assert (used_slots s' active_games = used_slots s active_games) as Hused.
  { rewrite (used_slots_enabled s' _ Hen'), (used_slots_enabled s _ Hen), Hpend.
    reflexivity. }
  split; [exact Hused|].
  unfold available_bot_lanes, can_accept_human, can_accept_bot_speed,
    can_accept_correspondence.
  rewrite Hused, Hmax, Hen', Hen, Hlanes. auto.
Qed.

Lemma fresh_correspondence_reservation_rides_along_witness :
  correspondence_reservation_count
    (reserve_outgoing_challenge (reserve_game (new_slots 3) "g" true "rapid")
       "c" "correspondence")
  = correspondence_reservation_count (reserve_game (new_slots 3) "g" true "rapid") + 1.
Proof.
  apply (fresh_correspondence_reservation_rides_along
           (reserve_game (new_slots 3) "g" true "rapid")
           (reserve_outgoing_challenge (reserve_game (new_slots 3) "g" true "rapid")
              "c" "correspondence")
           "c" "correspondence" true).
  - reflexivity.
  - apply (pending_reserved_apply (new_slots 3) (op_reserve_game "g" true "rapid")).
    apply pending_reserved_new.
  - vm_compute. reflexivity.
  - reflexivity.
  - right. reflexivity.
Defined.

(** * Further properties of the time controls and the weights *)

Lemma game_category_standard (base_time increment num_days : Z) :
  game_category "standard" base_time increment num_days
  = if negb (num_days =? 0) then "correspondence"
    else if base_time + 40 * increment <? 179 then "bullet"
    else if base_time + 40 * increment <? 479 then "blitz"
    else if base_time + 40 * increment <? 1499 then "rapid"
    else "classical".
Proof.
  unfold game_category. cbn [negb String.eqb]. simpl.
  replace (base_time + increment * 40) with (base_time + 40 * increment) by lia.
  reflexivity.
Qed.

(** X7: the speed under which a matchmaking challenge is reserved.  For the
    standard variant [game_category] is correspondence exactly when the days
    are not zero, whatever the clock; otherwise it is one of bullet, blitz,
    rapid and classical (never ultraBullet), and its bot lane is short exactly
    when [base_time + 40 * increment] is below 479. *)
Theorem standard_category_and_lane (base_time increment num_days : Z) :
  is_correspondence_speed (game_category "standard" base_time increment num_days)
  = negb (num_days =? 0)
  ∧ (num_days = 0 ->
     In (game_category "standard" base_time increment num_days)
        ["bullet"; "blitz"; "rapid"; "classical"]
     ∧ bot_lane_for_speed (game_category "standard" base_time increment num_days)
       = if base_time + 40 * increment <? 479 then "short" else "long").
Proof.
  rewrite game_category_standard. split.
  - destruct (num_days =? 0); simpl; [|reflexivity].
    destruct (_ <? 179); [reflexivity|]. destruct (_ <? 479); [reflexivity|].
    destruct (_ <? 1499); reflexivity.
  - intros ->. simpl.
    destruct (Z.ltb_spec (base_time + 40 * increment) 179);
      destruct (Z.ltb_spec (base_time + 40 * increment) 479);
      destruct (Z.ltb_spec (base_time + 40 * increment) 1499);
      try lia; (split; [simpl; tauto | vm_compute; reflexivity]).
Qed.

Lemma standard_category_and_lane_witness :
  bot_lane_for_speed (game_category "standard" 180 2 0) = "short"
  ∧ bot_lane_for_speed (game_category "standard" 479 0 0) = "long".
Proof.
  split.
  - exact (proj2 (proj2 (standard_category_and_lane 180 2 0) eq_refl)).
  - exact (proj2 (proj2 (standard_category_and_lane 479 0 0) eq_refl)).
Defined.

(** ** [configured_time_controls] *)

Lemma lane_allowed_both (lane : string) :
  lane = "short" ∨ lane = "long" -> lane_allowed (Some {[ "short"; "long" ]}) lane = true.
Proof. intros [-> | ->]; vm_compute; reflexivity. Qed.

(** X8: what [configured_time_controls] returns.  A triple is in the result
    exactly when it is a real-time control [(base, increment, 0)] built from a
    configured base time and a configured increment (an unset list counting as
    one zero entry), not both zero, whose lane is allowed; or, when
    correspondence is included, a control [(0, 0, days)] built from a
    configured non-zero day count, the long lane being allowed.  So every
    control has a non-zero clock or non-zero days, never both, and without
    correspondence every control has zero days. *)
Theorem configured_time_controls_membership (match_config : MatchConfig)
    (allowed_bot_lanes : option (gset string)) (include_correspondence : bool)
    (base_time increment num_days : Z) :
  In (base_time, increment, num_days)
     (configured_time_controls match_config allowed_bot_lanes include_correspondence)
  <-> (num_days = 0
       ∧ (base_time ≠ 0 ∨ increment ≠ 0)
       ∧ (exists base, In base (or_none (challenge_initial_time match_config))
                       ∧ int_or_0 base = base_time)
       ∧ (exists inc, In inc (or_none (challenge_increment match_config))
                      ∧ int_or_0 inc = increment)
       ∧ lane_allowed allowed_bot_lanes
           (bot_lane_for_speed (game_category "standard" base_time increment 0)) = true)
      ∨ (include_correspondence = true
         ∧ base_time = 0 ∧ increment = 0 ∧ num_days ≠ 0
         ∧ (exists cfg_days, In cfg_days (challenge_days match_config)
                             ∧ int_or_0 cfg_days = num_days)
         ∧ lane_allowed allowed_bot_lanes "long" = true).
Proof.
  unfold configured_time_controls. rewrite in_app_iff.
  match goal with
  | |- ?A ∨ ?B <-> ?A' ∨ ?B' => cut ((A <-> A') ∧ (B <-> B')); [tauto | split]
  end.
  - rewrite in_flat_map. split.
    + intros (base & Hbase & Hin). apply in_flat_map in Hin as (inc & Hinc & Hin).
      destruct (Z.eqb_spec (int_or_0 base) 0) as [Hb|Hb];
        destruct (Z.eqb_spec (int_or_0 inc) 0) as [Hi|Hi]; simpl in Hin;
        try contradiction;
        (destruct (lane_allowed allowed_bot_lanes _) eqn:Hlane; simpl in Hin;
         [|contradiction]);
        (destruct Hin as [[= <- <- <-]|[]]);
        (split; [reflexivity|]); (split; [tauto|]);
        (split; [eauto|]); (split; [eauto|]); exact Hlane.
    + intros (-> & Hnz & (base & Hbase & <-) & (inc & Hinc & <-) & Hlane).
      exists base. split; [exact Hbase|]. apply in_flat_map. exists inc.
      split; [exact Hinc|].
      destruct (Z.eqb_spec (int_or_0 base) 0) as [Hb|Hb];
        destruct (Z.eqb_spec (int_or_0 inc) 0) as [Hi|Hi]; simpl;
        try (exfalso; tauto); rewrite Hlane; simpl; auto.
  - destruct include_correspondence; [|simpl; intuition discriminate].
    rewrite in_flat_map. split.
    + intros (cfg_days & Hdays & Hin).
      destruct (Z.eqb_spec (int_or_0 cfg_days) 0) as [Hd|Hd]; [contradiction|].
      destruct (lane_allowed allowed_bot_lanes "long") eqn:Hlane; [|contradiction].
      destruct Hin as [[= <- <- <-]|[]]. repeat split; eauto.
    + intros (_ & -> & -> & Hnz & (cfg_days & Hdays & <-) & Hlane).
      exists cfg_days. split; [exact Hdays|].
      destruct (Z.eqb_spec (int_or_0 cfg_days) 0) as [Hd|Hd]; [contradiction|].
      rewrite Hlane. simpl. auto.
Qed.

Lemma configured_time_controls_membership_witness :
  In (0, 0, 1) (configured_time_controls scenario_config (Some {[ "long" ]}) true).
Proof.
  apply (configured_time_controls_membership scenario_config (Some {[ "long" ]}) true 0 0 1).
  right. split; [reflexivity|]. split; [reflexivity|]. split; [reflexivity|].
  split; [discriminate|]. split; [|vm_compute; reflexivity].
  exists (Some 1). split; [left; reflexivity | reflexivity].
Defined.

Lemma flat_map_ext_in {A B} (f g : A -> list B) (l : list A) :
  (forall x, f x = g x) -> List.flat_map f l = List.flat_map g l.
Proof. intros Hfg. induction l as [|x rest IH]; simpl; [reflexivity|]. rewrite Hfg, IH. reflexivity. Qed.

Lemma flat_map_sublist {A B} (f g : A -> list B) (l : list A) :
  (forall x, f x `sublist_of` g x) -> List.flat_map f l `sublist_of` List.flat_map g l.
Proof.
  intros Hfg. induction l as [|x rest IH]; simpl; [constructor|].
  apply sublist_app; [apply Hfg | exact IH].
Qed.

(** X9: restricting the lanes only removes controls.  For every lane
    restriction the result of [configured_time_controls] is a sub-list, in
    order, of the unrestricted result ([allowed_bot_lanes] is [None]); with
    both lanes allowed it is the unrestricted result; and with no lane allowed
    it is empty. *)
Theorem configured_time_controls_lane_filter (match_config : MatchConfig)
    (lanes : gset string) (include_correspondence : bool) :
  configured_time_controls match_config (Some lanes) include_correspondence
    `sublist_of` configured_time_controls match_config None include_correspondence
  ∧ configured_time_controls match_config (Some {[ "short"; "long" ]}) include_correspondence
    = configured_time_controls match_config None include_correspondence
  ∧ configured_time_controls match_config (Some ∅) include_correspondence = [].
Proof.
  unfold configured_time_controls. split; [|split].
  - apply sublist_app.
    + apply flat_map_sublist. intros base. apply flat_map_sublist. intros inc. simpl.
      destruct (negb _); [constructor|].
      destruct (in_set _ lanes); [reflexivity | apply sublist_nil_l].
    + destruct include_correspondence; [|constructor].
      apply flat_map_sublist. intros cfg_days. simpl.
      destruct (_ =? 0); [constructor|].
      destruct (in_set "long" lanes); [reflexivity | apply sublist_nil_l].
  - f_equal.
    apply flat_map_ext_in. intros base. apply flat_map_ext_in. intros inc.
    destruct (negb _); [reflexivity|].
    rewrite lane_allowed_both by apply short_or_long. reflexivity.
  - assert (forall {A} (l : list A) (f : A -> list (Z * Z * Z)),
               (forall x, f x = []) -> List.flat_map f l = []) as Hempty.
    { intros A l f Hf. induction l as [|x rest IH]; simpl; [reflexivity|].
      rewrite Hf, IH. reflexivity. }
    rewrite Hempty.
    + destruct include_correspondence; [|reflexivity]. simpl. apply Hempty.
      intros cfg_days. destruct (_ =? 0); reflexivity.
    + intros base. apply Hempty. intros inc. destruct (negb _); reflexivity.
Qed.

(** ** [get_weights], the stated odds *)



(** * Further properties of the scheduler *)

(** ** What [should_create_challenge] does besides answering *)

Lemma should_create_challenge_world (ignore_postgame_timeout ignore_min_wait : bool)
    (w : World) :
  world_of (should_create_challenge ignore_postgame_timeout ignore_min_wait w)
  = if outstanding_challenge_expired w then
      {| self :=
           match slots (self w) with
           | Some s =>
               set_slots (Some (release s (challenge_id (self w))))
                         (set_challenge_id "" (self w))
           | None => set_challenge_id "" (self w)
           end;
         now := now w;
         rng := rng w;
         calls :=
           (calls w
            ++ [call_should_create_challenge ignore_postgame_timeout ignore_min_wait;
                call_li_cancel (challenge_id (self w))])%list |}
    else
      {| self := self w;
         now := now w;
         rng := rng w;
         calls :=
           (calls w
            ++ [call_should_create_challenge ignore_postgame_timeout ignore_min_wait])%list |}.
Proof.
  unfold outstanding_challenge_expired.
  unfold should_create_challenge, bind, record_call, get_self, perf_counter. simpl.
  destruct (is_expired (last_challenge_created_delay (self w)) (now w)
            && truthy_str (challenge_id (self w))).
  - unfold li_cancel, discard_challenge, with_slots, show_earliest_challenge_time,
      bind, record_call, get_self, modify_self, ret. simpl.
    rewrite String.eqb_refl. simpl. rewrite <- app_assoc. simpl.
    destruct (slots (self w)); reflexivity.
  - reflexivity.
Qed.

Lemma has_reservation_release (s : MatchmakingSlots) (id : string) :
  has_reservation (release s id) id = false.
Proof.
  destruct s as [mg en slots pend corr]. unfold has_reservation, release. simpl.
  destruct en; simpl; [|reflexivity].
  rewrite lookup_delete_eq. apply bool_decide_eq_false. intros [x Hx]. discriminate.
Qed.

(** X11: an expired outstanding challenge is cancelled once.  If on entry
    the challenge timer has run out and a challenge id is recorded,
    [should_create_challenge] calls [li.cancel] with that id and nothing else,
    clears the recorded id, and releases the id in the attached tracker, so it
    has no reservation left; at no later instant is there an expired
    outstanding challenge again, whatever the clock.  Otherwise the call
    contacts nothing and leaves the scheduler as it was. *)
Theorem expired_challenge_is_cancelled_once (ignore_postgame_timeout ignore_min_wait : bool)
    (w : World) :
  let w' := world_of (should_create_challenge ignore_postgame_timeout ignore_min_wait w) in
  (outstanding_challenge_expired w = true ->
     calls w'
     = (calls w ++ [call_should_create_challenge ignore_postgame_timeout ignore_min_wait;
                    call_li_cancel (challenge_id (self w))])%list
     ∧ challenge_id (self w') = ""
     ∧ (forall s, slots (self w) = Some s ->
          slots (self w') = Some (release s (challenge_id (self w)))
          ∧ has_reservation (release s (challenge_id (self w))) (challenge_id (self w))
            = false)
     ∧ (slots (self w) = None -> slots (self w') = None)
     ∧ (forall (t : Z) (r : list nat),
          outstanding_challenge_expired (next_tick t r w') = false))
  ∧ (outstanding_challenge_expired w = false ->
     self w' = self w
     ∧ calls w'
       = (calls w
          ++ [call_should_create_challenge ignore_postgame_timeout ignore_min_wait])%list).
Proof.
  intros w'. subst w'. rewrite should_create_challenge_world. split; intros Hexp; rewrite Hexp.
  - simpl. split; [reflexivity|].
    split; [destruct (slots (self w)); reflexivity|].
    split; [|split].
    + intros s Hs. rewrite Hs. simpl. split; [reflexivity|].
      apply has_reservation_release.
    + intros Hs. rewrite Hs. simpl. exact Hs.
    + intros t r. unfold outstanding_challenge_expired, next_tick. simpl.
      destruct (slots (self w)); simpl; apply andb_false_r.
  - simpl. auto.
Qed.

Lemma expired_challenge_is_cancelled_once_witness :
  calls (world_of (should_create_challenge false false
                     (scenario_outstanding (seconds 0) (seconds 30))))
  = [call_should_create_challenge false false; call_li_cancel "abc"].
Proof.
  apply (expired_challenge_is_cancelled_once false false
           (scenario_outstanding (seconds 0) (seconds 30))).
  vm_compute. reflexivity.
Defined.

(** ** Matchmaking switched off *)

Lemma should_create_challenge_keeps_config (ignore_postgame_timeout ignore_min_wait : bool)
    (w : World) :
  matchmaking_cfg
    (self (world_of (should_create_challenge ignore_postgame_timeout ignore_min_wait w)))
  = matchmaking_cfg (self w).
Proof.
  rewrite should_create_challenge_world.
  destruct (outstanding_challenge_expired w); simpl; [|reflexivity].
  destruct (slots (self w)); reflexivity.
Qed.

Lemma should_create_challenge_log (ignore_postgame_timeout ignore_min_wait : bool)
    (w : World) :
  exists new : list Call,
    calls (world_of (should_create_challenge ignore_postgame_timeout ignore_min_wait w))
    = (calls w ++ new)%list
    ∧ Forall (fun c => is_eligibility_check c = true ∨ exists id, c = call_li_cancel id) new.
Proof.
  rewrite should_create_challenge_world.
  destruct (outstanding_challenge_expired w); simpl; eexists; (split; [reflexivity|]).
  - constructor; [left; reflexivity|]. constructor; [right; eauto | constructor].
  - constructor; [left; reflexivity | constructor].
Qed.

Lemma disabled_not_eligible (ignore_postgame_timeout ignore_min_wait : bool) (w : World) :
  allow_matchmaking (matchmaking_cfg (self w)) = false ->
  eligible ignore_postgame_timeout ignore_min_wait w = false.
Proof. intros Hoff. unfold eligible, matchmaking_enabled. rewrite Hoff. reflexivity. Qed.

(** With matchmaking off, the real-time steps of [challenge] end where the
    background step ended, or after one more eligibility check. *)
Lemma challenge_main_disabled (active_games : gset string) (max_games : Z) (w w1 : World) :
  _challenge_for_background_correspondence active_games w = Returned false w1 ->
  allow_matchmaking (matchmaking_cfg (self w1)) = false ->
  challenge active_games [] max_games w = Returned tt w1
  ∨ challenge active_games [] max_games w
    = Returned tt (world_of (should_create_challenge false false w1)).
Proof.
  intros Hbg Hoff.
  remember (challenge active_games [] max_games w) as out eqn:Hout.
  unfold challenge in Hout. unfold bind at 1 in Hout. rewrite Hbg in Hout.
  cbv beta iota in Hout.
  unfold bind at 1 in Hout. unfold get_self at 1 in Hout. cbv beta iota in Hout.
  unfold bind at 1 in Hout. unfold perf_counter at 1 in Hout. cbv beta iota in Hout.
  destruct (len_set active_games >=? _); [left; exact Hout|].
  destruct (negb (truthy_set _)); [left; exact Hout|].
  destruct (_ && _); [left; exact Hout|].
  right. unfold bind in Hout.
  destruct (should_create_challenge_returns false false w1) as [w2 Hret].
  rewrite Hret in Hout. rewrite (disabled_not_eligible false false w1 Hoff) in Hout.
  rewrite Hret. exact Hout.
Qed.

(** X12: with matchmaking switched off ([allow_matchmaking] false),
    [challenge] returns normally and, whatever the state, the queue and the
    clock, it never selects an opponent and never sends a challenge: the only
    calls it makes are eligibility checks and the [li.cancel] of an expired
    outstanding challenge. *)
Theorem no_challenge_when_matchmaking_is_off (w : World) (active_games : gset string)
    (challenge_queue : list Challenge) (max_games : Z) :
  allow_matchmaking (matchmaking_cfg (self w)) = false ->
  result_of (challenge active_games challenge_queue max_games w) = Some tt
  ∧ exists new : list Call,
      calls (world_of (challenge active_games challenge_queue max_games w))
      = (calls w ++ new)%list
      ∧ Forall (fun c => is_eligibility_check c = true ∨ exists id, c = call_li_cancel id) new.
Proof.
  intros Hoff.
  destruct challenge_queue as [|c queue];
    [|split; [reflexivity|]; exists []; simpl; split; [symmetry; apply app_nil_r | constructor]].
  assert (exists w1,
             _challenge_for_background_correspondence active_games w = Returned false w1
             ∧ allow_matchmaking (matchmaking_cfg (self w1)) = false
             ∧ exists new, calls w1 = (calls w ++ new)%list
                 ∧ Forall (fun c => is_eligibility_check c = true
                                    ∨ exists id, c = call_li_cancel id) new)
    as (w1 & Hbg & Hoff1 & new1 & Hcalls1 & Hnew1).
  { destruct (background_cases w) as [(s & Hs & Hen & Htarget)|Hskip].
    - unfold _challenge_for_background_correspondence.
      unfold bind at 1. unfold get_self at 1. rewrite Hs, Hen. simpl. rewrite Htarget.
      unfold bind at 1. unfold modify_self at 1.
      set (w0 := mkWorld _ _ _ _).
      assert (allow_matchmaking (matchmaking_cfg (self w0)) = false) as Hoff0 by exact Hoff.
      destruct (should_create_challenge_returns true (force_immediate_challenge (self w)) w0)
        as [w1 Hret].
      exists w1. unfold bind. rewrite Hret.
      rewrite (disabled_not_eligible _ _ w0 Hoff0). split; [reflexivity|].
      assert (w1 = world_of (should_create_challenge true
                               (force_immediate_challenge (self w)) w0)) as ->
        by (rewrite Hret; reflexivity).
      split; [rewrite should_create_challenge_keeps_config; exact Hoff0|].
      apply (should_create_challenge_log true (force_immediate_challenge (self w)) w0).
    - exists w. split; [apply Hskip|]. split; [exact Hoff|].
      exists []. split; [symmetry; apply app_nil_r | constructor]. }
  destruct (challenge_main_disabled active_games max_games w w1 Hbg Hoff1) as [-> | ->].
  - split; [reflexivity|]. exists new1. split; assumption.
  - split; [reflexivity|]. simpl.
    destruct (should_create_challenge_log false false w1) as (new2 & Hcalls2 & Hnew2).
    exists (new1 ++ new2)%list. split.
    + rewrite Hcalls2, Hcalls1. symmetry. apply app_assoc.
    + apply Forall_app. split; assumption.
Qed.

Lemma no_challenge_when_matchmaking_is_off_witness :
  result_of (challenge ∅ [] 3
               (mkWorld (mkMatchmaking scenario_lichess ["standard"]
                           (mkCfg false true scenario_config [])
                           (mkProfile "test_bot" ∅)
                           (mkTimer (seconds 25) 0) (mkTimer (minutes 1) 0)
                           (mkTimer (minutes 5) 0) (seconds 60) (mkTimer (seconds 0) 0)
                           (minutes 10) "abc" false (target_int 1) ∅ FilterFINE
                           (Some (new_slots 3)))
                        (seconds 120) [] []))
  = Some tt.
Proof.
  apply (no_challenge_when_matchmaking_is_off
           (mkWorld (mkMatchmaking scenario_lichess ["standard"]
                       (mkCfg false true scenario_config [])
                       (mkProfile "test_bot" ∅)
                       (mkTimer (seconds 25) 0) (mkTimer (minutes 1) 0)
                       (mkTimer (minutes 5) 0) (seconds 60) (mkTimer (seconds 0) 0)
                       (minutes 10) "abc" false (target_int 1) ∅ FilterFINE
                       (Some (new_slots 3)))
                    (seconds 120) [] [])
           ∅ [] 3).
  reflexivity.
Defined.

(** ** [create_challenge] *)


Lemma create_challenge_with_control (name : string) (base_time increment num_days : Z)
    (variant mode : string) (w : World) :
  num_days ≠ 0 ∨ base_time ≠ 0 ∨ increment ≠ 0 ->
  let params :=
    if num_days =? 0
    then mkParams (String.eqb mode "rated") variant None (Some base_time) (Some increment)
    else mkParams (String.eqb mode "rated") variant (Some num_days) None None in
  let sent :=
    {| self := set_last_challenge_created_delay
                 (timer_reset (last_challenge_created_delay (self w)) (now w)) (self w);
       now := now w; rng := rng w;
       calls := (calls w ++ [call_create_challenge name base_time increment num_days variant mode;
                             call_li_challenge name params])%list |} in
  create_challenge name base_time increment num_days variant mode w
  = match li_challenge_answer (li (self w)) name params with
    | answer_response response =>
        if truthy_str (resp_id response) then Returned (resp_id response) sent
        else Returned (resp_id response)
               (world_of (handle_challenge_error_response response name sent))
    | answer_rate_limited timeout =>
        Returned "" {| self := set_rate_limit_timer (new_timer timeout (now w)) (self sent);
                       now := now w; rng := rng w; calls := calls sent |}
    | answer_error => Returned "" sent
    end.
Proof.
  intros Hcontrol params sent.
  assert (forall response w1,
             exists w2, handle_challenge_error_response response name w1 = Returned tt w2)
    as Hhandle.
  { intros response w1.
    unfold handle_challenge_error_response, show_earliest_challenge_time,
      add_challenge_filter, bind, perf_counter, modify_self, ret.
    destruct (resp_bot_is_rate_limited response); [eexists; reflexivity|].
    destruct (resp_opponent_is_rate_limited response); eexists; reflexivity. }
  subst params sent. unfold create_challenge.
  destruct (Z.eqb_spec num_days 0) as [Hd|Hd]; cbn [negb].
  - assert (negb (base_time =? 0) || negb (increment =? 0) = true) as ->.
    { destruct (Z.eqb_spec base_time 0), (Z.eqb_spec increment 0); simpl; try reflexivity.
      exfalso. tauto. }
    cbv beta iota zeta delta
      [try_except bind perf_counter modify_self li_challenge record_call get_self ret raise
       show_earliest_challenge_time self now rng calls li set_last_challenge_created_delay].
    rewrite <- !app_assoc. cbn [app].
    destruct (li_challenge_answer _ name _) as [response|timeout|]; try reflexivity.
    destruct (truthy_str (resp_id response)) eqn:Hid; cbn [negb]; [reflexivity|].
    match goal with
    | |- context [handle_challenge_error_response response name ?w1] =>
        destruct (Hhandle response w1) as [w2 Hw2]; rewrite Hw2
    end.
    reflexivity.
  - cbv beta iota zeta delta
      [try_except bind perf_counter modify_self li_challenge record_call get_self ret raise
       show_earliest_challenge_time self now rng calls li set_last_challenge_created_delay].
    rewrite <- !app_assoc. cbn [app].
    destruct (li_challenge_answer _ name _) as [response|timeout|]; try reflexivity.
    destruct (truthy_str (resp_id response)) eqn:Hid; cbn [negb]; [reflexivity|].
    match goal with
    | |- context [handle_challenge_error_response response name ?w1] =>
        destruct (Hhandle response w1) as [w2 Hw2]; rewrite Hw2
    end.
    reflexivity.
Qed.

Lemma handle_challenge_error_response_world (response : ChallengeType) (name : string)
    (w : World) :
  let w' := world_of (handle_challenge_error_response response name w) in
  calls w' = calls w ∧ now w' = now w
  ∧ last_challenge_created_delay (self w') = last_challenge_created_delay (self w)
  ∧ (resp_bot_is_rate_limited response = false ->
     challenge_type_acceptable (self w') !! (name, "")
     = Some (new_timer
               (if resp_opponent_is_rate_limited response
                then match resp_rate_limit_timeout response with
                     | Some d => if d =? 0 then days 1 else d
                     | None => days 1
                     end
                else days 1)
               (now w))).
Proof.
  unfold handle_challenge_error_response, show_earliest_challenge_time,
    add_challenge_filter, bind, perf_counter, modify_self, ret.
  destruct (resp_bot_is_rate_limited response); simpl.
  - repeat split; try reflexivity. discriminate.
  - destruct (resp_opponent_is_rate_limited response); simpl;
      (repeat split; try reflexivity); intros _; apply lookup_insert_eq.
Qed.



(** ** The acceptance memory and the block list *)

Lemma should_accept_challenge_outcome (name aspect : string) (w : World) :
  exists w' : World,
    should_accept_challenge name aspect w
    = Returned match challenge_type_acceptable (self w) !! (name, aspect) with
               | Some timer => is_expired timer (now w)
               | None => true
               end w'
    ∧ now w' = now w ∧ calls w' = calls w ∧ li (self w') = li (self w)
    ∧ user_profile (self w') = user_profile (self w)
    ∧ (forall key, key ≠ (name, aspect) ->
         challenge_type_acceptable (self w') !! key
         = challenge_type_acceptable (self w) !! key)
    ∧ is_Some (challenge_type_acceptable (self w') !! (name, aspect)).
Proof.
  unfold should_accept_challenge, bind, get_self, perf_counter, modify_self, ret.
  destruct (challenge_type_acceptable (self w) !! (name, aspect)) as [timer|] eqn:Hkey.
  - eexists. split; [reflexivity|]. repeat split; try reflexivity. rewrite Hkey. eauto.
  - eexists. split.
    + f_equal. unfold is_expired, new_timer, time_since_reset, seconds. simpl.
      apply Z.leb_le. lia.
    + simpl. repeat split; try reflexivity.
      * intros key Hne. apply lookup_insert_ne. congruence.
      * rewrite lookup_insert_eq. eauto.
Qed.

Lemma in_block_list_outcome (name : string) (w : World) :
  exists w' : World,
    in_block_list name w
    = Returned (negb match challenge_type_acceptable (self w) !! (name, "") with
                     | Some timer => is_expired timer (now w)
                     | None => true
                     end
                || online_block_listed (li (self w)) name) w'
    ∧ now w' = now w ∧ calls w' = calls w ∧ li (self w') = li (self w)
    ∧ user_profile (self w') = user_profile (self w)
    ∧ (forall key, key ≠ (name, "") ->
         challenge_type_acceptable (self w') !! key
         = challenge_type_acceptable (self w) !! key).
Proof.
  destruct (should_accept_challenge_outcome name "" w)
    as (w' & Hrun & Hnow & Hcalls & Hli & Hprofile & Hother & _).
  exists w'. unfold in_block_list, bind. rewrite Hrun.
  split; [|auto].
  destruct (match challenge_type_acceptable (self w) !! (name, "") with
            | Some timer => is_expired timer (now w)
            | None => true
            end); simpl; [|reflexivity].
  unfold get_self, ret. rewrite Hli. reflexivity.
Qed.

(** X14: the acceptance memory reads back what was written.  After
    [add_challenge_filter] for an opponent and an aspect, at any later clock
    reading [should_accept_challenge] for that pair is true exactly when the
    timeout has elapsed since the filter was added, where a missing or zero
    timeout counts as one day; for a pair never written it is true; and for the
    empty aspect, so also after [add_to_block_list] (ten years), until then
    [in_block_list] is true and [is_suitable_opponent] refuses every bot of that
    name, whatever its rating. *)
Theorem acceptance_memory_reads_back (name aspect : string) (timeout : option Z)
    (w : World) (t : Z) (r : list nat) (game_type : string) (min_rating max_rating : Z)
    (bot : UserProfileType) :
  let lasting :=
    match timeout with Some d => if d =? 0 then days 1 else d | None => days 1 end in
  let w' := next_tick t r (world_of (add_challenge_filter name aspect timeout w)) in
  result_of (should_accept_challenge name aspect w') = Some (lasting <=? t - now w)
  ∧ (challenge_type_acceptable (self w) !! (name, aspect) = None ->
     result_of (should_accept_challenge name aspect w) = Some true)
  ∧ (aspect = "" -> t - now w < lasting ->
     result_of (in_block_list name w') = Some true
     ∧ (p_username bot = name ->
        result_of (is_suitable_opponent game_type min_rating max_rating bot w') = Some false))
  ∧ world_of (add_to_block_list name w)
    = world_of (add_challenge_filter name "" (Some (years 10)) w).
Proof.
  intros lasting w'.
  assert (challenge_type_acceptable (self w') !! (name, aspect)
          = Some (new_timer lasting (now w)) ∧ now w' = t) as [Hkey Hnow].
  { subst w'. unfold add_challenge_filter, bind, perf_counter, modify_self. simpl.
    split; [apply lookup_insert_eq | reflexivity]. }
  split; [|split; [|split]].
  - destruct (should_accept_challenge_outcome name aspect w') as (w2 & -> & _).
    rewrite Hkey, Hnow. reflexivity.
  - intros Hnone. destruct (should_accept_challenge_outcome name aspect w) as (w2 & -> & _).
    rewrite Hnone. reflexivity.
  - intros -> Hrunning.
    assert (is_expired (new_timer lasting (now w)) t = false) as Hnot.
    { unfold is_expired, new_timer, time_since_reset. simpl. apply Z.leb_gt. exact Hrunning. }
    split.
    + destruct (in_block_list_outcome name w') as (w2 & -> & _).
      rewrite Hkey, Hnow, Hnot. reflexivity.
    + intros Hname. unfold is_suitable_opponent, bind, get_self. rewrite Hname.
      destruct (String.eqb name (username (self w'))); [reflexivity|].
      destruct (in_block_list_outcome name w') as (w2 & -> & _).
      rewrite Hkey, Hnow, Hnot. reflexivity.
  - reflexivity.
Qed.

Lemma acceptance_memory_reads_back_witness :
  result_of (in_block_list "rude_bot"
               (next_tick (days 300) []
                  (world_of (add_challenge_filter "rude_bot" "" (Some (years 10))
                               scenario_open_short_lane))))
  = Some true.
Proof.
  apply (acceptance_memory_reads_back "rude_bot" "" (Some (years 10))
           scenario_open_short_lane (days 300) [] "blitz" 0 0 (mkProfile "rude_bot" ∅)).
  - reflexivity.
  - vm_compute. reflexivity.
Defined.

(** X15: a challenge that Lichess answers without an id.  When
    [create_challenge] has a time control and the response carries no id: if
    the response says that we are rate limited, the rate-limit timer is
    restarted with the timeout of the response and the opponent is not
    filtered; otherwise the opponent goes on the block list, for the timeout
    of the response when the opponent is rate limited and a non-zero timeout
    is given, and for one day in every other case, and until then
    [in_block_list] answers true for that opponent. *)
Theorem unanswered_challenge_blocks_opponent (name : string)
    (base_time increment num_days : Z) (variant mode : string) (w : World)
    (response : ChallengeType) (t : Z) (r : list nat) :
  let params :=
    if num_days =? 0
    then mkParams (String.eqb mode "rated") variant None (Some base_time) (Some increment)
    else mkParams (String.eqb mode "rated") variant (Some num_days) None None in
  let w' := world_of (create_challenge name base_time increment num_days variant mode w) in
  let lasting :=
    if resp_opponent_is_rate_limited response
    then match resp_rate_limit_timeout response with
         | Some d => if d =? 0 then days 1 else d
         | None => days 1
         end
    else days 1 in
  num_days ≠ 0 ∨ base_time ≠ 0 ∨ increment ≠ 0 ->
  li_challenge_answer (li (self w)) name params = answer_response response ->
  resp_id response = "" ->
  (resp_bot_is_rate_limited response = true ->
     (forall timeout, resp_rate_limit_timeout response = Some timeout ->
        rate_limit_timer (self w') = new_timer timeout (now w))
     ∧ challenge_type_acceptable (self w') = challenge_type_acceptable (self w))
  ∧ (resp_bot_is_rate_limited response = false ->
     rate_limit_timer (self w') = rate_limit_timer (self w)
     ∧ (t - now w < lasting -> result_of (in_block_list name (next_tick t r w')) = Some true)
     ∧ (lasting <= t - now w ->
        result_of (should_accept_challenge name "" (next_tick t r w')) = Some true)).
Proof.
  intros params w' lasting Hcontrol Hanswer Hid.
  subst w'.
  rewrite (create_challenge_with_control name base_time increment num_days variant mode w
             Hcontrol).
  fold params. rewrite Hanswer, Hid. cbn [truthy_str String.eqb negb world_of].
  match goal with
  | |- context [handle_challenge_error_response response name ?w1] => set (sent := w1)
  end.
  split.
  - intros Hbot.
    unfold handle_challenge_error_response, show_earliest_challenge_time,
      add_challenge_filter, bind, perf_counter, modify_self, ret.
    rewrite Hbot. simpl. split; [|reflexivity].
    intros timeout ->. reflexivity.
  - intros Hbot.
    destruct (handle_challenge_error_response_world response name sent)
      as (_ & Hnow & _ & Hkey).
    specialize (Hkey Hbot). fold lasting in Hkey.
    change (now sent) with (now w) in Hkey.
    set (w' := world_of (handle_challenge_error_response response name sent)) in *.
    split; [|split].
    + subst w'.
      unfold handle_challenge_error_response, show_earliest_challenge_time,
        add_challenge_filter, bind, perf_counter, modify_self, ret.
      rewrite Hbot. destruct (resp_opponent_is_rate_limited response); reflexivity.
    + intros Hrunning.
      destruct (in_block_list_outcome name (next_tick t r w')) as (w2 & -> & _).
      simpl. rewrite Hkey.
      unfold is_expired, new_timer, time_since_reset. simpl.
      destruct (Z.leb_spec lasting (t - now w)); [lia | reflexivity].
    + intros Hover.
      destruct (should_accept_challenge_outcome name "" (next_tick t r w')) as (w2 & -> & _).
      simpl. rewrite Hkey.
      unfold is_expired, new_timer, time_since_reset. simpl.
      destruct (Z.leb_spec lasting (t - now w)); [reflexivity | lia].
Qed.

Lemma unanswered_challenge_blocks_opponent_witness :
  result_of
    (in_block_list "other_bot"
       (next_tick (seconds 3600) []
          (world_of
             (create_challenge "other_bot" 60 0 0 "standard" "rated"
                (mkWorld
                   (mkMatchmaking
                      (mkLichess [] (fun _ => None) None
                         (fun _ _ => answer_response (mkResponse "" false false None))
                         (fun _ => false))
                      ["standard"] (mkCfg true true scenario_config [])
                      (mkProfile "test_bot" ∅)
                      (mkTimer (seconds 25) 0) (mkTimer (minutes 1) 0)
                      (mkTimer (minutes 5) 0) (seconds 60) (mkTimer (seconds 0) 0)
                      (minutes 10) "" false (target_int 1) ∅ FilterFINE None)
                   (seconds 120) [] [])))))
  = Some true.
Proof.
  eapply (unanswered_challenge_blocks_opponent "other_bot" 60 0 0 "standard" "rated"
            _ (mkResponse "" false false None) (seconds 3600) []).
  - right. left. discriminate.
  - reflexivity.
  - reflexivity.
  - reflexivity.
  - vm_compute. reflexivity.
Defined.

(** ** The callbacks *)

(** X16: an accepted challenge is not cancelled later.  After
    [accepted_challenge] for the recorded outstanding challenge, no challenge
    id is recorded, so whatever the later clock reading
    [should_create_challenge] finds no expired outstanding challenge and calls
    no [li.cancel]; in the attached tracker the game is no longer pending but
    keeps its reservation.  For any other id the recorded id stays. *)
Theorem accepted_challenge_is_not_cancelled (game_id : string) (w : World) (t : Z)
    (r : list nat) (ignore_postgame_timeout ignore_min_wait : bool) :
  let w' := world_of (accepted_challenge game_id w) in
  (challenge_id (self w) = game_id ->
     challenge_id (self w') = ""
     ∧ calls (world_of (should_create_challenge ignore_postgame_timeout ignore_min_wait
                          (next_tick t r w')))
       = (calls w ++ [call_should_create_challenge ignore_postgame_timeout ignore_min_wait])%list)
  ∧ (challenge_id (self w) ≠ game_id -> challenge_id (self w') = challenge_id (self w))
  ∧ (forall s, slots (self w) = Some s ->
       slots (self w') = Some (confirm_game_start s game_id)
       ∧ has_reservation (confirm_game_start s game_id) game_id = has_reservation s game_id
       ∧ (enabled s = true ->
          game_id ∉ pending_outgoing_challenges (confirm_game_start s game_id)
          ∧ game_id ∉ pending_outgoing_correspondence (confirm_game_start s game_id))).
Proof.
  intros w'.
  assert (challenge_id (self w')
          = (if String.eqb (challenge_id (self w)) game_id then "" else challenge_id (self w))
          ∧ calls w' = calls w
          ∧ slots (self w') = option_map (fun s => confirm_game_start s game_id) (slots (self w)))
    as (Hid & Hcalls & Hslots).
  { subst w'. unfold accepted_challenge, discard_challenge, with_slots, bind, get_self,
      modify_self, ret.
    destruct (String.eqb (challenge_id (self w)) game_id); simpl;
      destruct (slots (self w)) eqn:Hs; simpl; rewrite ?Hs; auto. }
  split; [|split].
  - intros Heq. rewrite Heq, String.eqb_refl in Hid. split; [exact Hid|].
    rewrite should_create_challenge_world.
    unfold outstanding_challenge_expired, next_tick. simpl. rewrite Hid. simpl.
    rewrite andb_false_r. simpl. rewrite Hcalls. reflexivity.
  - intros Hne. apply String.eqb_neq in Hne. rewrite Hne in Hid. exact Hid.
  - intros s Hs. rewrite Hs in Hslots. split; [exact Hslots|].
    destruct s as [mg en slots pend corr]. unfold has_reservation, confirm_game_start. simpl.
    destruct en; simpl; split; try reflexivity.
    + intros _. split; intros Hin; apply elem_of_discard in Hin; tauto.
    + discriminate.
Qed.

Lemma accepted_challenge_is_not_cancelled_witness :
  challenge_id
    (self (world_of (accepted_challenge "abc" (scenario_outstanding (seconds 0) (seconds 10)))))
  = "".
Proof.
  apply (accepted_challenge_is_not_cancelled "abc"
           (scenario_outstanding (seconds 0) (seconds 10)) 0 [] false false).
  reflexivity.
Defined.

(** X17: the post-game cooldown.  After [game_done], at any clock reading
    before the cooldown has run its duration, [should_create_challenge] with
    no flag to ignore it answers true only through an expired outstanding
    challenge: its answer is matchmaking enabled AND outstanding challenge
    expired AND minimum wait over or ignored.  Once the duration has run, and
    always when the cooldown is ignored, the cooldown does not count. *)
Theorem game_done_starts_cooldown (w : World) (t : Z) (r : list nat)
    (ignore_min_wait : bool) :
  let w' := next_tick t r (world_of (game_done w)) in
  (t - now w < duration (last_game_ended_delay (self w)) ->
     result_of (should_create_challenge false ignore_min_wait w')
     = Some (matchmaking_enabled w'
             && outstanding_challenge_expired w'
             && (ignore_min_wait || min_wait_elapsed w')))
  ∧ (duration (last_game_ended_delay (self w)) <= t - now w ->
     result_of (should_create_challenge false ignore_min_wait w')
     = result_of (should_create_challenge true ignore_min_wait w'))
  ∧ result_of (should_create_challenge true ignore_min_wait w')
    = result_of (should_create_challenge true ignore_min_wait (next_tick t r w)).
Proof.
  intros w'.
  assert (postgame_cooldown_over w'
          = (duration (last_game_ended_delay (self w)) <=? t - now w)) as Hcool.
  { subst w'. unfold game_done, show_earliest_challenge_time, bind, perf_counter, modify_self,
      ret, postgame_cooldown_over, is_expired, time_since_reset. reflexivity. }
  assert (forall a b, result_of (should_create_challenge a b w') = Some (eligible a b w'))
    as Hanswer.
  { intros a b. destruct (should_create_challenge_returns a b w') as [w2 ->]. reflexivity. }
  split; [|split].
  - intros Hrunning. rewrite Hanswer. unfold eligible. rewrite Hcool.
    destruct (Z.leb_spec (duration (last_game_ended_delay (self w))) (t - now w)); [lia|].
    reflexivity.
  - intros Hover. rewrite !Hanswer. unfold eligible. rewrite Hcool.
    destruct (Z.leb_spec (duration (last_game_ended_delay (self w))) (t - now w)); [|lia].
    reflexivity.
  - rewrite Hanswer.
    destruct (should_create_challenge_returns true ignore_min_wait (next_tick t r w))
      as [w2 ->].
    reflexivity.
Qed.

Lemma game_done_starts_cooldown_witness :
  result_of (should_create_challenge false false
               (next_tick (seconds 130) [] (world_of (game_done scenario_open_short_lane))))
  = Some false.
Proof.
  rewrite (proj1 (game_done_starts_cooldown scenario_open_short_lane (seconds 130) [] false)).
  - vm_compute. reflexivity.
  - vm_compute. reflexivity.
Defined.

Lemma update_user_profile_world (w : World) :
  update_user_profile w
  = if is_expired (last_user_profile_update_time (self w)) (now w) then
      Returned tt
        {| self :=
             match li_profile (li (self w)) with
             | Some profile =>
                 set_user_profile profile
                   (set_last_user_profile_update_time
                      (timer_reset (last_user_profile_update_time (self w)) (now w)) (self w))
             | None =>
                 set_last_user_profile_update_time
                   (timer_reset (last_user_profile_update_time (self w)) (now w)) (self w)
             end;
           now := now w; rng := rng w;
           calls := (calls w ++ [call_li_get_profile])%list |}
    else Returned tt w.
Proof.
  unfold update_user_profile, bind at 1, get_self at 1. cbv beta iota.
  unfold bind at 1, perf_counter at 1. cbv beta iota.
  destruct (is_expired (last_user_profile_update_time (self w)) (now w)); [|reflexivity].
  cbv beta iota zeta delta
    [try_except bind modify_self li_get_profile record_call get_self ret raise].
  simpl. destruct (li_profile (li (self w))); reflexivity.
Qed.

(** X18: [update_user_profile].  It never raises.  While the refresh timer
    runs it does nothing at all.  Once the timer has run out it restarts the
    timer, asks Lichess for the profile exactly once, and takes the answer as
    the new profile; if Lichess raises, the old profile stays.  In both cases
    nothing else of the scheduler changes. *)
Theorem update_user_profile_outcomes (w : World) :
  let w' := world_of (update_user_profile w) in
  result_of (update_user_profile w) = Some tt
  ∧ (is_expired (last_user_profile_update_time (self w)) (now w) = false -> w' = w)
  ∧ (is_expired (last_user_profile_update_time (self w)) (now w) = true ->
     calls w' = (calls w ++ [call_li_get_profile])%list
     ∧ last_user_profile_update_time (self w')
       = timer_reset (last_user_profile_update_time (self w)) (now w)
     ∧ user_profile (self w') = default (user_profile (self w)) (li_profile (li (self w)))
     ∧ self w'
       = set_user_profile (user_profile (self w'))
           (set_last_user_profile_update_time (last_user_profile_update_time (self w'))
              (self w))).
Proof.
  intros w'. subst w'. rewrite update_user_profile_world.
  destruct (is_expired (last_user_profile_update_time (self w)) (now w)).
  - destruct (li_profile (li (self w))) as [profile|]; simpl;
      (split; [reflexivity|]); (split; [discriminate|]); intros _;
      repeat split; reflexivity.
  - split; [reflexivity|]. split; [reflexivity | discriminate].
Qed.

Lemma update_user_profile_outcomes_witness :
  world_of (update_user_profile scenario_open_short_lane) = scenario_open_short_lane.
Proof.
  apply (update_user_profile_outcomes scenario_open_short_lane).
  vm_compute. reflexivity.
Defined.

(** ** Stepping through a run *)

Lemma bind_returned {A B} (c : M A) (k : A -> M B) (w w' : World) (b : B) :
  bind c k w = Returned b w' ->
  exists (a : A) (w1 : World), c w = Returned a w1 ∧ k a w1 = Returned b w'.
Proof.
  unfold bind. destruct (c w) as [a w1|e w1]; [eauto | discriminate].
Qed.

Lemma try_except_returned {A} (body : M A) (handler : Exn -> M A) (w w' : World) (a : A) :
  try_except body handler w = Returned a w' ->
  body w = Returned a w'
  ∨ exists (e : Exn) (w1 : World), body w = Raised e w1 ∧ handler e w1 = Returned a w'.
Proof.
  unfold try_except. destruct (body w) as [a1 w1|e w1]; [intros [= <- <-]; auto | eauto].
Qed.

Lemma next_random_frame (w : World) :
  self (world_of (next_random w)) = self w
  ∧ now (world_of (next_random w)) = now w
  ∧ calls (world_of (next_random w)) = calls w.
Proof. unfold next_random. destruct (rng w); simpl; auto. Qed.

Lemma random_choice_frame {A} (seq : list A) (w : World) :
  self (world_of (random_choice seq w)) = self w
  ∧ now (world_of (random_choice seq w)) = now w
  ∧ calls (world_of (random_choice seq w)) = calls w.
Proof.
  unfold random_choice. destruct seq as [|x rest]; [simpl; auto|].
  unfold bind. pose proof (next_random_frame w) as Hf.
  destruct (next_random w) as [r w1|e w1]; simpl in *; [|exact Hf].
  destruct (_ !! _); simpl; exact Hf.
Qed.

Lemma random_choice_returned {A} (seq : list A) (w w' : World) (x : A) :
  random_choice seq w = Returned x w' -> In x seq.
Proof.
  unfold random_choice. destruct seq as [|y rest]; [discriminate|].
  unfold bind. destruct (next_random w) as [r w1|e w1]; [|discriminate].
  destruct ((y :: rest) !! _) as [z|] eqn:Hz; [|discriminate].
  intros [= <- _]. apply list_elem_of_In. eapply list_elem_of_lookup_2. exact Hz.
Qed.

Lemma pick_by_weight_in {A} (population : list A) (weights : list Z) (x : Z) (a : A) :
  pick_by_weight population weights x = Some a -> In a population.
Proof.
  revert weights x. induction population as [|b rest IH]; intros weights x; [discriminate|].
  destruct rest as [|b' rest'].
  - simpl. intros [= ->]. auto.
  - destruct weights as [|wt weights']; [simpl; intros [= ->]; auto|].
    change (pick_by_weight (b :: b' :: rest') (wt :: weights') x)
      with (if x <? wt then Some b else pick_by_weight (b' :: rest') weights' (x - wt)).
    destruct (x <? wt); [intros [= ->]; left; reflexivity|].
    intros Hpick. right. eapply IH. exact Hpick.
Qed.

Lemma random_choices_frame {A} (population : list A) (weights : list Z) (w : World) :
  self (world_of (random_choices population weights w)) = self w
  ∧ now (world_of (random_choices population weights w)) = now w
  ∧ calls (world_of (random_choices population weights w)) = calls w.
Proof.
  unfold random_choices. destruct (negb _); [simpl; auto|].
  destruct population as [|x rest] eqn:Hpop; [simpl; auto|]. rewrite <- Hpop.
  destruct (_ <=? 0); [simpl; auto|].
  unfold bind. pose proof (next_random_frame w) as Hf.
  destruct (next_random w) as [r w1|e w1]; cbn [world_of] in *; [|exact Hf].
  match goal with
  | |- context [pick_by_weight ?p ?ws ?y] => destruct (pick_by_weight p ws y)
  end; exact Hf.
Qed.

Lemma random_choices_returned {A} (population : list A) (weights : list Z) (w w' : World)
    (x : A) :
  random_choices population weights w = Returned x w' -> In x population.
Proof.
  unfold random_choices. destruct (negb _); [discriminate|].
  destruct population as [|y rest] eqn:Hpop; [discriminate|]. rewrite <- Hpop.
  destruct (_ <=? 0); [discriminate|].
  unfold bind. destruct (next_random w) as [r w1|e w1]; [|discriminate].
  match goal with
  | |- context [pick_by_weight ?p ?ws ?y] =>
      destruct (pick_by_weight p ws y) as [z|] eqn:Hz; [|discriminate]
  end.
  intros [= <- _]. eapply pick_by_weight_in. exact Hz.
Qed.

Lemma get_random_config_value_frame (value : string) (choices : list string) (w : World) :
  self (world_of (get_random_config_value value choices w)) = self w
  ∧ now (world_of (get_random_config_value value choices w)) = now w
  ∧ calls (world_of (get_random_config_value value choices w)) = calls w.
Proof.
  unfold get_random_config_value. destruct (negb _); [simpl; auto|].
  apply random_choice_frame.
Qed.

Lemma get_random_config_value_returned (value : string) (choices : list string)
    (w w' : World) (x : string) :
  get_random_config_value value choices w = Returned x w' ->
  (value ≠ "random" ∧ x = value) ∨ (value = "random" ∧ In x choices).
Proof.
  unfold get_random_config_value.
  destruct (String.eqb_spec value "random") as [->|Hne]; simpl.
  - intros Hrun. right. split; [reflexivity|]. eapply random_choice_returned. exact Hrun.
  - intros [= <- _]. left. auto.
Qed.

(** X19: [get_random_config_value] and [random.choice].  A configured value
    other than "random" is returned as it is, without drawing; for "random"
    the result is one of the choices, and the call raises exactly when there
    is no choice; in no case does the scheduler or the log change. *)
Theorem get_random_config_value_outcomes (value : string) (choices : list string)
    (w : World) :
  (value ≠ "random" -> get_random_config_value value choices w = Returned value w)
  ∧ (value = "random" ->
     (choices = [] -> result_of (get_random_config_value value choices w) = None)
     ∧ (choices ≠ [] ->
        exists x, result_of (get_random_config_value value choices w) = Some x ∧ In x choices))
  ∧ self (world_of (get_random_config_value value choices w)) = self w
  ∧ calls (world_of (get_random_config_value value choices w)) = calls w.
Proof.
  split; [|split; [|split]].
  - intros Hne. unfold get_random_config_value.
    destruct (String.eqb_spec value "random"); [contradiction | reflexivity].
  - intros ->. unfold get_random_config_value. simpl. split.
    + intros ->. reflexivity.
    + intros Hne. destruct choices as [|c rest] eqn:Hc; [contradiction|]. rewrite <- Hc.
      assert (exists x w', random_choice choices w = Returned x w') as (x & w' & Hrun).
      { unfold random_choice. rewrite Hc. rewrite <- Hc. unfold bind.
        destruct (next_random w) as [r w1|e w1] eqn:Hr.
        - assert (r mod length choices < length choices)%nat as Hlt
            by (apply Nat.mod_upper_bound; rewrite Hc; discriminate).
          destruct (lookup_lt_is_Some_2 choices _ Hlt) as [x Hx]. rewrite Hx. eauto.
        - unfold next_random in Hr. destruct (rng w); discriminate. }
      exists x. rewrite Hrun. split; [reflexivity|].
      eapply random_choice_returned. exact Hrun.
  - apply get_random_config_value_frame.
  - apply get_random_config_value_frame.
Qed.

Lemma get_random_config_value_outcomes_witness :
  get_random_config_value "atomic" ["standard"; "chess960"; "atomic"; "horde"]
    scenario_open_short_lane
  = Returned "atomic" scenario_open_short_lane.
Proof.
  apply (get_random_config_value_outcomes "atomic" ["standard"; "chess960"; "atomic"; "horde"]
           scenario_open_short_lane).
  discriminate.
Defined.

(** ** The filters of [choose_opponent] *)

Lemma memory_frame_refl (w : World) : memory_frame w w.
Proof. unfold memory_frame. destruct w as [m t r c]. destruct m. simpl. auto. Qed.

Lemma memory_frame_trans (w1 w2 w3 : World) :
  memory_frame w1 w2 -> memory_frame w2 w3 -> memory_frame w1 w3.
Proof.
  unfold memory_frame. intros (H1 & N1 & C1) (H2 & N2 & C2).
  split; [|split; congruence]. rewrite H2, H1. destruct (self w1). reflexivity.
Qed.

Lemma memory_frame_fields (w w' : World) :
  memory_frame w w' ->
  li (self w') = li (self w) ∧ user_profile (self w') = user_profile (self w)
  ∧ slots (self w') = slots (self w) ∧ challenge_id (self w') = challenge_id (self w)
  ∧ challenge_filter (self w') = challenge_filter (self w)
  ∧ matchmaking_cfg (self w') = matchmaking_cfg (self w)
  ∧ variants (self w') = variants (self w)
  ∧ last_challenge_created_delay (self w') = last_challenge_created_delay (self w)
  ∧ force_immediate_challenge (self w') = force_immediate_challenge (self w).
Proof. intros (-> & _ & _). simpl. repeat split; reflexivity. Qed.

Lemma memory_grows_refl (w : World) : memory_grows w w.
Proof. split; [apply memory_frame_refl | auto]. Qed.

Lemma memory_grows_trans (w1 w2 w3 : World) :
  memory_grows w1 w2 -> memory_grows w2 w3 -> memory_grows w1 w3.
Proof.
  intros [F1 G1] [F2 G2]. split; [eapply memory_frame_trans; eauto | auto].
Qed.

Lemma should_accept_challenge_frame (name aspect : string) (w : World) :
  exists (b : bool) (w' : World),
    should_accept_challenge name aspect w = Returned b w' ∧ memory_grows w w'.
Proof.
  unfold should_accept_challenge, bind, get_self, perf_counter, modify_self, ret.
  destruct (challenge_type_acceptable (self w) !! (name, aspect)) eqn:Hkey.
  - eexists. eexists. split; [reflexivity | apply memory_grows_refl].
  - eexists. eexists. split; [reflexivity|]. split.
    + unfold memory_frame. simpl. auto.
    + simpl. intros key timer Hstored. rewrite lookup_insert_ne; [exact Hstored|].
      intros <-. congruence.
Qed.

Lemma filterM_returned {A} (p : A -> M bool) (R : World -> World -> Prop) (Q : A -> Prop)
    (l : list A) (w0 : World) :
  (forall w, R w w) ->
  (forall w1 w2 w3, R w1 w2 -> R w2 w3 -> R w1 w3) ->
  (forall x w, R w0 w -> exists b w', p x w = Returned b w' ∧ R w w' ∧ (b = true -> Q x)) ->
  forall w, R w0 w ->
    exists kept w',
      filterM p l w = Returned kept w' ∧ R w w' ∧ Forall Q kept
      ∧ (forall x, In x kept -> In x l).
Proof.
  intros Hrefl Htrans Hp. induction l as [|x rest IH]; intros w Hw; simpl.
  - exists [], w. split; [reflexivity|]. split; [apply Hrefl|]. split; [constructor | auto].
  - destruct (Hp x w Hw) as (b & w1 & Hx & HR1 & HQ).
    destruct (IH w1 (Htrans _ _ _ Hw HR1)) as (kept & w2 & Hrest & HR2 & Hall & Hsub).
    unfold bind. rewrite Hx, Hrest.
    exists (if b then x :: kept else kept), w2.
    split; [reflexivity|]. split; [eapply Htrans; eauto|].
    destruct b.
    + split; [constructor; auto|]. intros y [->|Hy]; [left; reflexivity | right; auto].
    + split; [exact Hall|]. intros y Hy. right. auto.
Qed.

Lemma allM_returned {A} (p : A -> M bool) (R : World -> World -> Prop) (l : list A) :
  (forall w, R w w) ->
  (forall w1 w2 w3, R w1 w2 -> R w2 w3 -> R w1 w3) ->
  (forall x w, exists b w', p x w = Returned b w' ∧ R w w') ->
  forall w, exists b w', allM p l w = Returned b w' ∧ R w w'.
Proof.
  intros Hrefl Htrans Hp. induction l as [|x rest IH]; intros w; simpl.
  - exists true, w. auto.
  - destruct (Hp x w) as (b & w1 & Hx & HR1). unfold bind. rewrite Hx.
    destruct b.
    + destruct (IH w1) as (b' & w2 & Hrest & HR2). exists b', w2. eauto.
    + exists false, w1. auto.
Qed.

Lemma is_suitable_opponent_returned (game_type : string) (min_rating max_rating : Z)
    (bot : UserProfileType) (w : World) :
  exists (b : bool) (w' : World),
    is_suitable_opponent game_type min_rating max_rating bot w = Returned b w'
    ∧ memory_grows w w'
    ∧ (b = true ->
       p_username bot ≠ username (self w)
       ∧ online_block_listed (li (self w)) (p_username bot) = false
       ∧ (forall timer,
            challenge_type_acceptable (self w) !! (p_username bot, "") = Some timer ->
            is_expired timer (now w) = true)
       ∧ 0 < games_played game_type bot
       ∧ min_rating <= rating game_type bot <= max_rating).
Proof.
  unfold is_suitable_opponent, bind, get_self.
  destruct (String.eqb_spec (p_username bot) (username (self w))) as [Heq|Hne].
  - exists false, w. split; [reflexivity|]. split; [apply memory_grows_refl | discriminate].
  - destruct (should_accept_challenge_frame (p_username bot) "" w) as (b0 & w1 & Hrun & Hframe).
    destruct (should_accept_challenge_outcome (p_username bot) "" w) as (w1' & Hrun' & _).
    rewrite Hrun in Hrun'. injection Hrun' as Hb0 _.
    unfold in_block_list, bind. rewrite Hrun.
    destruct b0; simpl.
    + unfold get_self, ret.
      destruct (memory_frame_fields w w1 (proj1 Hframe)) as (Hli & _).
      rewrite Hli.
      destruct (online_block_listed (li (self w)) (p_username bot)) eqn:Hblocked.
      * exists false, w1. split; [reflexivity|]. split; [exact Hframe | discriminate].
      * eexists. exists w1. split; [reflexivity|]. split; [exact Hframe|].
        intros Hkeep. apply andb_true_iff in Hkeep as [Hgames Hwindow].
        unfold rating_in_window in Hwindow. apply andb_true_iff in Hwindow as [Hlo Hhi].
        split; [exact Hne|]. split; [reflexivity|].
        split; [intros timer Hstored; rewrite Hstored in Hb0; symmetry; exact Hb0|].
        split; lia.
    + exists false, w1. split; [reflexivity|]. split; [exact Hframe | discriminate].
Qed.

Lemma ready_for_challenge_returned (variant game_type mode : string) (bot : UserProfileType)
    (w : World) :
  exists (b : bool) (w' : World),
    ready_for_challenge variant game_type mode bot w = Returned b w' ∧ memory_grows w w'.
Proof.
  unfold ready_for_challenge, bind, get_self.
  apply (allM_returned _ memory_grows _ memory_grows_refl memory_grows_trans).
  intros aspect w1. apply should_accept_challenge_frame.
Qed.

(** ** What [choose_opponent] returns *)

Lemma record_call_returned (c : Call) (w w' : World) (u : unit) :
  record_call c w = Returned u w' ->
  self w' = self w ∧ now w' = now w ∧ calls w' = (calls w ++ [c])%list.
Proof. unfold record_call. intros [= _ <-]. simpl. auto. Qed.

Lemma random_choice_run {A} (seq : list A) (w w' : World) (x : A) :
  random_choice seq w = Returned x w' ->
  In x seq ∧ self w' = self w ∧ now w' = now w ∧ calls w' = calls w.
Proof.
  intros Hrun. split; [eapply random_choice_returned; exact Hrun|].
  pose proof (random_choice_frame seq w) as Hf. rewrite Hrun in Hf. exact Hf.
Qed.

Lemma random_choices_run {A} (population : list A) (weights : list Z) (w w' : World) (x : A) :
  random_choices population weights w = Returned x w' ->
  In x population ∧ self w' = self w ∧ now w' = now w ∧ calls w' = calls w.
Proof.
  intros Hrun. split; [eapply random_choices_returned; exact Hrun|].
  pose proof (random_choices_frame population weights w) as Hf. rewrite Hrun in Hf. exact Hf.
Qed.

Lemma get_random_config_value_run (value : string) (choices : list string)
    (w w' : World) (x : string) :
  get_random_config_value value choices w = Returned x w' ->
  self w' = self w ∧ now w' = now w ∧ calls w' = calls w.
Proof.
  intros Hrun.
  pose proof (get_random_config_value_frame value choices w) as Hf. rewrite Hrun in Hf. exact Hf.
Qed.

Lemma li_get_online_bots_run (w : World) :
  li_get_online_bots w
  = Returned (li_online_bots (li (self w)))
      {| self := self w; now := now w; rng := rng w;
         calls := calls w ++ [call_li_get_online_bots] |}.
Proof. reflexivity. Qed.

Lemma li_get_public_data_returned (name : string) (w w' : World) (blocking : bool) :
  li_get_public_data name w = Returned blocking w' ->
  li_public_data_blocking (li (self w)) name = Some blocking
  ∧ self w' = self w ∧ now w' = now w
  ∧ calls w' = (calls w ++ [call_li_get_public_data name])%list.
Proof.
  unfold li_get_public_data, bind, record_call, get_self. simpl.
  destruct (li_public_data_blocking (li (self w)) name) as [b|]; [|discriminate].
  intros [= <- <-]. simpl. auto.
Qed.

(** X20: the opponent that [choose_opponent] returns.  When it returns a
    username, that is the username of a bot that [li.get_online_bots] listed,
    different from the bot's own username, not on the online block list, not
    blocked in the acceptance memory as it was on entry, with games played in
    the chosen category and a rating inside the window derived from the
    configuration that was drawn (the default one or one of the overrides),
    and whose public data says it is not blocking; the time control is one of
    the configured ones of that configuration for the allowed lanes, with
    positive days exactly when only correspondence is asked for.  The run
    called [li.get_online_bots] once and [li.get_public_data] once, for that
    username, and changed nothing of the scheduler but the acceptance
    memory. *)
Theorem chosen_opponent_is_suitable (allowed_bot_lanes : option (gset string))
    (correspondence_only : bool) (w w' : World)
    (name : string) (base_time increment num_days : Z) (variant mode : string) :
  choose_opponent allowed_bot_lanes correspondence_only w
  = Returned (Some name, base_time, increment, num_days, variant, mode) w' ->
  exists (match_config : MatchConfig) (bot : UserProfileType),
    (match_config = cfg_defaults (matchmaking_cfg (self w))
     ∨ exists key, In (key, match_config) (cfg_overrides (matchmaking_cfg (self w))))
    ∧ In (base_time, increment, num_days)
         (configured_time_controls match_config allowed_bot_lanes correspondence_only)
    ∧ (if correspondence_only then 0 < num_days else num_days = 0)
    ∧ In bot (li_online_bots (li (self w)))
    ∧ p_username bot = name
    ∧ name ≠ username (self w)
    ∧ online_block_listed (li (self w)) name = false
    ∧ (forall timer,
         challenge_type_acceptable (self w) !! (name, "") = Some timer ->
         is_expired timer (now w) = true)
    ∧ li_public_data_blocking (li (self w)) name = Some false
    ∧ (let game_type := game_category variant base_time increment num_days in
       0 < games_played game_type bot
       ∧ (rating_window (self w) match_config game_type).1
         <= rating game_type bot
         <= (rating_window (self w) match_config game_type).2)
    ∧ self w' = set_challenge_type_acceptable (challenge_type_acceptable (self w')) (self w)
    ∧ calls w'
      = (calls w ++ [call_choose_opponent allowed_bot_lanes correspondence_only;
                     call_li_get_online_bots; call_li_get_public_data name])%list.
Proof.
  intros Hrun. unfold choose_opponent in Hrun.
  apply bind_returned in Hrun as (u & w1 & Hrec & Hrun).
  apply record_call_returned in Hrec as (Hs1 & Hn1 & Hc1).
  apply bind_returned in Hrun as (m & w1' & Hget & Hrun).
  unfold get_self in Hget. injection Hget as <- <-.
  apply bind_returned in Hrun as (override_choice & w2 & Hoc & Hrun).
  apply random_choice_run in Hoc as (Hoc & Hs2 & Hn2 & Hc2).
  set (match_config := match override_choice with
                       | Some (_, merged) => merged
                       | None => cfg_defaults (matchmaking_cfg (self w1))
                       end) in *.
  apply bind_returned in Hrun as (variant0 & w3 & Hvar & Hrun).
  apply get_random_config_value_run in Hvar as (Hs3 & Hn3 & Hc3).
  apply bind_returned in Hrun as (mode0 & w4 & Hmode & Hrun).
  apply get_random_config_value_run in Hmode as (Hs4 & Hn4 & Hc4).
  remember (if correspondence_only
            then List.filter (fun control : Z * Z * Z => 0 <? control.2)
                   (configured_time_controls match_config allowed_bot_lanes correspondence_only)
            else List.filter (fun control : Z * Z * Z => control.2 =? 0)
                   (configured_time_controls match_config allowed_bot_lanes correspondence_only))
    as candidates eqn:Hcands.
  destruct candidates as [|c0 crest] eqn:Hshape; [discriminate|]. rewrite <- Hshape in *.
  clear Hshape c0 crest.
  apply bind_returned in Hrun as ([[b0 i0] d0] & w5 & Hpick & Hrun).
  apply random_choice_run in Hpick as (Hpick & Hs5 & Hn5 & Hc5).
  fold (rating_window (self w1) match_config (game_category variant0 b0 i0 d0)) in Hrun.
  destruct (rating_window (self w1) match_config (game_category variant0 b0 i0 d0))
    as [min_rating max_rating] eqn:Hwin.
  apply bind_returned in Hrun as (u1 & w5' & Hrefresh & Hrun).
  unfold online_block_list_refresh, ret in Hrefresh. injection Hrefresh as _ <-.
  apply bind_returned in Hrun as (bots & w6 & Hbots & Hrun).
  rewrite li_get_online_bots_run in Hbots. injection Hbots as <- <-.
  set (w6 := {| self := self w5; now := now w5; rng := rng w5;
                calls := calls w5 ++ [call_li_get_online_bots] |}) in *.
  set (game_type := game_category variant0 b0 i0 d0) in *.
  apply bind_returned in Hrun as (suitable' & w7' & Hsuitable & Hrun).
  destruct (filterM_returned (is_suitable_opponent game_type min_rating max_rating)
              memory_grows
              (fun bot =>
                 p_username bot ≠ username (self w6)
                 ∧ online_block_listed (li (self w6)) (p_username bot) = false
                 ∧ (forall timer,
                      challenge_type_acceptable (self w6) !! (p_username bot, "") = Some timer ->
                      is_expired timer (now w6) = true)
                 ∧ 0 < games_played game_type bot
                 ∧ min_rating <= rating game_type bot <= max_rating)
              (li_online_bots (li (self w5))) w6 memory_grows_refl memory_grows_trans)
    with (w := w6) as (suitable & w7 & Hkept & Hgrow7 & Hall & Hsub).
  { intros bot wa Hgrow.
    destruct (is_suitable_opponent_returned game_type min_rating max_rating bot wa)
      as (b & wb & Hb & Hgrowb & Hfacts).
    exists b, wb. split; [exact Hb|]. split; [exact Hgrowb|].
    intros Htrue. destruct (Hfacts Htrue) as (Hname & Hblock & Hmem & Hgames & Hrating).
    destruct Hgrow as [Hframe Hstored].
    destruct (memory_frame_fields _ _ Hframe) as (Hli & Hprofile & _).
    destruct Hframe as (_ & Hnow & _).
    unfold username in *. rewrite Hprofile in Hname. rewrite Hli in Hblock.
    split; [exact Hname|]. split; [exact Hblock|]. split; [|auto].
    intros timer Htimer. rewrite <- Hnow. apply Hmem. apply Hstored. exact Htimer. }
  { apply memory_grows_refl. }
  rewrite Hkept in Hsuitable. injection Hsuitable as <- <-.
  apply bind_returned in Hrun as (ready' & w8' & Hready & Hrun).
  destruct (filterM_returned (ready_for_challenge variant0 game_type mode0)
              memory_grows (fun _ => True) suitable w7 memory_grows_refl memory_grows_trans)
    with (w := w7) as (ready & w8 & Hready' & Hgrow8 & _ & Hsub8).
  { intros bot wa _.
    destruct (ready_for_challenge_returned variant0 game_type mode0 bot wa)
      as (b & wb & Hb & Hgrowb).
    exists b, wb. auto. }
  { apply memory_grows_refl. }
  rewrite Hready' in Hready. injection Hready as <- <-.
  apply bind_returned in Hrun as (bot_username & w9 & Htry & Hrun).
  unfold ret in Hrun. injection Hrun as -> <- <- <- <- <- <-.
  apply try_except_returned in Htry as [Hbody | (e & we & _ & Hhandler)];
    [|discriminate].
  apply bind_returned in Hbody as (bot & wc & Hchoice & Hbody).
  apply random_choices_run in Hchoice as (Hin & Hsc & Hnc & Hcc).
  apply bind_returned in Hbody as (blocking & wd & Hdata & Hbody).
  apply li_get_public_data_returned in Hdata as (Hblocking & Hsd & Hnd & Hcd).
  destruct blocking.
  { apply bind_returned in Hbody as (u2 & wx & _ & Hbody). discriminate. }
  unfold ret in Hbody. injection Hbody as <- <-.
  assert (self w5 = self w) as Hs by congruence.
  assert (now w5 = now w) as Hn by congruence.
  assert (In bot suitable) as Hbot by (destruct ready; [exact Hin | apply Hsub8; exact Hin]).
  pose proof (memory_grows_trans _ _ _ Hgrow7 Hgrow8) as [Hframe _].
  destruct (memory_frame_fields _ _ Hframe) as (Hli & _).
  destruct Hframe as (Hself & _ & Hcalls).
  pose proof (Hsub _ Hbot) as Hbot0.
  rewrite Forall_forall in Hall. apply list_elem_of_In, Hall in Hbot.
  change (self w6) with (self w5) in *. change (now w6) with (now w5) in *.
  change (calls w6) with (calls w5 ++ [call_li_get_online_bots])%list in *.
  rewrite Hs, Hn in Hbot. destruct Hbot as (Hname & Hblock & Hmem & Hgames & Hrating).
  rewrite Hs1 in Hwin.
  exists match_config, bot.
  split.
  { subst match_config. apply in_app_or in Hoc as [Hoc | [<- | []]].
    - apply list_elem_of_In, list_elem_of_fmap in Hoc as ([key merged] & -> & Hkey).
      right. exists key. apply list_elem_of_In. rewrite <- Hs1. exact Hkey.
    - left. rewrite Hs1. reflexivity. }
  assert (In (b0, i0, d0)
            (configured_time_controls match_config allowed_bot_lanes correspondence_only)
          ∧ (if correspondence_only then 0 < d0 else d0 = 0)) as [Hcontrol Hdays].
  { rewrite Hcands in Hpick. destruct correspondence_only;
      apply List.filter_In in Hpick as [Hcontrol Hdays]; simpl in Hdays;
      (split; [exact Hcontrol | lia]). }
  split; [exact Hcontrol|]. split; [exact Hdays|].
  split; [rewrite <- Hs; exact Hbot0|].
  split; [reflexivity|]. split; [exact Hname|]. split; [exact Hblock|].
  split; [exact Hmem|].
  split; [rewrite <- Hs, <- Hli, <- Hsc; exact Hblocking|].
  split; [cbv zeta; fold game_type; rewrite Hwin; simpl; auto|].
  split.
  - rewrite Hsd, Hsc, Hself. change (self w6) with (self w5). rewrite Hs.
    destruct (self w). reflexivity.
  - rewrite Hcd, Hcc, Hcalls. change (calls w6) with (calls w5 ++ [call_li_get_online_bots])%list.
    rewrite Hc5, Hc4, Hc3, Hc2, Hc1. rewrite <- !app_assoc. reflexivity.
Qed.

Lemma chosen_opponent_is_suitable_witness :
  calls (world_of (choose_opponent (Some {[ "short" ]}) false scenario_open_short_lane))
  = [call_choose_opponent (Some {[ "short" ]}) false; call_li_get_online_bots;
     call_li_get_public_data "other_bot"].
Proof.
  destruct (chosen_opponent_is_suitable (Some {[ "short" ]}) false scenario_open_short_lane
              (world_of (choose_opponent (Some {[ "short" ]}) false scenario_open_short_lane))
              "other_bot" 60 0 0 "standard" "rated")
    as (match_config & bot & _ & _ & _ & _ & _ & _ & _ & _ & _ & _ & _ & Hcalls).
  - vm_compute. reflexivity.
  - exact Hcalls.
Defined.

Lemma bind_run {A B} (c : M A) (k : A -> M B) (w w1 : World) (a : A) :
  c w = Returned a w1 -> bind c k w = k a w1.
Proof. unfold bind. intros ->. reflexivity. Qed.

Lemma random_choice_total {A} (seq : list A) (w : World) :
  seq ≠ [] -> exists x w', random_choice seq w = Returned x w'.
Proof.
  intros Hne. destruct seq as [|c rest] eqn:Hc; [contradiction|]. rewrite <- Hc.
  unfold random_choice. rewrite Hc. rewrite <- Hc. unfold bind.
  destruct (next_random w) as [r w1|e w1] eqn:Hr.
  - assert (r mod length seq < length seq)%nat as Hlt
      by (apply Nat.mod_upper_bound; rewrite Hc; discriminate).
    destruct (lookup_lt_is_Some_2 seq _ Hlt) as [x Hx]. rewrite Hx. eauto.
  - unfold next_random in Hr. destruct (rng w); discriminate.
Qed.

Lemma get_random_config_value_total (value : string) (choices : list string) (w : World) :
  choices ≠ [] -> exists x w', get_random_config_value value choices w = Returned x w'.
Proof.
  intros Hne. unfold get_random_config_value.
  destruct (negb _); [eexists; eexists; reflexivity|].
  apply random_choice_total. exact Hne.
Qed.

Lemma filter_nil {A} (f : A -> bool) (l : list A) :
  (forall x, In x l -> f x = false) -> List.filter f l = [].
Proof.
  induction l as [|x rest IH]; intros Hall; [reflexivity|]. simpl.
  rewrite (Hall x (or_introl eq_refl)). apply IH. intros y Hy. apply Hall. right. exact Hy.
Qed.

(** X21: [choose_opponent] without a usable time control.  When no configured
    time control of any configuration that can be drawn passes the filter
    (positive days when only correspondence is asked for, zero days
    otherwise), [choose_opponent] returns no opponent and the time control
    (0, 0, 0), without asking Lichess for anything and without touching the
    scheduler. *)
Theorem no_time_control_no_opponent (allowed_bot_lanes : option (gset string))
    (correspondence_only : bool) (w : World) :
  variants (self w) ≠ [] ->
  (forall match_config,
     match_config = cfg_defaults (matchmaking_cfg (self w))
     ∨ (exists key, In (key, match_config) (cfg_overrides (matchmaking_cfg (self w)))) ->
     forall base_time increment num_days,
       In (base_time, increment, num_days)
          (configured_time_controls match_config allowed_bot_lanes correspondence_only) ->
       if correspondence_only then num_days <= 0 else num_days ≠ 0) ->
  exists (variant mode : string) (w' : World),
    choose_opponent allowed_bot_lanes correspondence_only w
    = Returned (None, 0, 0, 0, variant, mode) w'
    ∧ self w' = self w
    ∧ calls w' = (calls w ++ [call_choose_opponent allowed_bot_lanes correspondence_only])%list.
Proof.
  intros Hvariants Hnone. unfold choose_opponent.
  set (w1 := {| self := self w; now := now w; rng := rng w;
                calls := calls w ++ [call_choose_opponent allowed_bot_lanes correspondence_only]
             |}).
  rewrite (bind_run _ _ w w1 tt) by reflexivity.
  rewrite (bind_run _ _ w1 w1 (self w)) by reflexivity.
  destruct (random_choice_total ((Some <$> cfg_overrides (matchmaking_cfg (self w))) ++ [None]) w1)
    as (override_choice & w2 & Hoc); [destruct (Some <$> _); discriminate|].
  rewrite (bind_run _ _ _ _ _ Hoc).
  apply random_choice_run in Hoc as (Hoc & Hs2 & _ & Hc2).
  set (match_config := match override_choice with
                       | Some (_, merged) => merged
                       | None => cfg_defaults (matchmaking_cfg (self w))
                       end).
  assert (match_config = cfg_defaults (matchmaking_cfg (self w))
          ∨ (exists key, In (key, match_config) (cfg_overrides (matchmaking_cfg (self w)))))
    as Hconfig.
  { subst match_config. apply in_app_or in Hoc as [Hoc | [<- | []]].
    - apply list_elem_of_In, list_elem_of_fmap in Hoc as ([key merged] & -> & Hkey).
      right. exists key. apply list_elem_of_In. exact Hkey.
    - left. reflexivity. }
  destruct (get_random_config_value_total (challenge_variant match_config) (variants (self w)) w2
              Hvariants) as (variant & w3 & Hvar).
  rewrite (bind_run _ _ _ _ _ Hvar).
  apply get_random_config_value_run in Hvar as (Hs3 & _ & Hc3).
  destruct (get_random_config_value_total (challenge_mode match_config) ["casual"; "rated"] w3)
    as (mode & w4 & Hmode); [discriminate|].
  rewrite (bind_run _ _ _ _ _ Hmode).
  apply get_random_config_value_run in Hmode as (Hs4 & _ & Hc4).
  assert ((if correspondence_only
           then List.filter (fun control : Z * Z * Z => 0 <? control.2)
                  (configured_time_controls match_config allowed_bot_lanes correspondence_only)
           else List.filter (fun control : Z * Z * Z => control.2 =? 0)
                  (configured_time_controls match_config allowed_bot_lanes correspondence_only))
          = []) as ->.
  { specialize (Hnone match_config Hconfig).
    destruct correspondence_only; apply filter_nil; intros [[b i] d] Hin;
      specialize (Hnone b i d Hin); simpl; lia. }
  exists variant, mode, w4. split; [reflexivity|].
  split; [rewrite Hs4, Hs3, Hs2; reflexivity|]. rewrite Hc4, Hc3, Hc2. reflexivity.
Qed.

Lemma no_time_control_no_opponent_witness :
  exists (variant mode : string) (w' : World),
    choose_opponent (Some ∅) false scenario_open_short_lane
    = Returned (None, 0, 0, 0, variant, mode) w'
    ∧ self w' = self scenario_open_short_lane
    ∧ calls w' = (calls scenario_open_short_lane ++ [call_choose_opponent (Some ∅) false])%list.
Proof.
  apply (no_time_control_no_opponent (Some ∅) false scenario_open_short_lane).
  - discriminate.
  - intros match_config [-> | (key & [])] base_time increment num_days Hin.
    vm_compute in Hin. destruct Hin.
Defined.

(** ** [choose_opponent] returns, and what it leaves alone *)

Lemma selection_frame_refl (w : World) : selection_frame w w.
Proof.
  split; [destruct (self w); reflexivity|]. split; [reflexivity|].
  exists []. rewrite app_nil_r. auto.
Qed.






Lemma filterM_total {A} (p : A -> M bool) (l : list A) (w : World) :
  (forall x w1, exists b w2, p x w1 = Returned b w2 ∧ memory_grows w1 w2) ->
  exists kept w', filterM p l w = Returned kept w' ∧ memory_grows w w'.
Proof.
  intros Hp.
  destruct (filterM_returned p memory_grows (fun _ => True) l w
              memory_grows_refl memory_grows_trans) with (w := w)
    as (kept & w' & Hrun & Hgrow & _).
  - intros x w1 _. destruct (Hp x w1) as (b & w2 & Hb & Hg). exists b, w2. auto.
  - apply memory_grows_refl.
  - exists kept, w'. auto.
Qed.



(** ** [create_matchmaking_challenge] *)












(** ** [declined_challenge] *)

Lemma dict_get_decline_details (mode speed variant key : string) :
  (In key ["toofast"; "tooslow"; "timecontrol"] ->
   dict_get (decline_details mode speed variant) key "" = speed)
  ∧ (In key ["rated"; "casual"] -> dict_get (decline_details mode speed variant) key "" = mode)
  ∧ (In key ["standard"; "variant"] ->
     dict_get (decline_details mode speed variant) key "" = variant)
  ∧ (¬ In key ["toofast"; "tooslow"; "timecontrol"; "rated"; "casual"; "standard"; "variant"] ->
     dict_get (decline_details mode speed variant) key "" = "").
Proof.
  unfold decline_details, dict_get.
  repeat split; intros Hkey.
  - repeat (destruct Hkey as [<- | Hkey]; [reflexivity|]). destruct Hkey.
  - repeat (destruct Hkey as [<- | Hkey]; [reflexivity|]). destruct Hkey.
  - repeat (destruct Hkey as [<- | Hkey]; [reflexivity|]). destruct Hkey.
  - repeat match goal with
           | |- context [String.eqb ?k key] =>
               destruct (String.eqb_spec k key) as [<- | ?]; [try reflexivity|]
           end; try reflexivity; exfalso; apply Hkey; simpl; auto 10.
Qed.

(** X23: [declined_challenge].  It returns without calling Lichess.  It clears
    the outstanding challenge id when that is the declined one, and releases
    the declined id in the tracker when the challenge was the bot's own.
    For a challenge of somebody else, or with the filter [NONE], the acceptance
    memory stays as it is.  Otherwise exactly one entry is written, for the
    opponent and an aspect, and it lasts one day: the empty aspect under
    [COARSE], and under [FINE] the speed, the mode or the variant according to
    the reason, and the empty aspect for every other reason, known or not;
    with the empty aspect the opponent is on the block list for that day. *)
Theorem declined_challenge_outcome (event : DeclinedChallenge) (w : World) (t : Z)
    (r : list nat) :
  let w1 := world_of (declined_challenge event w) in
  let w' := next_tick t r w1 in
  let mode := if declined_rated event then "rated" else "casual" in
  let aspect :=
    match challenge_filter (self w) with
    | FilterFINE =>
        dict_get (decline_details mode (declined_speed event) (declined_variant event))
          (declined_reason_key event) ""
    | _ => ""
    end in
  declined_challenge event w = Returned tt w1
  ∧ calls w1 = calls w
  ∧ challenge_id (self w1)
    = (if String.eqb (challenge_id (self w)) (declined_id event) then ""
       else challenge_id (self w))
  ∧ slots (self w1)
    = (if declined_from_self event
       then (fun s => release s (declined_id event)) <$> slots (self w)
       else slots (self w))
  ∧ (declined_from_self event = false ∨ challenge_filter (self w) = FilterNONE ->
     challenge_type_acceptable (self w1) = challenge_type_acceptable (self w))
  ∧ (declined_from_self event = true -> challenge_filter (self w) ≠ FilterNONE ->
     result_of (should_accept_challenge (declined_target event) aspect w')
     = Some (days 1 <=? t - now w)
     ∧ (forall key, key ≠ (declined_target event, aspect) ->
          challenge_type_acceptable (self w1) !! key
          = challenge_type_acceptable (self w) !! key)
     ∧ (aspect = "" -> t - now w < days 1 ->
        result_of (in_block_list (declined_target event) w') = Some true))
  ∧ (challenge_filter (self w) = FilterFINE ->
     (In (declined_reason_key event) ["toofast"; "tooslow"; "timecontrol"] ->
      aspect = declined_speed event)
     ∧ (In (declined_reason_key event) ["rated"; "casual"] -> aspect = mode)
     ∧ (In (declined_reason_key event) ["standard"; "variant"] ->
        aspect = declined_variant event)
     ∧ (¬ In (declined_reason_key event)
            ["toofast"; "tooslow"; "timecontrol"; "rated"; "casual"; "standard"; "variant"] ->
        aspect = "")).
Proof.
  intros w1 w' mode aspect.
  assert (exists m1,
             declined_challenge event w
             = Returned tt {| self := m1; now := now w; rng := rng w; calls := calls w |}
             ∧ challenge_id m1
               = (if String.eqb (challenge_id (self w)) (declined_id event) then ""
                  else challenge_id (self w))
             ∧ slots m1
               = (if declined_from_self event
                  then (fun s => release s (declined_id event)) <$> slots (self w)
                  else slots (self w))
             ∧ li m1 = li (self w)
             ∧ challenge_type_acceptable m1
               = (if declined_from_self event
                     && negb match challenge_filter (self w) with
                             | FilterNONE => true
                             | _ => false
                             end
                  then <[(declined_target event, aspect) := new_timer (days 1) (now w)]>
                         (challenge_type_acceptable (self w))
                  else challenge_type_acceptable (self w)))
    as (m1 & Hrun & Hid & Hslots & Hli & Hmemory).
  { subst aspect mode.
    unfold declined_challenge, discard_challenge, with_slots, add_challenge_filter,
      show_earliest_challenge_time, bind, get_self, modify_self, perf_counter, ret.
    destruct w as [m t0 r0 c0]. cbn [self now rng calls].
    destruct (String.eqb (challenge_id m) (declined_id event)) eqn:Hsame;
      destruct (declined_from_self event) eqn:Hfrom; cbn [self now rng calls negb orb andb];
      destruct m as [mli mvariants mcfg mprofile mcreated mended mupdate mmin mrate mmax mid
                       mforce mtarget mmemory mfilter mslots];
      cbn in *; destruct mslots as [s|]; cbn; destruct mfilter; cbn;
      (eexists; split; [reflexivity|]; cbn; rewrite ?Hsame; auto). }
  subst w' w1. rewrite Hrun. cbn [world_of self calls now].
  split; [reflexivity|]. split; [reflexivity|]. split; [exact Hid|]. split; [exact Hslots|].
  split; [|split].
  - intros [Hfrom | Hfilter]; rewrite Hmemory; [rewrite Hfrom | rewrite Hfilter, andb_false_r];
      reflexivity.
  - intros Hfrom Hfilter.
    assert (challenge_type_acceptable m1
            = <[(declined_target event, aspect) := new_timer (days 1) (now w)]>
                (challenge_type_acceptable (self w))) as Hstored.
    { rewrite Hmemory, Hfrom. destruct (challenge_filter (self w)); [contradiction | | ];
        reflexivity. }
    set (w' := next_tick t r {| self := m1; now := now w; rng := rng w; calls := calls w |}).
    assert (challenge_type_acceptable (self w') !! (declined_target event, aspect)
            = Some (new_timer (days 1) (now w))) as Hkey
      by (subst w'; cbn [next_tick self]; rewrite Hstored; apply lookup_insert_eq).
    split; [|split].
    + destruct (should_accept_challenge_outcome (declined_target event) aspect w')
        as (w2 & -> & _).
      rewrite Hkey. reflexivity.
    + intros key Hne. rewrite Hstored. apply lookup_insert_ne. congruence.
    + intros Haspect Hrunning.
      destruct (in_block_list_outcome (declined_target event) w') as (w2 & -> & _).
      rewrite Haspect in Hkey. rewrite Hkey.
      assert (is_expired (new_timer (days 1) (now w)) (now w') = false) as ->.
      { unfold is_expired, new_timer, time_since_reset. simpl. apply Z.leb_gt. exact Hrunning. }
      reflexivity.
  - intros Hfine. subst aspect. rewrite Hfine.
    apply dict_get_decline_details.
Qed.

Lemma declined_challenge_outcome_witness :
  result_of
    (should_accept_challenge "other_bot" "bullet"
       (next_tick (seconds 130) []
          (world_of (declined_challenge
                       (mkDeclined "abc" true "other_bot" true "bullet" "standard" "timecontrol")
                       scenario_open_short_lane))))
  = Some false.
Proof.
  destruct (declined_challenge_outcome
              (mkDeclined "abc" true "other_bot" true "bullet" "standard" "timecontrol")
              scenario_open_short_lane (seconds 130) [])
    as (_ & _ & _ & _ & _ & Hown & _).
  destruct Hown as (Hanswer & _); [reflexivity | discriminate|].
  exact Hanswer.
Defined.

(** ** One call of [challenge] *)
















(** ** Incoming challenges *)

Lemma real_time_bot_needs_capacity (s : MatchmakingSlots) (speed : string)
    (active_games : gset string) :
  is_correspondence_speed speed = false ->
  can_accept_bot_speed s speed active_games = true ->
  used_slots s active_games < max_games s.
Proof.
  intros Hreal. unfold can_accept_bot_speed. rewrite Hreal. rewrite Z.geb_leb.
  destruct (Z.leb_spec (max_games s) (used_slots s active_games)); [discriminate | auto].
Qed.

(** X25: the policy for incoming challenges, [can_accept_challenge].  A
    real-time challenge is accepted only below capacity; whenever a real-time
    challenge of a bot is accepted, a real-time challenge of a human is
    accepted too; whenever any challenge is accepted, every correspondence
    challenge is, whoever sends it; and with accounting enabled a
    correspondence challenge is accepted in every state, also at full
    capacity. *)
Theorem incoming_challenge_policy (s : MatchmakingSlots) (active_games : gset string)
    (c : Challenge) :
  (is_correspondence_speed (challenge_speed c) = false ->
   can_accept_challenge s c active_games = true ->
   used_slots s active_games < max_games s)
  ∧ (is_correspondence_speed (challenge_speed c) = false ->
     challenger_is_bot c = true ->
     can_accept_challenge s c active_games = true ->
     forall human : Challenge,
       is_correspondence_speed (challenge_speed human) = false ->
       challenger_is_bot human = false ->
       can_accept_challenge s human active_games = true)
  ∧ (can_accept_challenge s c active_games = true ->
     forall correspondence : Challenge,
       is_correspondence_speed (challenge_speed correspondence) = true ->
       can_accept_challenge s correspondence active_games = true)
  ∧ (enabled s = true ->
     is_correspondence_speed (challenge_speed c) = true ->
     can_accept_challenge s c active_games = true).
Proof.
  assert (is_correspondence_speed (challenge_speed c) = false ->
          can_accept_challenge s c active_games = true ->
          used_slots s active_games < max_games s) as Hcapacity.
  { intros Hreal. unfold can_accept_challenge. rewrite Hreal.
    destruct (challenger_is_bot c).
    - apply real_time_bot_needs_capacity. exact Hreal.
    - unfold can_accept_human. apply Z.ltb_lt. }
  split; [exact Hcapacity|]. split; [|split].
  - intros Hreal _ Haccepted human Hreal' Hhuman.
    unfold can_accept_challenge. rewrite Hreal', Hhuman.
    unfold can_accept_human. apply Z.ltb_lt. auto.
  - intros Haccepted correspondence Hcorr.
    unfold can_accept_challenge. rewrite Hcorr. unfold can_accept_correspondence.
    destruct (enabled s) eqn:Hen; [reflexivity|]. cbn [negb].
    destruct (is_correspondence_speed (challenge_speed c)) eqn:Hspeed.
    + unfold can_accept_challenge, can_accept_correspondence in Haccepted.
      rewrite Hspeed, Hen in Haccepted. exact Haccepted.
    + apply Z.ltb_lt. auto.
  - intros Hen Hcorr. unfold can_accept_challenge, can_accept_correspondence.
    rewrite Hcorr, Hen. reflexivity.
Qed.

Lemma incoming_challenge_policy_witness :
  can_accept_challenge
    (reserve_game (reserve_game (reserve_game (new_slots 3) "a" true "blitz") "b" true "rapid")
       "c" false "blitz")
    (mkChallenge "correspondence" true) {[ "a"; "b"; "c" ]} = true.
Proof.
  apply (incoming_challenge_policy
           (reserve_game (reserve_game (reserve_game (new_slots 3) "a" true "blitz")
                            "b" true "rapid") "c" false "blitz")
           {[ "a"; "b"; "c" ]} (mkChallenge "correspondence" true)); reflexivity.
Defined.

(** ** The bots among which [choose_opponent] draws *)

Lemma memory_settled_refl (w : World) : memory_settled w w.
Proof. split; [apply memory_frame_refl | reflexivity]. Qed.

Lemma memory_settled_trans (w1 w2 w3 : World) :
  memory_settled w1 w2 -> memory_settled w2 w3 -> memory_settled w1 w3.
Proof.
  intros [F1 A1] [F2 A2]. split; [eapply memory_frame_trans; eauto|].
  intros key. rewrite A2. apply A1.
Qed.

Lemma should_accept_challenge_exact (name aspect : string) (w : World) :
  exists w' : World,
    should_accept_challenge name aspect w
    = Returned (acceptable (self w) (now w) (name, aspect)) w'
    ∧ memory_settled w w'.
Proof.
  unfold should_accept_challenge, acceptable, bind, get_self, perf_counter, modify_self, ret.
  destruct (challenge_type_acceptable (self w) !! (name, aspect)) as [timer|] eqn:Hkey.
  - eexists. split; [reflexivity | apply memory_settled_refl].
  - assert (is_expired (new_timer (seconds 0) (now w)) (now w) = true) as Hfresh.
    { unfold is_expired, new_timer, time_since_reset, seconds. simpl. apply Z.leb_le. lia. }
    eexists. split; [rewrite Hfresh; reflexivity|]. split.
    + unfold memory_frame. simpl. auto.
    + intros key. unfold acceptable. cbn [self now].
      change (challenge_type_acceptable
                (set_challenge_type_acceptable
                   (<[(name, aspect):=new_timer (seconds 0) (now w)]>
                      (challenge_type_acceptable (self w))) (self w)))
        with (<[(name, aspect):=new_timer (seconds 0) (now w)]>
                (challenge_type_acceptable (self w))).
      destruct (decide (key = (name, aspect))) as [-> | Hne].
      * rewrite lookup_insert_eq, Hkey. exact Hfresh.
      * rewrite lookup_insert_ne by congruence. reflexivity.
Qed.

Lemma memory_settled_fields (w w' : World) :
  memory_settled w w' ->
  li (self w') = li (self w) ∧ username (self w') = username (self w)
  ∧ challenge_filter (self w') = challenge_filter (self w).
Proof.
  intros [Hframe _]. destruct (memory_frame_fields _ _ Hframe) as (Hli & Hprofile & _ & _ & Hf & _).
  unfold username. rewrite Hprofile. auto.
Qed.

Lemma filterM_exact {A} (p : A -> M bool) (f : A -> bool) (l : list A) (w0 : World) :
  (forall x w, memory_settled w0 w ->
     exists w', p x w = Returned (f x) w' ∧ memory_settled w w') ->
  forall w, memory_settled w0 w ->
    exists w', filterM p l w = Returned (List.filter f l) w' ∧ memory_settled w w'.
Proof.
  intros Hp. induction l as [|x rest IH]; intros w Hw; simpl.
  - exists w. split; [reflexivity | apply memory_settled_refl].
  - destruct (Hp x w Hw) as (w1 & Hx & H1).
    destruct (IH w1 (memory_settled_trans _ _ _ Hw H1)) as (w2 & Hrest & H2).
    exists w2. rewrite (bind_run _ _ _ _ _ Hx), (bind_run _ _ _ _ _ Hrest).
    split; [reflexivity | eapply memory_settled_trans; eauto].
Qed.

Lemma allM_exact {A} (p : A -> M bool) (f : A -> bool) (l : list A) (w0 : World) :
  (forall x w, memory_settled w0 w ->
     exists w', p x w = Returned (f x) w' ∧ memory_settled w w') ->
  forall w, memory_settled w0 w ->
    exists w', allM p l w = Returned (forallb f l) w' ∧ memory_settled w w'.
Proof.
  intros Hp. induction l as [|x rest IH]; intros w Hw; simpl.
  - exists w. split; [reflexivity | apply memory_settled_refl].
  - destruct (Hp x w Hw) as (w1 & Hx & H1). rewrite (bind_run _ _ _ _ _ Hx).
    destruct (f x); simpl.
    + destruct (IH w1 (memory_settled_trans _ _ _ Hw H1)) as (w2 & Hrest & H2).
      exists w2. split; [exact Hrest | eapply memory_settled_trans; eauto].
    + exists w1. split; [reflexivity | exact H1].
Qed.

Lemma in_block_list_exact (name : string) (w : World) :
  exists w' : World,
    in_block_list name w
    = Returned (negb (acceptable (self w) (now w) (name, ""))
                || online_block_listed (li (self w)) name) w'
    ∧ memory_settled w w'.
Proof.
  destruct (should_accept_challenge_exact name "" w) as (w1 & Hrun & H1).
  unfold in_block_list. rewrite (bind_run _ _ _ _ _ Hrun).
  destruct (memory_settled_fields _ _ H1) as (Hli1 & _).
  destruct (acceptable (self w) (now w) (name, "")); cbn [negb orb].
  - rewrite (bind_run _ _ w1 w1 (self w1)) by reflexivity. rewrite Hli1.
    exists w1. split; [reflexivity | exact H1].
  - exists w1. split; [reflexivity | exact H1].
Qed.

Lemma is_suitable_opponent_exact (game_type : string) (min_rating max_rating : Z)
    (bot : UserProfileType) (w0 w : World) :
  memory_settled w0 w ->
  exists w' : World,
    is_suitable_opponent game_type min_rating max_rating bot w
    = Returned (suitable_at w0 game_type min_rating max_rating bot) w'
    ∧ memory_settled w w'.
Proof.
  intros Hw. destruct (memory_settled_fields _ _ Hw) as (Hli & Hname & _).
  destruct Hw as [_ Hanswers].
  unfold is_suitable_opponent, suitable_at.
  rewrite (bind_run _ _ w w (self w)) by reflexivity. rewrite Hname.
  destruct (String.eqb (p_username bot) (username (self w0)));
    [exists w; split; [reflexivity | apply memory_settled_refl]|].
  destruct (in_block_list_exact (p_username bot) w) as (w1 & Hrun & H1).
  rewrite (bind_run _ _ _ _ _ Hrun). rewrite Hanswers, Hli. cbn [negb andb].
  destruct (negb (acceptable (self w0) (now w0) (p_username bot, ""))
            || online_block_listed (li (self w0)) (p_username bot)); cbn [negb andb];
    exists w1; split; solve [reflexivity | exact H1].
Qed.

Lemma ready_for_challenge_exact (variant game_type mode : string) (bot : UserProfileType)
    (w0 w : World) :
  memory_settled w0 w ->
  exists w' : World,
    ready_for_challenge variant game_type mode bot w
    = Returned (ready_at w0 variant game_type mode bot) w'
    ∧ memory_settled w w'.
Proof.
  intros Hw. destruct (memory_settled_fields _ _ Hw) as (_ & _ & Hfilter).
  unfold ready_for_challenge, ready_at.
  rewrite (bind_run _ _ w w (self w)) by reflexivity. rewrite Hfilter.
  apply (allM_exact _ (fun aspect => acceptable (self w0) (now w0) (p_username bot, aspect))
           _ w0); [|exact Hw].
  intros aspect w1 [_ Hanswers].
  destruct (should_accept_challenge_exact (p_username bot) aspect w1) as (w2 & Hrun & H2).
  exists w2. rewrite Hrun, Hanswers. auto.
Qed.

(** X26: the filter [FINE] is a preference.  The opponent that
    [choose_opponent] returns passes the filter [is_suitable_opponent] as it
    answers on entry; and it also passes [ready_for_challenge] (it has no
    running refusal for the variant, the category or the mode that were
    drawn), unless no suitable bot online passes it, in which case the draw is
    among all suitable bots. *)
Theorem ready_opponents_are_preferred (allowed_bot_lanes : option (gset string))
    (correspondence_only : bool) (w w' : World)
    (name : string) (base_time increment num_days : Z) (variant mode : string) :
  choose_opponent allowed_bot_lanes correspondence_only w
  = Returned (Some name, base_time, increment, num_days, variant, mode) w' ->
  exists (match_config : MatchConfig) (bot : UserProfileType),
    (match_config = cfg_defaults (matchmaking_cfg (self w))
     ∨ exists key, In (key, match_config) (cfg_overrides (matchmaking_cfg (self w))))
    ∧ In bot (li_online_bots (li (self w)))
    ∧ p_username bot = name
    ∧ let game_type := game_category variant base_time increment num_days in
      let window := rating_window (self w) match_config game_type in
      suitable_at w game_type window.1 window.2 bot = true
      ∧ (ready_at w variant game_type mode bot = true
         ∨ forall other : UserProfileType,
             In other (li_online_bots (li (self w))) ->
             suitable_at w game_type window.1 window.2 other = true ->
             ready_at w variant game_type mode other = false).
Proof.
  intros Hrun. unfold choose_opponent in Hrun.
  apply bind_returned in Hrun as (u & w1 & Hrec & Hrun).
  apply record_call_returned in Hrec as (Hs1 & Hn1 & Hc1).
  apply bind_returned in Hrun as (m & w1' & Hget & Hrun).
  unfold get_self in Hget. injection Hget as <- <-.
  apply bind_returned in Hrun as (override_choice & w2 & Hoc & Hrun).
  apply random_choice_run in Hoc as (Hoc & Hs2 & Hn2 & Hc2).
  set (match_config := match override_choice with
                       | Some (_, merged) => merged
                       | None => cfg_defaults (matchmaking_cfg (self w1))
                       end) in *.
  apply bind_returned in Hrun as (variant0 & w3 & Hvar & Hrun).
  apply get_random_config_value_run in Hvar as (Hs3 & Hn3 & Hc3).
  apply bind_returned in Hrun as (mode0 & w4 & Hmode & Hrun).
  apply get_random_config_value_run in Hmode as (Hs4 & Hn4 & Hc4).
  remember (if correspondence_only
            then List.filter (fun control : Z * Z * Z => 0 <? control.2)
                   (configured_time_controls match_config allowed_bot_lanes correspondence_only)
            else List.filter (fun control : Z * Z * Z => control.2 =? 0)
                   (configured_time_controls match_config allowed_bot_lanes correspondence_only))
    as candidates eqn:Hcands.
  destruct candidates as [|c0 crest] eqn:Hshape; [discriminate|]. rewrite <- Hshape in *.
  clear Hshape c0 crest.
  apply bind_returned in Hrun as ([[b0 i0] d0] & w5 & Hpick & Hrun).
  apply random_choice_run in Hpick as (Hpick & Hs5 & Hn5 & Hc5).
  fold (rating_window (self w1) match_config (game_category variant0 b0 i0 d0)) in Hrun.
  destruct (rating_window (self w1) match_config (game_category variant0 b0 i0 d0))
    as [min_rating max_rating] eqn:Hwin.
  apply bind_returned in Hrun as (u1 & w5' & Hrefresh & Hrun).
  unfold online_block_list_refresh, ret in Hrefresh. injection Hrefresh as _ <-.
  apply bind_returned in Hrun as (bots & w6' & Hbots & Hrun).
  rewrite li_get_online_bots_run in Hbots. injection Hbots as <- <-.
  set (w6 := {| self := self w5; now := now w5; rng := rng w5;
                calls := calls w5 ++ [call_li_get_online_bots] |}) in *.
  set (game_type := game_category variant0 b0 i0 d0) in *.
  assert (self w5 = self w) as Hs by congruence.
  assert (now w5 = now w) as Hn by congruence.
  assert (forall bot, suitable_at w6 game_type min_rating max_rating bot
                      = suitable_at w game_type min_rating max_rating bot) as Hsuitable_at
    by (intros bot; unfold suitable_at; cbn [w6 self now]; rewrite Hs, Hn; reflexivity).
  assert (forall bot, ready_at w6 variant0 game_type mode0 bot
                      = ready_at w variant0 game_type mode0 bot) as Hready_at
    by (intros bot; unfold ready_at; cbn [w6 self now]; rewrite Hs, Hn; reflexivity).
  apply bind_returned in Hrun as (suitable & w7 & Hsuitable & Hrun).
  destruct (filterM_exact (is_suitable_opponent game_type min_rating max_rating)
              (suitable_at w6 game_type min_rating max_rating)
              (li_online_bots (li (self w5))) w6) with (w := w6) as (w7' & Hkept & H7).
  { intros bot wa Hwa. apply is_suitable_opponent_exact. exact Hwa. }
  { apply memory_settled_refl. }
  rewrite Hkept in Hsuitable. injection Hsuitable as <- <-.
  apply bind_returned in Hrun as (ready & w8 & Hready & Hrun).
  destruct (filterM_exact (ready_for_challenge variant0 game_type mode0)
              (ready_at w6 variant0 game_type mode0)
              (List.filter (suitable_at w6 game_type min_rating max_rating)
                 (li_online_bots (li (self w5)))) w6) with (w := w7') as (w8' & Hkept8 & H8).
  { intros bot wa Hwa. apply ready_for_challenge_exact. exact Hwa. }
  { exact H7. }
  rewrite Hkept8 in Hready. injection Hready as <- <-.
  apply bind_returned in Hrun as (bot_username & w9 & Htry & Hrun).
  unfold ret in Hrun. injection Hrun as -> <- <- <- <- <- <-.
  apply try_except_returned in Htry as [Hbody | (e & we & _ & Hhandler)];
    [|discriminate].
  apply bind_returned in Hbody as (bot & wc & Hchoice & Hbody).
  apply random_choices_run in Hchoice as (Hin & _).
  apply bind_returned in Hbody as (blocking & wd & Hdata & Hbody).
  destruct blocking.
  { apply bind_returned in Hbody as (u2 & wx & _ & Hbody). discriminate. }
  unfold ret in Hbody. injection Hbody as <- <-.
  rewrite Hs1 in Hwin.
  exists match_config, bot.
  split.
  { subst match_config. apply in_app_or in Hoc as [Hoc | [<- | []]].
    - apply list_elem_of_In, list_elem_of_fmap in Hoc as ([key merged] & -> & Hkey).
      right. exists key. apply list_elem_of_In. rewrite <- Hs1. exact Hkey.
    - left. rewrite Hs1. reflexivity. }
  cbv zeta. fold game_type. rewrite Hwin. cbn [fst snd]. rewrite <- Hs.
  set (suitable := List.filter (suitable_at w6 game_type min_rating max_rating)
                     (li_online_bots (li (self w5)))) in *.
  destruct (List.filter (ready_at w6 variant0 game_type mode0) suitable) as [|r0 rrest] eqn:Hnone.
  - apply List.filter_In in Hin as [Hbot Hsuit].
    split; [exact Hbot|]. split; [reflexivity|]. split; [rewrite <- Hsuitable_at; exact Hsuit|].
    right. intros other Hother Hsuit'. rewrite <- Hready_at.
    destruct (ready_at w6 variant0 game_type mode0 other) eqn:Hready'; [|reflexivity].
    assert (In other (List.filter (ready_at w6 variant0 game_type mode0) suitable)) as Habsurd.
    { apply List.filter_In. split; [|exact Hready'].
      apply List.filter_In. split; [exact Hother | rewrite Hsuitable_at; exact Hsuit']. }
    rewrite Hnone in Habsurd. destruct Habsurd.
  - rewrite <- Hnone in Hin. apply List.filter_In in Hin as [Hin Hready'].
    apply List.filter_In in Hin as [Hbot Hsuit].
    split; [exact Hbot|]. split; [reflexivity|]. split; [rewrite <- Hsuitable_at; exact Hsuit|].
    left. rewrite <- Hready_at. exact Hready'.
Qed.

Lemma ready_opponents_are_preferred_witness :
  exists bot : UserProfileType,
    In bot (li_online_bots (li (self scenario_open_short_lane)))
    ∧ p_username bot = "other_bot"
    ∧ ready_at scenario_open_short_lane "standard" "bullet" "rated" bot = true.
Proof.
  destruct (ready_opponents_are_preferred (Some {[ "short" ]}) false scenario_open_short_lane
              (world_of (choose_opponent (Some {[ "short" ]}) false scenario_open_short_lane))
              "other_bot" 60 0 0 "standard" "rated")
    as (match_config & bot & _ & Hin & Hname & _ & Hready).
  - vm_compute. reflexivity.
  - exists bot. split; [exact Hin|]. split; [exact Hname|].
    destruct Hready as [Hready | Hnone]; [exact Hready|].
    destruct Hin as [<- | []]. reflexivity.
Defined.

(** ** A bot that blocks us *)

Lemma bind_raised {A B} (c : M A) (k : A -> M B) (w w' : World) (e : Exn) :
  bind c k w = Raised e w' ->
  c w = Raised e w'
  ∨ exists (a : A) (w1 : World), c w = Returned a w1 ∧ k a w1 = Raised e w'.
Proof.
  unfold bind. destruct (c w) as [a w1|e1 w1]; [eauto|]. intros [= <- <-]. auto.
Qed.

Lemma random_choices_raised {A} (population : list A) (weights : list Z) (w w' : World)
    (e : Exn) :
  random_choices population weights w = Raised e w' ->
  self w' = self w ∧ now w' = now w ∧ calls w' = calls w.
Proof.
  intros Hrun.
  pose proof (random_choices_frame population weights w) as Hf. rewrite Hrun in Hf. exact Hf.
Qed.

Lemma li_get_public_data_raised (name : string) (w w' : World) (e : Exn) :
  li_get_public_data name w = Raised e w' ->
  li_public_data_blocking (li (self w)) name = None.
Proof.
  unfold li_get_public_data, bind, record_call, get_self. simpl.
  destruct (li_public_data_blocking (li (self w)) name) as [b|]; [discriminate | reflexivity].
Qed.

(** X28: a bot that blocks the bot is not asked twice.  Whenever
    [choose_opponent] has asked Lichess for the public data of a bot and these
    say that the bot is blocking, it returns no opponent, and it has put that
    bot on the block list for ten years: until then [in_block_list] is true for
    it, at every clock reading. *)
Theorem blocking_bot_is_block_listed (allowed_bot_lanes : option (gset string))
    (correspondence_only : bool) (w w' : World)
    (opponent : option string) (base_time increment num_days : Z) (variant mode : string) :
  choose_opponent allowed_bot_lanes correspondence_only w
  = Returned (opponent, base_time, increment, num_days, variant, mode) w' ->
  exists new : list Call,
    calls w' = (calls w ++ new)%list
    ∧ forall name : string,
        In (call_li_get_public_data name) new ->
        li_public_data_blocking (li (self w)) name = Some true ->
        opponent = None
        ∧ forall (t : Z) (r : list nat),
            t - now w < years 10 ->
            result_of (in_block_list name (next_tick t r w')) = Some true.
Proof.
  intros Hrun. unfold choose_opponent in Hrun.
  apply bind_returned in Hrun as (u & w1 & Hrec & Hrun).
  apply record_call_returned in Hrec as (Hs1 & Hn1 & Hc1).
  apply bind_returned in Hrun as (m & w1' & Hget & Hrun).
  unfold get_self in Hget. injection Hget as <- <-.
  apply bind_returned in Hrun as (override_choice & w2 & Hoc & Hrun).
  apply random_choice_run in Hoc as (Hoc & Hs2 & Hn2 & Hc2).
  set (match_config := match override_choice with
                       | Some (_, merged) => merged
                       | None => cfg_defaults (matchmaking_cfg (self w1))
                       end) in *.
  apply bind_returned in Hrun as (variant0 & w3 & Hvar & Hrun).
  apply get_random_config_value_run in Hvar as (Hs3 & Hn3 & Hc3).
  apply bind_returned in Hrun as (mode0 & w4 & Hmode & Hrun).
  apply get_random_config_value_run in Hmode as (Hs4 & Hn4 & Hc4).
  remember (if correspondence_only
            then List.filter (fun control : Z * Z * Z => 0 <? control.2)
                   (configured_time_controls match_config allowed_bot_lanes correspondence_only)
            else List.filter (fun control : Z * Z * Z => control.2 =? 0)
                   (configured_time_controls match_config allowed_bot_lanes correspondence_only))
    as candidates eqn:Hcands.
  destruct candidates as [|c0 crest] eqn:Hshape.
  { unfold ret in Hrun. injection Hrun as <- _ _ _ _ _ <-.
    exists [call_choose_opponent allowed_bot_lanes correspondence_only].
    split; [congruence|]. intros name [Habsurd | []]. discriminate. }
  rewrite <- Hshape in *. clear Hshape c0 crest.
  apply bind_returned in Hrun as ([[b0 i0] d0] & w5 & Hpick & Hrun).
  apply random_choice_run in Hpick as (Hpick & Hs5 & Hn5 & Hc5).
  fold (rating_window (self w1) match_config (game_category variant0 b0 i0 d0)) in Hrun.
  destruct (rating_window (self w1) match_config (game_category variant0 b0 i0 d0))
    as [min_rating max_rating] eqn:Hwin.
  apply bind_returned in Hrun as (u1 & w5' & Hrefresh & Hrun).
  unfold online_block_list_refresh, ret in Hrefresh. injection Hrefresh as _ <-.
  apply bind_returned in Hrun as (bots & w6' & Hbots & Hrun).
  rewrite li_get_online_bots_run in Hbots. injection Hbots as <- <-.
  set (w6 := {| self := self w5; now := now w5; rng := rng w5;
                calls := calls w5 ++ [call_li_get_online_bots] |}) in *.
  set (game_type := game_category variant0 b0 i0 d0) in *.
  apply bind_returned in Hrun as (suitable' & w7' & Hsuitable & Hrun).
  destruct (filterM_total (is_suitable_opponent game_type min_rating max_rating)
              (li_online_bots (li (self w5))) w6) as (suitable & w7 & Hkept & G7).
  { intros bot wa.
    destruct (is_suitable_opponent_returned game_type min_rating max_rating bot wa)
      as (b & wb & Hb & Hg & _). exists b, wb. auto. }
  rewrite Hkept in Hsuitable. injection Hsuitable as <- <-.
  apply bind_returned in Hrun as (ready' & w8' & Hready & Hrun).
  destruct (filterM_total (ready_for_challenge variant0 game_type mode0) suitable w7)
    as (ready & w8 & Hkept8 & G8).
  { intros bot wa. apply ready_for_challenge_returned. }
  rewrite Hkept8 in Hready. injection Hready as <- <-.
  pose proof (memory_grows_trans _ _ _ G7 G8) as [Hframe _].
  destruct (memory_frame_fields _ _ Hframe) as (Hli & _).
  destruct Hframe as (_ & Hnow8 & Hcalls8).
  change (self w6) with (self w5) in *. change (now w6) with (now w5) in *.
  change (calls w6) with (calls w5 ++ [call_li_get_online_bots])%list in *.
  assert (self w5 = self w) as Hs by congruence.
  assert (now w5 = now w) as Hn by congruence.
  assert (calls w8 = (calls w ++ [call_choose_opponent allowed_bot_lanes correspondence_only;
                                  call_li_get_online_bots])%list) as Hc8
    by (rewrite Hcalls8, Hc5, Hc4, Hc3, Hc2, Hc1, <- app_assoc; reflexivity).
  apply bind_returned in Hrun as (bot_username & w9 & Htry & Hrun).
  unfold ret in Hrun. injection Hrun as <- _ _ _ _ _ <-.
  apply try_except_returned in Htry as [Hbody | (e & we & Hbody & Hhandler)].
  - apply bind_returned in Hbody as (bot & wc & Hchoice & Hbody).
    apply random_choices_run in Hchoice as (_ & Hsc & Hnc & Hcc).
    apply bind_returned in Hbody as (blocking & wd & Hdata & Hbody).
    apply li_get_public_data_returned in Hdata as (Hblocking & Hsd & Hnd & Hcd).
    rewrite Hsc, Hli, Hs in Hblocking.
    destruct blocking.
    + apply bind_returned in Hbody as (u2 & wx & Hadd & Hbody).
      unfold ret in Hbody. injection Hbody as <- <-.
      unfold add_to_block_list, add_challenge_filter, bind, perf_counter, modify_self in Hadd.
      injection Hadd as _ <-.
      exists [call_choose_opponent allowed_bot_lanes correspondence_only;
              call_li_get_online_bots; call_li_get_public_data (p_username bot)].
      split; [cbn [calls]; rewrite Hcd, Hcc, Hc8, <- app_assoc; reflexivity|].
      intros name [Habsurd | [Habsurd | [Hname | []]]] _; try discriminate.
      injection Hname as <-. split; [reflexivity|]. intros t r Hrunning.
      match goal with
      | |- result_of (in_block_list _ ?wt) = _ =>
          destruct (in_block_list_outcome (p_username bot) wt) as (w2' & -> & _)
      end.
      cbn [next_tick self now result_of].
      change (challenge_type_acceptable
                (set_challenge_type_acceptable
                   (<[(p_username bot, ""):=new_timer (years 10) (now wd)]>
                      (challenge_type_acceptable (self wd))) (self wd)))
        with (<[(p_username bot, ""):=new_timer (years 10) (now wd)]>
                (challenge_type_acceptable (self wd))).
      rewrite lookup_insert_eq.
      assert (now wd = now w) as -> by congruence.
      assert (is_expired (new_timer (years 10) (now w)) t = false) as ->.
      { unfold is_expired, new_timer, time_since_reset. simpl. apply Z.leb_gt. exact Hrunning. }
      reflexivity.
    + unfold ret in Hbody. injection Hbody as <- <-.
      exists [call_choose_opponent allowed_bot_lanes correspondence_only;
              call_li_get_online_bots; call_li_get_public_data (p_username bot)].
      split; [rewrite Hcd, Hcc, Hc8, <- app_assoc; reflexivity|].
      intros name [Habsurd | [Habsurd | [Hname | []]]] Htrue; try discriminate.
      injection Hname as <-. congruence.
  - unfold ret in Hhandler. injection Hhandler as <- <-.
    apply bind_raised in Hbody as [Hchoice | (bot & wc & Hchoice & Hbody)].
    + apply random_choices_raised in Hchoice as (_ & _ & Hcc).
      exists [call_choose_opponent allowed_bot_lanes correspondence_only;
              call_li_get_online_bots].
      split; [rewrite Hcc, Hc8; reflexivity|].
      intros name [Habsurd | [Habsurd | []]]; discriminate.
    + apply random_choices_run in Hchoice as (_ & Hsc & Hnc & Hcc).
      apply bind_raised in Hbody as [Hdata | (blocking & wd & Hdata & Hbody)].
      * pose proof (li_get_public_data_raised _ _ _ _ Hdata) as Hnone.
        rewrite Hsc, Hli, Hs in Hnone.
        assert (calls we = (calls wc ++ [call_li_get_public_data (p_username bot)])%list)
          as Hce.
        { unfold li_get_public_data, bind, record_call, get_self in Hdata. simpl in Hdata.
          destruct (li_public_data_blocking (li (self wc)) (p_username bot));
            [discriminate|]. unfold raise in Hdata. injection Hdata as _ <-. reflexivity. }
        exists [call_choose_opponent allowed_bot_lanes correspondence_only;
                call_li_get_online_bots; call_li_get_public_data (p_username bot)].
        split; [rewrite Hce, Hcc, Hc8, <- app_assoc; reflexivity|].
        intros name [Habsurd | [Habsurd | [Hname | []]]] Htrue; try discriminate.
        injection Hname as <-. congruence.
      * exfalso. destruct blocking.
        -- apply bind_raised in Hbody as [Hadd | (u2 & wx & _ & Habsurd)];
             [|discriminate].
           unfold add_to_block_list, add_challenge_filter, bind, perf_counter, modify_self
             in Hadd. discriminate.
        -- discriminate.
Qed.

Lemma blocking_bot_is_block_listed_witness :
  result_of
    (in_block_list "other_bot"
       (next_tick (days 300) []
          (world_of (choose_opponent (Some {[ "short" ]}) false scenario_blocking_bot))))
  = Some true.
Proof.
  destruct (blocking_bot_is_block_listed (Some {[ "short" ]}) false scenario_blocking_bot
              (world_of (choose_opponent (Some {[ "short" ]}) false scenario_blocking_bot))
              None 60 0 0 "standard" "rated")
    as (new & Hcalls & Hblocked).
  - vm_compute. reflexivity.
  - destruct (Hblocked "other_bot") as [_ Hlisted].
    + vm_compute in Hcalls. rewrite <- Hcalls. right. right. left. reflexivity.
    + reflexivity.
    + apply Hlisted. vm_compute. reflexivity.
Defined.

(** ** The rate limit *)

(** X29: a rate limit pauses matchmaking.  After a [create_challenge] in
    which Lichess raised a [RateLimitedError], or answered without an id that
    the bot is rate limited, for a timeout: at every clock reading before the
    timeout has elapsed the rate-limit timer is running, and
    [should_create_challenge] says no whatever its two flags are, unless an
    outstanding challenge has expired; with no challenge id recorded it says
    no. *)
Theorem rate_limit_pauses_matchmaking (name : string) (base_time increment num_days : Z)
    (variant mode : string) (w : World) (timeout t : Z) (r : list nat)
    (ignore_postgame_timeout ignore_min_wait : bool) :
  let params :=
    if num_days =? 0
    then mkParams (String.eqb mode "rated") variant None (Some base_time) (Some increment)
    else mkParams (String.eqb mode "rated") variant (Some num_days) None None in
  let w' :=
    next_tick t r
      (world_of (create_challenge name base_time increment num_days variant mode w)) in
  num_days ≠ 0 ∨ base_time ≠ 0 ∨ increment ≠ 0 ->
  li_challenge_answer (li (self w)) name params = answer_rate_limited timeout
  ∨ (exists response,
        li_challenge_answer (li (self w)) name params = answer_response response
        ∧ resp_id response = ""
        ∧ resp_bot_is_rate_limited response = true
        ∧ resp_rate_limit_timeout response = Some timeout) ->
  t - now w < timeout ->
  rate_limit_over w' = false
  ∧ (eligible ignore_postgame_timeout ignore_min_wait w' = true ->
     outstanding_challenge_expired w' = true)
  ∧ (challenge_id (self w) = "" ->
     result_of (should_create_challenge ignore_postgame_timeout ignore_min_wait w')
     = Some false).
Proof.
  intros params w' Hcontrol Hanswer Hrunning.
  assert (rate_limit_timer (self w') = new_timer timeout (now w)
          ∧ challenge_id (self w') = challenge_id (self w)) as [Htimer Hid].
  { subst w'. rewrite create_challenge_with_control by exact Hcontrol. cbv zeta.
    fold params.
    destruct Hanswer as [-> | (response & -> & Hnoid & Hbot & Htimeout)].
    - split; reflexivity.
    - rewrite Hnoid. cbn [truthy_str String.eqb negb world_of].
      unfold handle_challenge_error_response, show_earliest_challenge_time,
        bind, perf_counter, modify_self, ret.
      rewrite Hbot, Htimeout. split; reflexivity. }
  assert (rate_limit_over w' = false) as Hlimited.
  { unfold rate_limit_over. rewrite Htimer.
    unfold is_expired, new_timer, time_since_reset. simpl. apply Z.leb_gt. exact Hrunning. }
  split; [exact Hlimited|]. split.
  - unfold eligible. rewrite Hlimited, andb_false_r. cbn [orb].
    destruct (matchmaking_enabled w'); [|discriminate].
    destruct (outstanding_challenge_expired w'); [reflexivity | discriminate].
  - intros Hnone.
    destruct (should_create_challenge_returns ignore_postgame_timeout ignore_min_wait w')
      as (w2 & ->).
    cbn [result_of]. f_equal. unfold eligible. rewrite Hlimited, andb_false_r. cbn [orb].
    unfold outstanding_challenge_expired. rewrite Hid, Hnone.
    cbn [truthy_str String.eqb negb]. rewrite andb_false_r, andb_false_r. reflexivity.
Qed.

Lemma rate_limit_pauses_matchmaking_witness :
  result_of
    (should_create_challenge true true
       (next_tick (seconds 150) []
          (world_of (create_challenge "other_bot" 60 0 0 "standard" "rated"
                       scenario_rate_limited))))
  = Some false.
Proof.
  apply (rate_limit_pauses_matchmaking "other_bot" 60 0 0 "standard" "rated"
           scenario_rate_limited (seconds 60) (seconds 150) [] true true).
  - right. left. discriminate.
  - left. reflexivity.
  - reflexivity.
  - reflexivity.
Defined.

(** ** The minimum wait *)


